(** * BVH asset library: buffers, accessors, lazy dictionaries, skin export

    A shallow embedding of [code/AssetLib/BVH/BVHAsset.h],
    [code/AssetLib/BVH/BVHAsset.inl], the skin part of
    [code/AssetLib/BVH/BVHExporter.cpp] and the mesh part of
    [code/AssetLib/BVH/BVHAssetWriter.inl], followed by the properties of
    the design document that were checked against it and by further
    properties of the code.

    Conventions.
    - [size_t] values are integers in [0, 2^64); every arithmetic operation
      of the source on them is written with its wrap-around ([size_t]).
    - A heap array of [uint8_t] is a list of cells; a cell that was never
      written is indeterminate ([None]).
    - A method of a C++ object is a state transformer on the object that
      also says how the call ended: normally, with a [DeadlyImportError]
      (the state reached at the [throw] stays observable), or with
      undefined behaviour (an access outside an allocation).
    - A string of the document that the source hands on as a
      [const char *] is cut at its first NUL ([c_str]). *)

From Stdlib Require Import ZArith QArith Lia Ascii Strings.Byte.
From stdpp Require Import gmap strings list pretty.

Open Scope Z_scope.

(** ** Machine integers *)

Definition SIZE_MAX : Z := 2 ^ 64 - 1.
Definition UINT32_MAX : Z := 2 ^ 32 - 1.
Definition INT_MAX : Z := 2 ^ 31 - 1.

(** Conversion to [size_t] (also the result of unsigned arithmetic). *)
Definition size_t (z : Z) : Z := z mod 2 ^ 64.

(** ** Errors and outcomes *)

(** Every failure of the library is a [DeadlyImportError] carrying a
    message; the constructors name the throw sites by the kind of failure
    the design document gives them. *)
Inductive DeadlyImportError : Type :=
| MissingSection (dictId : string)      (* "BVH: Missing section ..." *)
| MissingObject (id dictId : string)    (* "BVH: Missing object with id ..." *)
| MalformedObject (id : string)         (* "... is not a JSON object" *)
| DuplicateId                           (* "BVH: two objects with the same ID exist" *)
| InvalidDocument (msg : string)
| NotFound (id : string)                (* "BVH: EncodedRegion with ID ... not found." *)
| IOError (msg : string).

Inductive outcome (A : Type) : Type :=
| Ok (a : A)
| Throw (e : DeadlyImportError)
| Undefined.
Arguments Ok {A} a.
Arguments Throw {A} e.
Arguments Undefined {A}.

(** A computation over a mutable state [S]. *)
Definition M (S A : Type) : Type := S -> S * outcome A.

Definition ret {S A} (a : A) : M S A := fun s => (s, Ok a).
Definition throw {S A} (e : DeadlyImportError) : M S A := fun s => (s, Throw e).
Definition undefined {S A} : M S A := fun s => (s, Undefined).
Definition bind {S A B} (m : M S A) (k : A -> M S B) : M S B :=
  fun s => match m s with
           | (s', Ok a) => k a s'
           | (s', Throw e) => (s', Throw e)
           | (s', Undefined) => (s', Undefined)
           end.
Definition get {S} : M S S := fun s => (s, Ok s).
Definition put {S} (s : S) : M S unit := fun _ => (s, Ok tt).

Declare Scope m_scope.
Delimit Scope m_scope with M.
Notation "x <- m ;; k" := (bind m (fun x => k))
  (at level 100, m at next level, right associativity) : m_scope.
Notation "m ;;; k" := (bind m (fun _ => k))
  (at level 100, right associativity) : m_scope.

(** ** Raw memory *)

Definition cell : Type := option byte.

(** [new uint8_t[n]]: [n] indeterminate cells. *)
Definition new_array (n : Z) : list cell := replicate (Z.to_nat n) None.

(** Initialised storage holding the given bytes. *)
Definition bytes (l : list byte) : list cell := Some <$> l.

(** [memcpy(dst + doff, src + soff, n)]; [None] when the source or the
    destination range leaves its allocation. *)
Definition memcpy (dst : list cell) (doff : Z) (src : list cell) (soff n : Z)
  : option (list cell) :=
  if bool_decide (0 <= doff /\ 0 <= soff /\ 0 <= n
                  /\ soff + n <= Z.of_nat (length src)
                  /\ doff + n <= Z.of_nat (length dst))
  then Some (take (Z.to_nat doff) dst
             ++ take (Z.to_nat n) (drop (Z.to_nat soff) src)
             ++ drop (Z.to_nat (doff + n)) dst)
  else None.

(** The same through a possibly null pointer; a copy of zero bytes is
    taken to do nothing. *)
Definition memcpy_ptr (dst : list cell) (doff : Z) (src : option (list cell))
  (soff n : Z) : option (list cell) :=
  match src with
  | Some s => memcpy dst doff s soff n
  | None => if bool_decide (n = 0) then Some dst else None
  end.

(** Reading [n] cells at [off]. *)
Definition read_cells (src : list cell) (off n : Z) : option (list cell) :=
  if bool_decide (0 <= off /\ 0 <= n /\ off + n <= Z.of_nat (length src))
  then Some (take (Z.to_nat n) (drop (Z.to_nat off) src))
  else None.

(** ** The manifest document *)

(** Modelled from the spec: the JSON tree facility (rapidjson) and the
    lookup helpers of BVHCommon.h are not part of the sources at hand; the
    design document describes them as "a generic tree-structured value with
    object/array/string/number access".  An object keeps its members in
    document order. *)
#[warnings="-register-all"]
Inductive Value : Type :=
| JNull
| JBool (b : bool)
| JNumber (n : Z)
| JString (s : string)
| JArray (items : list Value)
| JObject (members : list (string * Value)).

Definition IsObject (v : Value) : bool :=
  match v with JObject _ => true | _ => false end.
Definition IsString (v : Value) : bool :=
  match v with JString _ => true | _ => false end.

Definition Members (v : Value) : list (string * Value) :=
  match v with JObject ms => ms | _ => [] end.

(** [Value::FindMember]: the first member with the given name. *)
Fixpoint find_member (id : string) (ms : list (string * Value)) : option Value :=
  match ms with
  | [] => None
  | (k, v) :: ms' => if bool_decide (k = id) then Some v else find_member id ms'
  end.
Definition FindMember (v : Value) (id : string) : option Value :=
  find_member id (Members v).

Definition FindObject (v : Value) (id : string) : option Value :=
  match FindMember v id with
  | Some (JObject ms) => Some (JObject ms)
  | _ => None
  end.
Definition FindString (v : Value) (id : string) : option string :=
  match FindMember v id with
  | Some (JString s) => Some s
  | _ => None
  end.
Definition FindArray (v : Value) (id : string) : option (list Value) :=
  match FindMember v id with
  | Some (JArray l) => Some l
  | _ => None
  end.

(** [MemberOrDefault<T>] at an unsigned type with the given largest value,
    and at C strings. *)
Definition MemberOrDefault_uint (max : Z) (v : Value) (id : string) (def : Z) : Z :=
  match FindMember v id with
  | Some (JNumber n) => if bool_decide (0 <= n <= max) then n else def
  | _ => def
  end.
Definition MemberOrDefault_str (v : Value) (id : string) : option string :=
  FindString v id.

(** ** Buffer *)

Module Buffer.

Inductive Type_ : Type := Type_arraybuffer | Type_text.

(** Descriptor of an encoded region. *)
Record SEncodedRegion : Type := {
  Offset : Z;
  EncodedData_Length : Z;
  DecodedData : list cell;
  DecodedData_Length : Z;
  ID : string
}.

Record t : Type := {
  id : string;
  name : string;
  byteLength : Z;
  type : Type_;
  (** pointer into [EncodedRegion_List], as the position of its target *)
  EncodedRegion_Current : option nat;
  mData : option (list cell);
  mIsSpecial : bool;
  capacity : Z;
  EncodedRegion_List : list SEncodedRegion
}.

Definition set_byteLength (n : Z) (b : t) : t :=
  {| id := id b; name := name b; byteLength := n; type := type b;
     EncodedRegion_Current := EncodedRegion_Current b; mData := mData b;
     mIsSpecial := mIsSpecial b; capacity := capacity b;
     EncodedRegion_List := EncodedRegion_List b |}.
Definition set_mData (d : option (list cell)) (b : t) : t :=
  {| id := id b; name := name b; byteLength := byteLength b; type := type b;
     EncodedRegion_Current := EncodedRegion_Current b; mData := d;
     mIsSpecial := mIsSpecial b; capacity := capacity b;
     EncodedRegion_List := EncodedRegion_List b |}.
Definition set_capacity (n : Z) (b : t) : t :=
  {| id := id b; name := name b; byteLength := byteLength b; type := type b;
     EncodedRegion_Current := EncodedRegion_Current b; mData := mData b;
     mIsSpecial := mIsSpecial b; capacity := n;
     EncodedRegion_List := EncodedRegion_List b |}.
Definition set_EncodedRegion_Current (c : option nat) (b : t) : t :=
  {| id := id b; name := name b; byteLength := byteLength b; type := type b;
     EncodedRegion_Current := c; mData := mData b;
     mIsSpecial := mIsSpecial b; capacity := capacity b;
     EncodedRegion_List := EncodedRegion_List b |}.
Definition set_EncodedRegion_List (l : list SEncodedRegion) (b : t) : t :=
  {| id := id b; name := name b; byteLength := byteLength b; type := type b;
     EncodedRegion_Current := EncodedRegion_Current b; mData := mData b;
     mIsSpecial := mIsSpecial b; capacity := capacity b;
     EncodedRegion_List := l |}.
Definition set_id (s : string) (b : t) : t :=
  {| id := s; name := name b; byteLength := byteLength b; type := type b;
     EncodedRegion_Current := EncodedRegion_Current b; mData := mData b;
     mIsSpecial := mIsSpecial b; capacity := capacity b;
     EncodedRegion_List := EncodedRegion_List b |}.
Definition set_name (s : string) (b : t) : t :=
  {| id := id b; name := s; byteLength := byteLength b; type := type b;
     EncodedRegion_Current := EncodedRegion_Current b; mData := mData b;
     mIsSpecial := mIsSpecial b; capacity := capacity b;
     EncodedRegion_List := EncodedRegion_List b |}.

(** [Buffer::Buffer()] (with [capacity = 0] from its member initialiser). *)
Definition Buffer : t :=
  {| id := ""; name := ""; byteLength := 0; type := Type_arraybuffer;
     EncodedRegion_Current := None; mData := None; mIsSpecial := false;
     capacity := 0; EncodedRegion_List := [] |}.

(** Size of the allocation behind [mData] (0 for the null pointer). *)
Definition allocated (b : t) : Z :=
  match mData b with
  | Some d => Z.of_nat (length d)
  | None => 0
  end.

(** The cell the raw storage holds at [k], if [k] is inside it. *)
Definition raw_at (b : t) (k : Z) : option cell :=
  match mData b with
  | Some d => if bool_decide (0 <= k) then d !! Z.to_nat k else None
  | None => None
  end.

(** [Buffer::Grow] *)
Definition Grow (amount : Z) : M t unit := fun b =>
  if bool_decide (amount <= 0) then (b, Ok tt)
  else if bool_decide (capacity b >= size_t (byteLength b + amount))
  then (set_byteLength (size_t (byteLength b + amount)) b, Ok tt)
  else
    let b1 := set_capacity
                (Z.max (size_t (capacity b + Z.shiftr (capacity b) 1))
                       (size_t (byteLength b + amount))) b in
    let fresh := new_array (capacity b1) in
    match (match mData b1 with
           | Some d => memcpy fresh 0 d 0 (byteLength b1)
           | None => Some fresh
           end) with
    | None => (b1, Undefined)
    | Some d' =>
        (set_byteLength (size_t (byteLength b1 + amount))
           (set_mData (Some d') b1), Ok tt)
    end.

(** [Buffer::AppendData] *)
Definition AppendData (data : option (list cell)) (length : Z) : M t Z :=
  (b0 <- get ;;
   let offset := byteLength b0 in
   Grow length ;;;
   b <- get ;;
   match mData b with
   | None =>
       if bool_decide (length = 0) then ret offset else undefined
   | Some d =>
       match memcpy_ptr d offset data 0 length with
       | Some d' => put (set_mData (Some d') b) ;;; ret offset
       | None => undefined
       end
   end)%M.

(** [Buffer::ReplaceData] *)
Definition ReplaceData (pBufferData_Offset pBufferData_Count : Z)
  (pReplace_Data : option (list cell)) (pReplace_Count : Z) : M t bool :=
  fun b =>
  let new_data_size :=
    size_t (size_t (byteLength b + pReplace_Count) - pBufferData_Count) in
  match pReplace_Data with
  | None => (b, Ok false)
  | Some rep =>
      if bool_decide (pBufferData_Count = 0 \/ pReplace_Count = 0)
      then (b, Ok false)
      else
        let new_data := new_array new_data_size in
        (* Copy data which place before replacing part. *)
        match memcpy_ptr new_data 0 (mData b) 0 pBufferData_Offset with
        | None => (b, Undefined)
        | Some d1 =>
            (* Copy new data. *)
            match memcpy d1 pBufferData_Offset rep 0 pReplace_Count with
            | None => (b, Undefined)
            | Some d2 =>
                (* Copy data which place after replacing part. *)
                match memcpy_ptr d2 (size_t (pBufferData_Offset + pReplace_Count))
                        (mData b)
                        (size_t (pBufferData_Offset + pBufferData_Count))
                        pBufferData_Offset with
                | None => (b, Undefined)
                | Some d3 =>
                    (* Apply new data *)
                    (set_byteLength new_data_size (set_mData (Some d3) b),
                     Ok true)
                end
            end
        end
  end.

(** [Buffer::EncodedRegion_Mark] *)
Definition EncodedRegion_Mark (pOffset pEncodedData_Length : Z)
  (pDecodedData : option (list cell)) (pDecodedData_Length : Z)
  (pID : string) : M t unit := fun b =>
  match pDecodedData with
  | None =>
      (b, Throw (InvalidDocument
        "BVH: for marking encoded region pointer to decoded data must be provided."))
  | Some dec =>
      if bool_decide (pOffset > byteLength b)
      then (b, Throw (InvalidDocument
             "BVH: incorrect offset value for marking encoded region."))
      else if bool_decide (size_t (pOffset + pEncodedData_Length) > byteLength b)
      then (b, Throw (InvalidDocument
             "BVH: encoded region with offset/length is out of range."))
      else
        let reg := {| Offset := pOffset;
                      EncodedData_Length := pEncodedData_Length;
                      DecodedData := dec;
                      DecodedData_Length := pDecodedData_Length;
                      ID := pID |} in
        let b1 := set_EncodedRegion_List (EncodedRegion_List b ++ [reg]) b in
        (set_byteLength
           (size_t (byteLength b1
                    + size_t (pDecodedData_Length - pEncodedData_Length))) b1,
         Ok tt)
  end.

(** Position of the first region of the list with the given ID. *)
Fixpoint find_region (pID : string) (l : list SEncodedRegion) (i : nat)
  : option nat :=
  match l with
  | [] => None
  | reg :: l' =>
      if bool_decide (ID reg = pID) then Some i else find_region pID l' (S i)
  end.

Definition current_region (b : t) : option SEncodedRegion :=
  i ← EncodedRegion_Current b; EncodedRegion_List b !! i.

(** [Buffer::EncodedRegion_SetCurrent] *)
Definition EncodedRegion_SetCurrent (pID : string) : M t unit := fun b =>
  match current_region b with
  | Some cur =>
      if bool_decide (ID cur = pID) then (b, Ok tt)
      else match find_region pID (EncodedRegion_List b) 0 with
           | Some i => (set_EncodedRegion_Current (Some i) b, Ok tt)
           | None => (b, Throw (NotFound pID))
           end
  | None =>
      match find_region pID (EncodedRegion_List b) 0 with
      | Some i => (set_EncodedRegion_Current (Some i) b, Ok tt)
      | None => (b, Throw (NotFound pID))
      end
  end.

(** [Buffer::GetPointer]: the raw storage, or null. *)
Definition GetPointer (b : t) : option (list cell) := mData b.

(** [Buffer::TranslateId] *)
Definition TranslateId (id : string) : string := id.

(** Reading [n] bytes of the raw storage at [off]. *)
Definition read (b : t) (off n : Z) : option (list cell) :=
  d ← mData b; read_cells d off n.

(** The state the constructor sets up and [Grow] and [AppendData] keep:
    the live prefix and the capacity both lie inside the allocation. *)
Definition wf (b : t) : Prop :=
  0 <= byteLength b <= allocated b /\ 0 <= capacity b <= allocated b.

End Buffer.

(** ** References and the other dictionary objects *)

(** [Ref<T>]: a position in the object vector of the dictionary of [T], or
    the null reference. *)
Inductive Ref (T : Type) : Type :=
| NullRef
| MkRef (index : nat).
Arguments NullRef {T}.
Arguments MkRef {T} index.

Module BufferView.

Record t : Type := {
  id : string;
  name : string;
  buffer : Ref Buffer.t;
  byteOffset : Z;
  byteLength : Z
}.

Definition BufferView : t :=
  {| id := ""; name := ""; buffer := NullRef; byteOffset := 0; byteLength := 0 |}.

End BufferView.

(** Modelled from the spec: the enumerations of BVHCommon.h are not part of
    the sources at hand.  Component types are "byte, ubyte, short, ushort,
    uint, float" with their sizes; element shapes have 1/2/3/4 components
    for SCALAR/VEC2/VEC3/VEC4 and 4/9/16 for MAT2/3/4. *)
Inductive ComponentType : Type :=
| ComponentType_BYTE
| ComponentType_UNSIGNED_BYTE
| ComponentType_SHORT
| ComponentType_UNSIGNED_SHORT
| ComponentType_UNSIGNED_INT
| ComponentType_FLOAT.

Definition ComponentTypeSize (c : ComponentType) : Z :=
  match c with
  | ComponentType_BYTE | ComponentType_UNSIGNED_BYTE => 1
  | ComponentType_SHORT | ComponentType_UNSIGNED_SHORT => 2
  | ComponentType_UNSIGNED_INT | ComponentType_FLOAT => 4
  end.

Module AttribType.

Inductive Value : Type := SCALAR | VEC2 | VEC3 | VEC4 | MAT2 | MAT3 | MAT4.

Definition GetNumComponents (v : Value) : Z :=
  match v with
  | SCALAR => 1 | VEC2 => 2 | VEC3 => 3 | VEC4 => 4
  | MAT2 => 4 | MAT3 => 9 | MAT4 => 16
  end.

End AttribType.

Module Accessor.

(** The [min]/[max] bounds are never read or written by the code modelled
    here and are left out. *)
Record t : Type := {
  id : string;
  name : string;
  bufferView : Ref BufferView.t;
  byteOffset : Z;
  byteStride : Z;
  componentType : ComponentType;
  count : Z;
  type : AttribType.Value
}.

Definition Accessor : t :=
  {| id := ""; name := ""; bufferView := NullRef; byteOffset := 0;
     byteStride := 0; componentType := ComponentType_BYTE; count := 0;
     type := AttribType.SCALAR |}.

Definition GetNumComponents (a : t) : Z := AttribType.GetNumComponents (type a).
Definition GetBytesPerComponent (a : t) : Z := ComponentTypeSize (componentType a).
Definition GetElementSize (a : t) : Z :=
  (GetNumComponents a * GetBytesPerComponent a) mod 2 ^ 32.

End Accessor.

Module Material.

Record t : Type := { id : string; name : string }.
Definition Material : t := {| id := ""; name := "" |}.

End Material.

Module Mesh.

Definition AccessorList : Type := list (Ref Accessor.t).

Record Attributes : Type := {
  position : AccessorList;
  normal : AccessorList;
  texcoord : AccessorList;
  color : AccessorList;
  joint : AccessorList;
  jointmatrix : AccessorList;
  weight : AccessorList
}.

Record Primitive : Type := {
  mode : Z;
  attributes : Attributes;
  indices : Ref Accessor.t;
  material : Ref Material.t
}.

Record t : Type := {
  id : string;
  name : string;
  primitives : list Primitive
}.

Definition no_attributes : Attributes :=
  {| position := []; normal := []; texcoord := []; color := []; joint := [];
     jointmatrix := []; weight := [] |}.

(** A value-initialised primitive, as [vector::resize] makes it. *)
Definition Primitive_ : Primitive :=
  {| mode := 0; attributes := no_attributes; indices := NullRef;
     material := NullRef |}.

Definition Mesh : t := {| id := ""; name := ""; primitives := [] |}.

(** The seven attribute vectors a key can select. *)
Inductive Semantic : Type :=
| POSITION | NORMAL | TEXCOORD | COLOR | JOINT | JOINTMATRIX | WEIGHT.

#[global] Instance Semantic_eq_dec : EqDecision Semantic.
Proof. solve_decision. Defined.

Definition attrib (s : Semantic) (a : Attributes) : AccessorList :=
  match s with
  | POSITION => position a
  | NORMAL => normal a
  | TEXCOORD => texcoord a
  | COLOR => color a
  | JOINT => joint a
  | JOINTMATRIX => jointmatrix a
  | WEIGHT => weight a
  end.

Definition set_attrib (s : Semantic) (v : AccessorList) (a : Attributes)
  : Attributes :=
  match s with
  | POSITION =>
      {| position := v; normal := normal a; texcoord := texcoord a;
         color := color a; joint := joint a; jointmatrix := jointmatrix a;
         weight := weight a |}
  | NORMAL =>
      {| position := position a; normal := v; texcoord := texcoord a;
         color := color a; joint := joint a; jointmatrix := jointmatrix a;
         weight := weight a |}
  | TEXCOORD =>
      {| position := position a; normal := normal a; texcoord := v;
         color := color a; joint := joint a; jointmatrix := jointmatrix a;
         weight := weight a |}
  | COLOR =>
      {| position := position a; normal := normal a; texcoord := texcoord a;
         color := v; joint := joint a; jointmatrix := jointmatrix a;
         weight := weight a |}
  | JOINT =>
      {| position := position a; normal := normal a; texcoord := texcoord a;
         color := color a; joint := v; jointmatrix := jointmatrix a;
         weight := weight a |}
  | JOINTMATRIX =>
      {| position := position a; normal := normal a; texcoord := texcoord a;
         color := color a; joint := joint a; jointmatrix := v;
         weight := weight a |}
  | WEIGHT =>
      {| position := position a; normal := normal a; texcoord := texcoord a;
         color := color a; joint := joint a; jointmatrix := jointmatrix a;
         weight := v |}
  end.

Definition set_attributes (a : Attributes) (p : Primitive) : Primitive :=
  {| mode := mode p; attributes := a; indices := indices p;
     material := material p |}.
Definition set_mode (m : Z) (p : Primitive) : Primitive :=
  {| mode := m; attributes := attributes p; indices := indices p;
     material := material p |}.
Definition set_indices (r : Ref Accessor.t) (p : Primitive) : Primitive :=
  {| mode := mode p; attributes := attributes p; indices := r;
     material := material p |}.
Definition set_material (r : Ref Material.t) (p : Primitive) : Primitive :=
  {| mode := mode p; attributes := attributes p; indices := indices p;
     material := r |}.
Definition set_primitives (l : list Primitive) (m : t) : t :=
  {| id := id m; name := name m; primitives := l |}.

End Mesh.

Module Node.

(** Only the members the skin export touches; the rest of [Node] is not
    part of the sources at hand. *)
Record t : Type := { id : string; name : string; jointName : string }.
Definition Node : t := {| id := ""; name := ""; jointName := "" |}.
Definition set_jointName (s : string) (n : t) : t :=
  {| id := id n; name := name n; jointName := s |}.

End Node.

(** ** Lazy dictionaries and the asset *)

Module LazyDict.

Record t (T : Type) : Type := {
  mDictId : string;
  mExtId : option string;
  mDict : option Value;
  mObjs : list T;
  mObjsById : gmap string nat
}.
Arguments mDictId {T} _.
Arguments mExtId {T} _.
Arguments mDict {T} _.
Arguments mObjs {T} _.
Arguments mObjsById {T} _.

(** [LazyDict<T>::LazyDict] *)
Definition LazyDict {T} (dictId : string) (extId : option string) : t T :=
  {| mDictId := dictId; mExtId := extId; mDict := None; mObjs := [];
     mObjsById := ∅ |}.

Definition set_mDict {T} (v : option Value) (d : t T) : t T :=
  {| mDictId := mDictId d; mExtId := mExtId d; mDict := v; mObjs := mObjs d;
     mObjsById := mObjsById d |}.

(** [mObjs.push_back(obj); mObjsById[id] = idx] *)
Definition push {T} (id : string) (obj : T) (d : t T) : t T :=
  {| mDictId := mDictId d; mExtId := mExtId d; mDict := mDict d;
     mObjs := mObjs d ++ [obj];
     mObjsById := <[id := length (mObjs d)]> (mObjsById d) |}.

(** Assignment through a reference to the object at [i]. *)
Definition store {T} (i : nat) (obj : T) (d : t T) : t T :=
  {| mDictId := mDictId d; mExtId := mExtId d; mDict := mDict d;
     mObjs := <[i := obj]> (mObjs d);
     mObjsById := mObjsById d |}.

(** [LazyDict<T>::AttachToDocument] *)
Definition AttachToDocument {T} (doc : Value) (d : t T) : t T :=
  let container :=
    match mExtId d with
    | Some ext =>
        match FindObject doc "extensions" with
        | Some exts => FindObject exts ext
        | None => None
        end
    | None => Some doc
    end in
  match container with
  | Some c => set_mDict (FindObject c (mDictId d)) d
  | None => d
  end.

(** [LazyDict<T>::DetachFromDocument] *)
Definition DetachFromDocument {T} (d : t T) : t T := set_mDict None d.

End LazyDict.

(** Dereferencing a [Ref<T>] against the object vector it points into;
    [None] for the null reference or a position outside the vector. *)
Definition deref {T} (d : LazyDict.t T) (r : Ref T) : option T :=
  match r with
  | NullRef => None
  | MkRef i => LazyDict.mObjs d !! i
  end.

Module Skin.

(** [bindShapeMatrix] (a matrix of floats) is left out. *)
Record t : Type := {
  id : string;
  name : string;
  inverseBindMatrices : Ref Accessor.t;
  jointNames : list (Ref Node.t)
}.
Definition Skin : t :=
  {| id := ""; name := ""; inverseBindMatrices := NullRef; jointNames := [] |}.
Definition set_jointNames (l : list (Ref Node.t)) (s : t) : t :=
  {| id := id s; name := name s; inverseBindMatrices := inverseBindMatrices s;
     jointNames := l |}.

End Skin.

(** ** C strings and formatted output *)

(** [std::string::c_str] read as a C string: the characters before the
    first NUL. *)
Fixpoint c_str (s : string) : string :=
  match s with
  | EmptyString => EmptyString
  | String c s' =>
      if bool_decide (c = zero) then EmptyString else String c (c_str s')
  end.

Fixpoint string_take (n : nat) (s : string) : string :=
  match n, s with
  | O, _ => EmptyString
  | S _, EmptyString => EmptyString
  | S n', String c s' => String c (string_take n' s')
  end.

(** [ai_snprintf(buf, size, ...)] (C99 [snprintf]) for the formatted text
    [full] and [size > 0]: the C string left in [buf], cut to [size - 1]
    characters, and the returned count, the length of [full]. *)
Definition ai_snprintf (size : Z) (full : string) : string * Z :=
  (string_take (Z.to_nat (size - 1)) full, Z.of_nat (String.length full)).

Module Asset.

(** [IdMap]: [std::map<std::string, int>] (or its unordered variant). *)
Abbreviation IdMap := (gmap string Z).

Record t : Type := {
  (** [IOSystem::Open], as the contents of the file at a path, if any *)
  mIOSystem : string -> option (list byte);
  mCurrentAssetDir : string;
  mSceneLength : Z;
  mBodyOffset : Z;
  mBodyLength : Z;
  mUsedIds : IdMap;
  mBodyBuffer : Ref Buffer.t;
  accessors : LazyDict.t Accessor.t;
  buffers : LazyDict.t Buffer.t;
  bufferViews : LazyDict.t BufferView.t;
  materials : LazyDict.t Material.t;
  meshes : LazyDict.t Mesh.t;
  nodes : LazyDict.t Node.t;
  skins : LazyDict.t Skin.t
}.

(** [Asset::Asset(io)] *)
Definition Asset (io : string -> option (list byte)) : t :=
  {| mIOSystem := io; mCurrentAssetDir := ""; mSceneLength := 0;
     mBodyOffset := 0; mBodyLength := 0; mUsedIds := ∅;
     mBodyBuffer := NullRef;
     accessors := LazyDict.LazyDict "accessors" None;
     buffers := LazyDict.LazyDict "buffers" None;
     bufferViews := LazyDict.LazyDict "bufferViews" None;
     materials := LazyDict.LazyDict "materials" None;
     meshes := LazyDict.LazyDict "meshes" None;
     nodes := LazyDict.LazyDict "nodes" None;
     skins := LazyDict.LazyDict "skins" None |}.

Definition set_mUsedIds (u : IdMap) (r : t) : t :=
  {| mIOSystem := mIOSystem r; mCurrentAssetDir := mCurrentAssetDir r;
     mSceneLength := mSceneLength r; mBodyOffset := mBodyOffset r;
     mBodyLength := mBodyLength r; mUsedIds := u;
     mBodyBuffer := mBodyBuffer r; accessors := accessors r;
     buffers := buffers r; bufferViews := bufferViews r;
     materials := materials r; meshes := meshes r; nodes := nodes r;
     skins := skins r |}.
Definition set_mSceneLength (n : Z) (r : t) : t :=
  {| mIOSystem := mIOSystem r; mCurrentAssetDir := mCurrentAssetDir r;
     mSceneLength := n; mBodyOffset := mBodyOffset r;
     mBodyLength := mBodyLength r; mUsedIds := mUsedIds r;
     mBodyBuffer := mBodyBuffer r; accessors := accessors r;
     buffers := buffers r; bufferViews := bufferViews r;
     materials := materials r; meshes := meshes r; nodes := nodes r;
     skins := skins r |}.
Definition set_mBodyLength (n : Z) (r : t) : t :=
  {| mIOSystem := mIOSystem r; mCurrentAssetDir := mCurrentAssetDir r;
     mSceneLength := mSceneLength r; mBodyOffset := mBodyOffset r;
     mBodyLength := n; mUsedIds := mUsedIds r;
     mBodyBuffer := mBodyBuffer r; accessors := accessors r;
     buffers := buffers r; bufferViews := bufferViews r;
     materials := materials r; meshes := meshes r; nodes := nodes r;
     skins := skins r |}.
Definition set_mCurrentAssetDir (s : string) (r : t) : t :=
  {| mIOSystem := mIOSystem r; mCurrentAssetDir := s;
     mSceneLength := mSceneLength r; mBodyOffset := mBodyOffset r;
     mBodyLength := mBodyLength r; mUsedIds := mUsedIds r;
     mBodyBuffer := mBodyBuffer r; accessors := accessors r;
     buffers := buffers r; bufferViews := bufferViews r;
     materials := materials r; meshes := meshes r; nodes := nodes r;
     skins := skins r |}.
Definition set_accessors (d : LazyDict.t Accessor.t) (r : t) : t :=
  {| mIOSystem := mIOSystem r; mCurrentAssetDir := mCurrentAssetDir r;
     mSceneLength := mSceneLength r; mBodyOffset := mBodyOffset r;
     mBodyLength := mBodyLength r; mUsedIds := mUsedIds r;
     mBodyBuffer := mBodyBuffer r; accessors := d;
     buffers := buffers r; bufferViews := bufferViews r;
     materials := materials r; meshes := meshes r; nodes := nodes r;
     skins := skins r |}.
Definition set_buffers (d : LazyDict.t Buffer.t) (r : t) : t :=
  {| mIOSystem := mIOSystem r; mCurrentAssetDir := mCurrentAssetDir r;
     mSceneLength := mSceneLength r; mBodyOffset := mBodyOffset r;
     mBodyLength := mBodyLength r; mUsedIds := mUsedIds r;
     mBodyBuffer := mBodyBuffer r; accessors := accessors r;
     buffers := d; bufferViews := bufferViews r;
     materials := materials r; meshes := meshes r; nodes := nodes r;
     skins := skins r |}.
Definition set_bufferViews (d : LazyDict.t BufferView.t) (r : t) : t :=
  {| mIOSystem := mIOSystem r; mCurrentAssetDir := mCurrentAssetDir r;
     mSceneLength := mSceneLength r; mBodyOffset := mBodyOffset r;
     mBodyLength := mBodyLength r; mUsedIds := mUsedIds r;
     mBodyBuffer := mBodyBuffer r; accessors := accessors r;
     buffers := buffers r; bufferViews := d;
     materials := materials r; meshes := meshes r; nodes := nodes r;
     skins := skins r |}.
Definition set_materials (d : LazyDict.t Material.t) (r : t) : t :=
  {| mIOSystem := mIOSystem r; mCurrentAssetDir := mCurrentAssetDir r;
     mSceneLength := mSceneLength r; mBodyOffset := mBodyOffset r;
     mBodyLength := mBodyLength r; mUsedIds := mUsedIds r;
     mBodyBuffer := mBodyBuffer r; accessors := accessors r;
     buffers := buffers r; bufferViews := bufferViews r;
     materials := d; meshes := meshes r; nodes := nodes r;
     skins := skins r |}.
Definition set_meshes (d : LazyDict.t Mesh.t) (r : t) : t :=
  {| mIOSystem := mIOSystem r; mCurrentAssetDir := mCurrentAssetDir r;
     mSceneLength := mSceneLength r; mBodyOffset := mBodyOffset r;
     mBodyLength := mBodyLength r; mUsedIds := mUsedIds r;
     mBodyBuffer := mBodyBuffer r; accessors := accessors r;
     buffers := buffers r; bufferViews := bufferViews r;
     materials := materials r; meshes := d; nodes := nodes r;
     skins := skins r |}.
Definition set_nodes (d : LazyDict.t Node.t) (r : t) : t :=
  {| mIOSystem := mIOSystem r; mCurrentAssetDir := mCurrentAssetDir r;
     mSceneLength := mSceneLength r; mBodyOffset := mBodyOffset r;
     mBodyLength := mBodyLength r; mUsedIds := mUsedIds r;
     mBodyBuffer := mBodyBuffer r; accessors := accessors r;
     buffers := buffers r; bufferViews := bufferViews r;
     materials := materials r; meshes := meshes r; nodes := d;
     skins := skins r |}.
Definition set_skins (d : LazyDict.t Skin.t) (r : t) : t :=
  {| mIOSystem := mIOSystem r; mCurrentAssetDir := mCurrentAssetDir r;
     mSceneLength := mSceneLength r; mBodyOffset := mBodyOffset r;
     mBodyLength := mBodyLength r; mUsedIds := mUsedIds r;
     mBodyBuffer := mBodyBuffer r; accessors := accessors r;
     buffers := buffers r; bufferViews := bufferViews r;
     materials := materials r; meshes := meshes r; nodes := nodes r;
     skins := d |}.

(** [Asset::OpenFile] (with [ASSIMP_API] defined). *)
Definition OpenFile (r : t) (path : string) : option (list byte) :=
  mIOSystem r path.

(** The loop of [Asset::FindUniqueID], entered with [buffer] holding the C
    string the first [ai_snprintf] left and [offset] its returned count,
    [offset <= sizeof(buffer)].  Each turn prints [i] at [buffer + offset];
    [None] when [fuel] turns did not end the loop. *)
Fixpoint FindUniqueID_loop (fuel : nat) (used : IdMap) (buffer : string)
  (offset : Z) (i : Z) : option (outcome string) :=
  match fuel with
  | O => None
  | S fuel' =>
      let id :=
        if bool_decide (offset = 1024)
        then (* a size of 0: nothing is written *) buffer
        else string_take (Z.to_nat offset) buffer
             +:+ (ai_snprintf (1024 - offset) (pretty i)).1 in
      if bool_decide (i = INT_MAX) then (* ++i *) Some Undefined
      else
        match used !! id with
        | None => Some (Ok id)
        | Some _ => FindUniqueID_loop fuel' used buffer offset (i + 1)
        end
  end.

(** [Asset::FindUniqueID] *)
Definition FindUniqueID (str suffix : string) (fuel : nat) (r : t)
  : option (outcome string) :=
  let tail (id : string) :=
    let id := id +:+ c_str suffix in
    match mUsedIds r !! id with
    | None => Some (Ok id)
    | Some _ =>
        let '(buffer, offset) := ai_snprintf 1024 (c_str id +:+ "_") in
        if bool_decide (offset > 1024)
        then (* buffer + offset lies outside the array *) Some Undefined
        else FindUniqueID_loop fuel (mUsedIds r) buffer offset 0
    end in
  match str with
  | EmptyString => tail str
  | String _ _ =>
      match mUsedIds r !! str with
      | None => Some (Ok str)
      | Some _ => tail (str +:+ "_")
      end
  end.

(** The guards of [Asset::Load] on the manifest length, run once the
    binary header or the size of the file has set [mSceneLength]. *)
Definition Load_check_length : M t unit := fun r =>
  (* Smallest legal JSON file is "{}" *)
  if bool_decide (mSceneLength r < 2)
  then (r, Throw (InvalidDocument "BVH: No JSON file contents"))
  (* Binary format only supports up to 4GB of JSON *)
  else if bool_decide (mSceneLength r >= UINT32_MAX)
  then (r, Throw (InvalidDocument "BVH: JSON size greater than 4GB"))
  else (r, Ok tt).

(** [Asset::Load] of a text manifest ([isBinary = false]), from opening the
    stream to reading the scene data, which it returns.  The bookkeeping of
    [mCurrentAssetDir] before it and the parsing after it go through code
    outside these sources and are not modelled. *)
Definition Load_text (pFile : string) : M t (list byte) := fun r =>
  match OpenFile r pFile with
  | None => (r, Throw (IOError "BVH: Could not open file for reading"))
  | Some stream =>
      let r := set_mSceneLength (Z.of_nat (length stream)) r in
      let r := set_mBodyLength 0 r in
      match Load_check_length r with
      | (r, Ok _) => (r, Ok stream)
      | (r, Throw e) => (r, Throw e)
      | (r, Undefined) => (r, Undefined)
      end
  end.

End Asset.

(** ** The interface [LazyDict<T>] asks of [T] *)

(** [LazyDict<T>] uses of its parameter: a default constructor, the
    [id] and [name] members of [Object], the static [T::TranslateId], the
    method [T::Read], and, through [mAsset], the asset the dictionary is a
    member of.  The three laws say that the member of the asset holding the
    dictionary of [T] is a field of its own. *)
Class DictObject (T : Type) : Type := {
  T_new : T;
  T_id : T -> string;
  T_set_id : string -> T -> T;
  T_set_name : string -> T -> T;
  T_TranslateId : Asset.t -> string -> string;
  T_Read : Value -> T -> M Asset.t T;
  T_dict : Asset.t -> LazyDict.t T;
  T_set_dict : LazyDict.t T -> Asset.t -> Asset.t;
  T_id_set_id : forall s x, T_id (T_set_id s x) = s;
  T_dict_set_dict : forall d r, T_dict (T_set_dict d r) = d;
  T_used_set_dict : forall d r,
    Asset.mUsedIds (T_set_dict d r) = Asset.mUsedIds r
}.

(** [unsigned(n)] *)
Definition unsigned (n : Z) : Z := n mod 2 ^ 32.

Section LazyDictMethods.
Context {T : Type} {D : DictObject T}.

(** [LazyDict<T>::Get], by position *)
Definition LazyDict_Get_index (i : nat) : Ref T := MkRef i.

(** [LazyDict<T>::Add] *)
Definition LazyDict_Add (obj : T) : M Asset.t (Ref T) := fun r =>
  let d := T_dict r in
  let idx := Z.to_nat (unsigned (Z.of_nat (length (LazyDict.mObjs d)))) in
  let d1 :=
    {| LazyDict.mDictId := LazyDict.mDictId d;
       LazyDict.mExtId := LazyDict.mExtId d;
       LazyDict.mDict := LazyDict.mDict d;
       LazyDict.mObjs := LazyDict.mObjs d ++ [obj];
       LazyDict.mObjsById := <[T_id obj := idx]> (LazyDict.mObjsById d) |} in
  let r1 := T_set_dict d1 r in
  let r2 := Asset.set_mUsedIds (<[T_id obj := 1]> (Asset.mUsedIds r1)) r1 in
  (r2, Ok (MkRef idx)).

(** [LazyDict<T>::Get], by identifier *)
Definition LazyDict_Get (id : string) : M Asset.t (Ref T) := fun r =>
  let id := T_TranslateId r id in
  let d := T_dict r in
  match LazyDict.mObjsById d !! id with
  | Some i => (* already created? *) (r, Ok (MkRef i))
  | None =>
      (* read it from the JSON object *)
      match LazyDict.mDict d with
      | None => (r, Throw (MissingSection (LazyDict.mDictId d)))
      | Some dict =>
          match FindMember dict id with
          | None => (r, Throw (MissingObject id (LazyDict.mDictId d)))
          | Some obj =>
              if negb (IsObject obj) then (r, Throw (MalformedObject id))
              else
                (* create an instance of the given type *)
                let inst := T_set_id id T_new in
                let inst := match FindString obj "name" with
                            | Some n => T_set_name n inst
                            | None => inst
                            end in
                bind (T_Read obj inst) LazyDict_Add r
          end
      end
  end.

(** [LazyDict<T>::Create] *)
Definition LazyDict_Create (id : string) : M Asset.t (Ref T) := fun r =>
  match Asset.mUsedIds r !! id with
  | Some _ => (r, Throw DuplicateId)
  | None => LazyDict_Add (T_set_id id T_new) r
  end.

End LazyDictMethods.

(** ** What the code calls from outside these sources *)

(** [BVHCommon::Util::DataURI], as far as [Buffer::Read] uses it. *)
Record DataURI : Type := {
  base64 : bool;
  data : string
}.
Definition dataLength (u : DataURI) : Z := Z.of_nat (String.length (data u)).

(** The collaborators below are called by the code but defined outside the
    sources at hand (BVHCommon.h, Base64.hpp, the readers of [Material] and
    [Node], the host scene); the design document treats them as external,
    base64 decoding being "a pure function of bytes to text".  They stay
    parameters of everything that follows. *)
Class Externals : Type := {
  (** [ParseDataURI]: [None] when the uri is not a data-URI *)
  ParseDataURI : string -> option DataURI;
  (** [Base64::Decode], as the decoded bytes *)
  Base64_Decode : string -> list byte;
  (** the conversion of a member to [ComponentType], if it has one *)
  ReadComponentType : Value -> option ComponentType;
  AttribType_FromString : string -> AttribType.Value;
  PrimitiveMode_TRIANGLES : Z;
  (** [T::TranslateId] of the objects that do not declare their own *)
  Object_TranslateId : Asset.t -> string -> string;
  Material_Read : Value -> Material.t -> M Asset.t Material.t;
  Node_Read : Value -> Node.t -> M Asset.t Node.t;
  (** the scalars and matrices of the host scene: [float] with its zero and
      [static_cast<float>] of an unsigned integer, and [aiMatrix4x4]; the
      code only moves them *)
  float : Type;
  float_zero : float;
  float_of_uint : Z -> float;
  aiMatrix4x4 : Type
}.

(** ** Reading the dictionary objects *)

(** [Buffer::LoadFromStream], on a stream over the given file contents. *)
Definition Buffer_LoadFromStream (file : list byte) (length baseOffset : Z)
  : M Buffer.t bool := fun b =>
  let FileSize := Z.of_nat (List.length file) in
  let b1 := Buffer.set_byteLength
              (if bool_decide (length = 0) then FileSize else length) b in
  (* Seek(baseOffset, aiOrigin_SET), the stream being at its start *)
  let rest := drop (Z.to_nat baseOffset) file in
  (* Read(mData.get(), byteLength, 1): what the stream still has goes to the
     new array; one full item was read when all of it was there *)
  let b2 := Buffer.set_mData
              (Some (resize (Z.to_nat (Buffer.byteLength b1)) None (bytes rest)))
              b1 in
  (b2, Ok (bool_decide (0 < Buffer.byteLength b1
                        /\ Buffer.byteLength b1 <= Z.of_nat (List.length rest)))).

(** [std::string::back] of a non-empty string. *)
Fixpoint string_back (c : ascii) (s : string) : ascii :=
  match s with
  | EmptyString => c
  | String c' s' => string_back c' s'
  end.

Section Reading.
Context `{ext : Externals}.

(** [Buffer::Read] *)
Definition Buffer_Read (obj : Value) (r : Asset.t) : M Buffer.t unit := fun b =>
  let statedLength := MemberOrDefault_uint SIZE_MAX obj "byteLength" 0 in
  let b := Buffer.set_byteLength statedLength b in
  match FindString obj "uri" with
  | None =>
      if bool_decide (statedLength > 0)
      then (b, Throw (InvalidDocument
             "BVH: buffer with non-zero length missing the uri attribute"))
      else (b, Ok tt)
  | Some uri =>
      match ParseDataURI uri with
      | Some dataURI =>
          if base64 dataURI then
            let decoded := Base64_Decode (data dataURI) in
            let b := Buffer.set_byteLength (Z.of_nat (length decoded)) b in
            let b := Buffer.set_mData (Some (bytes decoded)) b in
            if bool_decide (statedLength > 0
                            /\ Buffer.byteLength b <> statedLength)
            then (b, Throw (InvalidDocument
                   "BVH: buffer, expected other byte count than found"))
            else (b, Ok tt)
          else (* assume raw data *)
            if bool_decide (statedLength <> dataLength dataURI)
            then (b, Throw (InvalidDocument
                   "BVH: buffer, expected other byte count than found"))
            else
              (Buffer.set_mData
                 (Some (bytes (String.list_byte_of_string (data dataURI)))) b,
               Ok tt)
      | None => (* Local file *)
          if bool_decide (Buffer.byteLength b > 0) then
            let dir :=
              match Asset.mCurrentAssetDir r with
              | EmptyString => ""
              | String c s =>
                  if bool_decide (string_back c s = "/"%char)
                  then Asset.mCurrentAssetDir r
                  else Asset.mCurrentAssetDir r +:+ "/"
              end in
            match Asset.OpenFile r (dir +:+ c_str uri) with
            | Some file =>
                match Buffer_LoadFromStream file (Buffer.byteLength b) 0 b with
                | (b', Ok true) => (b', Ok tt)
                | (b', Ok false) =>
                    (b', Throw (IOError
                      "BVH: error while reading referenced file"))
                | (b', Throw e) => (b', Throw e)
                | (b', Undefined) => (b', Undefined)
                end
            | None =>
                (b, Throw (IOError "BVH: could not open referenced file"))
            end
          else (b, Ok tt)
      end
  end.

(** Running a method of a freshly made object that is not yet reachable
    from the asset: when the method throws, the object is lost. *)
Definition on_instance {T} (m : Asset.t -> M T unit) (inst : T)
  : M Asset.t T := fun r =>
  match m r inst with
  | (inst', Ok _) => (r, Ok inst')
  | (_, Throw e) => (r, Throw e)
  | (_, Undefined) => (r, Undefined)
  end.

#[export] Instance Buffer_DictObject : DictObject Buffer.t := {|
  T_new := Buffer.Buffer;
  T_id := Buffer.id;
  T_set_id := Buffer.set_id;
  T_set_name := Buffer.set_name;
  T_TranslateId := fun _ id => Buffer.TranslateId id;
  T_Read := fun obj => on_instance (Buffer_Read obj);
  T_dict := Asset.buffers;
  T_set_dict := Asset.set_buffers;
  T_id_set_id := fun _ _ => eq_refl;
  T_dict_set_dict := fun _ _ => eq_refl;
  T_used_set_dict := fun _ _ => eq_refl
|}.

(** [BufferView::Read] *)
Definition BufferView_Read (obj : Value) (bv : BufferView.t)
  : M Asset.t BufferView.t :=
  (buf <- match MemberOrDefault_str obj "buffer" with
          | Some bufferId => LazyDict_Get (T := Buffer.t) (c_str bufferId)
          | None => ret (BufferView.buffer bv)
          end ;;
   ret {| BufferView.id := BufferView.id bv;
          BufferView.name := BufferView.name bv;
          BufferView.buffer := buf;
          BufferView.byteOffset := MemberOrDefault_uint UINT32_MAX obj "byteOffset" 0;
          BufferView.byteLength := MemberOrDefault_uint UINT32_MAX obj "byteLength" 0 |})%M.

#[export] Instance BufferView_DictObject : DictObject BufferView.t := {|
  T_new := BufferView.BufferView;
  T_id := BufferView.id;
  T_set_id := fun s bv =>
    {| BufferView.id := s; BufferView.name := BufferView.name bv;
       BufferView.buffer := BufferView.buffer bv;
       BufferView.byteOffset := BufferView.byteOffset bv;
       BufferView.byteLength := BufferView.byteLength bv |};
  T_set_name := fun s bv =>
    {| BufferView.id := BufferView.id bv; BufferView.name := s;
       BufferView.buffer := BufferView.buffer bv;
       BufferView.byteOffset := BufferView.byteOffset bv;
       BufferView.byteLength := BufferView.byteLength bv |};
  T_TranslateId := Object_TranslateId;
  T_Read := BufferView_Read;
  T_dict := Asset.bufferViews;
  T_set_dict := Asset.set_bufferViews;
  T_id_set_id := fun _ _ => eq_refl;
  T_dict_set_dict := fun _ _ => eq_refl;
  T_used_set_dict := fun _ _ => eq_refl
|}.

(** [Accessor::Read] *)
Definition Accessor_Read (obj : Value) (a : Accessor.t) : M Asset.t Accessor.t :=
  (bv <- match MemberOrDefault_str obj "bufferView" with
         | Some bufferViewId =>
             LazyDict_Get (T := BufferView.t) (c_str bufferViewId)
         | None => ret (Accessor.bufferView a)
         end ;;
   ret {| Accessor.id := Accessor.id a;
          Accessor.name := Accessor.name a;
          Accessor.bufferView := bv;
          Accessor.byteOffset := MemberOrDefault_uint UINT32_MAX obj "byteOffset" 0;
          Accessor.byteStride := MemberOrDefault_uint UINT32_MAX obj "byteStride" 0;
          Accessor.componentType :=
            match FindMember obj "componentType" with
            | Some v => default ComponentType_BYTE (ReadComponentType v)
            | None => ComponentType_BYTE
            end;
          Accessor.count := MemberOrDefault_uint UINT32_MAX obj "count" 0;
          Accessor.type :=
            match FindString obj "type" with
            | Some typestr => AttribType_FromString (c_str typestr)
            | None => AttribType.SCALAR
            end |})%M.

#[export] Instance Accessor_DictObject : DictObject Accessor.t := {|
  T_new := Accessor.Accessor;
  T_id := Accessor.id;
  T_set_id := fun s a =>
    {| Accessor.id := s; Accessor.name := Accessor.name a;
       Accessor.bufferView := Accessor.bufferView a;
       Accessor.byteOffset := Accessor.byteOffset a;
       Accessor.byteStride := Accessor.byteStride a;
       Accessor.componentType := Accessor.componentType a;
       Accessor.count := Accessor.count a; Accessor.type := Accessor.type a |};
  T_set_name := fun s a =>
    {| Accessor.id := Accessor.id a; Accessor.name := s;
       Accessor.bufferView := Accessor.bufferView a;
       Accessor.byteOffset := Accessor.byteOffset a;
       Accessor.byteStride := Accessor.byteStride a;
       Accessor.componentType := Accessor.componentType a;
       Accessor.count := Accessor.count a; Accessor.type := Accessor.type a |};
  T_TranslateId := Object_TranslateId;
  T_Read := Accessor_Read;
  T_dict := Asset.accessors;
  T_set_dict := Asset.set_accessors;
  T_id_set_id := fun _ _ => eq_refl;
  T_dict_set_dict := fun _ _ => eq_refl;
  T_used_set_dict := fun _ _ => eq_refl
|}.

#[export] Instance Material_DictObject : DictObject Material.t := {|
  T_new := Material.Material;
  T_id := Material.id;
  T_set_id := fun s m => {| Material.id := s; Material.name := Material.name m |};
  T_set_name := fun s m => {| Material.id := Material.id m; Material.name := s |};
  T_TranslateId := Object_TranslateId;
  T_Read := Material_Read;
  T_dict := Asset.materials;
  T_set_dict := Asset.set_materials;
  T_id_set_id := fun _ _ => eq_refl;
  T_dict_set_dict := fun _ _ => eq_refl;
  T_used_set_dict := fun _ _ => eq_refl
|}.

#[export] Instance Node_DictObject : DictObject Node.t := {|
  T_new := Node.Node;
  T_id := Node.id;
  T_set_id := fun s n =>
    {| Node.id := s; Node.name := Node.name n; Node.jointName := Node.jointName n |};
  T_set_name := fun s n =>
    {| Node.id := Node.id n; Node.name := s; Node.jointName := Node.jointName n |};
  T_TranslateId := Object_TranslateId;
  T_Read := Node_Read;
  T_dict := Asset.nodes;
  T_set_dict := Asset.set_nodes;
  T_id_set_id := fun _ _ => eq_refl;
  T_dict_set_dict := fun _ _ => eq_refl;
  T_used_set_dict := fun _ _ => eq_refl
|}.

(** *** Mesh primitives *)

(** [Compare(attr, str)]: the length of [str] when [attr] starts with it,
    0 otherwise. *)
Definition Compare (attr str : string) : nat :=
  if String.prefix str attr then String.length str else 0%nat.

(** [GetAttribVector]: the attribute vector the key selects and the
    position after the matched name; [None] for [return false]. *)
Definition GetAttribVector (attr : string) : option (Mesh.Semantic * nat) :=
  if bool_decide (Compare attr "POSITION" <> 0%nat)
  then Some (Mesh.POSITION, Compare attr "POSITION")
  else if bool_decide (Compare attr "NORMAL" <> 0%nat)
  then Some (Mesh.NORMAL, Compare attr "NORMAL")
  else if bool_decide (Compare attr "TEXCOORD" <> 0%nat)
  then Some (Mesh.TEXCOORD, Compare attr "TEXCOORD")
  else if bool_decide (Compare attr "COLOR" <> 0%nat)
  then Some (Mesh.COLOR, Compare attr "COLOR")
  else if bool_decide (Compare attr "JOINT" <> 0%nat)
  then Some (Mesh.JOINT, Compare attr "JOINT")
  else if bool_decide (Compare attr "JOINTMATRIX" <> 0%nat)
  then Some (Mesh.JOINTMATRIX, Compare attr "JOINTMATRIX")
  else if bool_decide (Compare attr "WEIGHT" <> 0%nat)
  then Some (Mesh.WEIGHT, Compare attr "WEIGHT")
  else None.

(** The C string [s + n]. *)
Fixpoint string_drop (n : nat) (s : string) : string :=
  match n, s with
  | O, _ => s
  | S n', String _ s' => string_drop n' s'
  | S _, EmptyString => EmptyString
  end.

Definition digit_of (c : ascii) : option Z :=
  let n := Z.of_N (N_of_ascii c) in
  if bool_decide (48 <= n <= 57) then Some (n - 48) else None.

Definition isspace (c : ascii) : bool :=
  let n := Z.of_N (N_of_ascii c) in
  bool_decide (n = 32 \/ 9 <= n <= 13).

Fixpoint digits_value (s : string) (acc : Z) : Z :=
  match s with
  | String c s' =>
      match digit_of c with
      | Some d => digits_value s' (10 * acc + d)
      | None => acc
      end
  | EmptyString => acc
  end.

Fixpoint skip_spaces (s : string) : string :=
  match s with
  | String c s' => if isspace c then skip_spaces s' else s
  | EmptyString => s
  end.

(** [atoi] of the C library: leading white space, an optional sign, then
    digits; [None] when the value is not representable in [int] (the
    behaviour is then undefined). *)
Definition atoi (s : string) : option Z :=
  let s := skip_spaces s in
  let v :=
    match s with
    | String "-" s' => - digits_value s' 0
    | String "+" s' => digits_value s' 0
    | _ => digits_value s 0
    end in
  if bool_decide (- INT_MAX - 1 <= v <= INT_MAX) then Some v else None.

(** One turn of the loop over the members of "attributes". *)
Definition read_attribute (prim : Mesh.Primitive) (it : string * Value)
  : M Asset.t Mesh.Primitive :=
  match it.2 with
  | JString s =>
      let attr := it.1 in
      match GetAttribVector attr with
      | Some (sem, undPos) =>
          match (if bool_decide (String.get undPos attr = Some "_"%char)
                 then atoi (string_drop (S undPos) attr)
                 else Some 0) with
          | None => undefined
          | Some n =>
              let idx := size_t n in
              let vec := Mesh.attrib sem (Mesh.attributes prim) in
              let vec :=
                if bool_decide (Z.of_nat (length vec) <= idx)
                then resize (Z.to_nat (size_t (idx + 1))) NullRef vec
                else vec in
              (ref <- LazyDict_Get (T := Accessor.t) (c_str s) ;;
               if bool_decide (idx < Z.of_nat (length vec))
               then ret (Mesh.set_attributes
                           (Mesh.set_attrib sem (<[Z.to_nat idx := ref]> vec)
                              (Mesh.attributes prim)) prim)
               else undefined)%M
          end
      | None => ret prim
      end
  | _ => (* continue *) ret prim
  end.

Fixpoint read_attributes (ms : list (string * Value)) (prim : Mesh.Primitive)
  : M Asset.t Mesh.Primitive :=
  match ms with
  | [] => ret prim
  | it :: ms' =>
      (prim' <- read_attribute prim it ;; read_attributes ms' prim')%M
  end.

(** The body of the loop over "primitives". *)
Definition read_primitive (primitive : Value) (prim : Mesh.Primitive)
  : M Asset.t Mesh.Primitive :=
  (let prim := Mesh.set_mode
                 (MemberOrDefault_uint UINT32_MAX primitive "mode"
                    PrimitiveMode_TRIANGLES) prim in
   prim <- match FindObject primitive "attributes" with
           | Some attrs => read_attributes (Members attrs) prim
           | None => ret prim
           end ;;
   prim <- match FindString primitive "indices" with
           | Some indices =>
               ref <- LazyDict_Get (T := Accessor.t) (c_str indices) ;;
               ret (Mesh.set_indices ref prim)
           | None => ret prim
           end ;;
   match FindString primitive "material" with
   | Some material =>
       ref <- LazyDict_Get (T := Material.t) (c_str material) ;;
       ret (Mesh.set_material ref prim)
   | None => ret prim
   end)%M.

Fixpoint read_primitives (curPrimitives : list Value)
  (prims : list Mesh.Primitive) : M Asset.t (list Mesh.Primitive) :=
  match curPrimitives, prims with
  | primitive :: vs, prim :: ps =>
      (prim' <- read_primitive primitive prim ;;
       ps' <- read_primitives vs ps ;;
       ret (prim' :: ps'))%M
  | _, _ => ret prims
  end.

(** [Mesh::Read] *)
Definition Mesh_Read (pJSON_Object : Value) (m : Mesh.t) : M Asset.t Mesh.t :=
  match FindArray pJSON_Object "primitives" with
  | Some curPrimitives =>
      (ps <- read_primitives curPrimitives
               (resize (length curPrimitives) Mesh.Primitive_ (Mesh.primitives m)) ;;
       ret (Mesh.set_primitives ps m))%M
  | None => ret m
  end.

#[export] Instance Mesh_DictObject : DictObject Mesh.t := {|
  T_new := Mesh.Mesh;
  T_id := Mesh.id;
  T_set_id := fun s m =>
    {| Mesh.id := s; Mesh.name := Mesh.name m; Mesh.primitives := Mesh.primitives m |};
  T_set_name := fun s m =>
    {| Mesh.id := Mesh.id m; Mesh.name := s; Mesh.primitives := Mesh.primitives m |};
  T_TranslateId := Object_TranslateId;
  T_Read := Mesh_Read;
  T_dict := Asset.meshes;
  T_set_dict := Asset.set_meshes;
  T_id_set_id := fun _ _ => eq_refl;
  T_dict_set_dict := fun _ _ => eq_refl;
  T_used_set_dict := fun _ _ => eq_refl
|}.

End Reading.

(** ** Accessors over buffers *)

(** Where a pointer returned by [Accessor::GetPointer] points: into the raw
    storage of the buffer ([basePtr + off]) or into the decoded data of the
    buffer's current region ([&DecodedData[off]]). *)
Inductive pointer : Type :=
| RawPtr (off : Z)
| DecodedPtr (off : Z).

(** The buffer an accessor reaches through its view. *)
Definition Accessor_buffer (r : Asset.t) (a : Accessor.t) : option Buffer.t :=
  bv ← deref (Asset.bufferViews r) (Accessor.bufferView a);
  deref (Asset.buffers r) (BufferView.buffer bv).

(** [Accessor::GetPointer]; [None] is the null pointer. *)
Definition Accessor_GetPointer (r : Asset.t) (a : Accessor.t) : option pointer :=
  match deref (Asset.bufferViews r) (Accessor.bufferView a) with
  | None => None
  | Some bv =>
      match deref (Asset.buffers r) (BufferView.buffer bv) with
      | None => None
      | Some b =>
          match Buffer.GetPointer b with
          | None => None
          | Some _ =>
              let offset :=
                size_t (Accessor.byteOffset a + BufferView.byteOffset bv) in
              (* Check if region is encoded. *)
              match Buffer.current_region b with
              | Some cur =>
                  let begin := Buffer.Offset cur in
                  let end_ := size_t (begin + Buffer.DecodedData_Length cur) in
                  if bool_decide (offset >= begin /\ offset < end_)
                  then Some (DecodedPtr (offset - begin))
                  else Some (RawPtr offset)
              | None => Some (RawPtr offset)
              end
          end
      end
  end.

(** The allocation a pointer points into, with the position in it. *)
Definition pointee (b : Buffer.t) (p : pointer) : option (list cell * Z) :=
  match p with
  | RawPtr off => d ← Buffer.mData b; Some (d, off)
  | DecodedPtr off => cur ← Buffer.current_region b; Some (Buffer.DecodedData cur, off)
  end.

(** The element-wise loop of [Accessor::ExtractData]. *)
Fixpoint extract_elements (n : nat) (i : Z) (out : list cell)
  (src : list cell) (off stride elemSize sizeof_T : Z) : option (list cell) :=
  match n with
  | O => Some out
  | S n' =>
      out' ← memcpy out (i * sizeof_T) src (off + i * stride) elemSize;
      extract_elements n' (i + 1) out' src off stride elemSize sizeof_T
  end.

(** [Accessor::ExtractData<T>] with [sizeof(T) = sizeof_T]: [Ok None] for
    [return false], [Ok (Some out)] for [return true] with [outData]
    pointing to [out].  The two [ai_assert]s compile to nothing. *)
Definition Accessor_ExtractData (sizeof_T : Z) (r : Asset.t) (a : Accessor.t)
  : outcome (option (list cell)) :=
  match Accessor_GetPointer r a with
  | None => Ok None
  | Some p =>
      match b ← Accessor_buffer r a; pointee b p with
      | None => Undefined
      | Some (src, off) =>
          let elemSize := Accessor.GetElementSize a in
          let totalSize := size_t (elemSize * Accessor.count a) in
          let stride :=
            if bool_decide (Accessor.byteStride a = 0) then elemSize
            else Accessor.byteStride a in
          let targetElemSize := sizeof_T in
          let outData := new_array (targetElemSize * Accessor.count a) in
          match (if bool_decide (stride = elemSize /\ targetElemSize = elemSize)
                 then memcpy outData 0 src off totalSize
                 else extract_elements (Z.to_nat (Accessor.count a)) 0 outData
                        src off stride elemSize targetElemSize) with
          | Some out => Ok (Some out)
          | None => Undefined
          end
      end
  end.

(** ** Skin export *)

Section SkinExport.
Context `{ext : Externals}.

(** The host scene types ([aiMesh], [aiBone], [aiVertexWeight], of the
    public headers) as far as [ExportSkin] reads them; [mName] is the name
    as [C_Str()] gives it, the only way [ExportSkin] reads it. *)

Record aiVertexWeight : Type := {
  mVertexId : Z;
  mWeight : float
}.

Record aiBone : Type := {
  mName : string;
  mWeights : list aiVertexWeight;
  mOffsetMatrix : aiMatrix4x4
}.

Record aiMesh : Type := {
  mNumVertices : Z;
  mBones : list aiBone
}.

(** [vec4], a [float[4]]. *)
Definition vec4 : Type := list float.

(** The three scratch arrays of [ExportSkin]. *)
Record SkinData : Type := {
  vertexJointData : list vec4;
  vertexWeightData : list vec4;
  jointsPerVertex : list Z
}.

(** The arrays after the initialising loop. *)
Definition SkinData_init (NumVerts : Z) : SkinData :=
  {| vertexJointData := replicate (Z.to_nat NumVerts) (replicate 4 float_zero);
     vertexWeightData := replicate (Z.to_nat NumVerts) (replicate 4 float_zero);
     jointsPerVertex := replicate (Z.to_nat NumVerts) 0 |}.

(** The body of the loop over [aib->mWeights]; [None] when [vertexId] is
    outside the arrays. *)
Definition add_weight (jointNamesIndex : Z) (d : SkinData) (w : aiVertexWeight)
  : option SkinData :=
  let vertexId := Z.to_nat (mVertexId w) in
  let vertWeight := mWeight w in
  match jointsPerVertex d !! vertexId with
  | None => None
  | Some n =>
      (* A vertex can only have at most four joint weights. Ignore all others. *)
      if bool_decide (n > 3) then Some d
      else
        Some {| vertexJointData :=
                  alter (fun v => <[Z.to_nat n := float_of_uint jointNamesIndex]> v)
                        vertexId (vertexJointData d);
                vertexWeightData :=
                  alter (fun v => <[Z.to_nat n := vertWeight]> v)
                        vertexId (vertexWeightData d);
                jointsPerVertex := <[vertexId := n + 1]> (jointsPerVertex d) |}
  end.

Fixpoint add_weights (jointNamesIndex : Z) (ws : list aiVertexWeight)
  (d : SkinData) : option SkinData :=
  match ws with
  | [] => Some d
  | w :: ws' =>
      d' ← add_weight jointNamesIndex d w; add_weights jointNamesIndex ws' d'
  end.

(** The search of [skinRef->jointNames] for the joint name, from position
    [idx_joint] on; [acc] holds [addJointToJointNames] and
    [jointNamesIndex].  [None] for a dangling reference. *)
Fixpoint find_joint (ns : LazyDict.t Node.t) (jointName : string)
  (joints : list (Ref Node.t)) (idx_joint : Z) (acc : bool * Z)
  : option (bool * Z) :=
  match joints with
  | [] => Some acc
  | j :: js =>
      n ← deref ns j;
      find_joint ns jointName js (idx_joint + 1)
        (if bool_decide (Node.jointName n = jointName)
         then (false, idx_joint) else acc)
  end.

(** The first half of the loop body over the bones: the joint of the bone
    is looked up, named, and searched in (or added to) the joints of the
    skin.  Returns [jointNamesIndex]. *)
Definition resolve_joint (skinRef : Ref Skin.t) (aib : aiBone)
  (inverseBindMatricesData : list aiMatrix4x4)
  : M Asset.t (Z * list aiMatrix4x4) :=
  (nodeRef <- LazyDict_Get (T := Node.t) (mName aib) ;;
   r <- get ;;
   match nodeRef, deref (Asset.nodes r) nodeRef,
         skinRef, deref (Asset.skins r) skinRef with
   | MkRef ni, Some node, MkRef si, Some skin =>
       let node := Node.set_jointName (Node.id node) node in
       let r := Asset.set_nodes (LazyDict.store ni node (Asset.nodes r)) r in
       match find_joint (Asset.nodes r) (Node.jointName node)
               (Skin.jointNames skin) 0 (true, 0) with
       | None => put r ;;; undefined
       | Some (true, _) =>
           let skin := Skin.set_jointNames (Skin.jointNames skin ++ [nodeRef]) skin in
           let inv := inverseBindMatricesData ++ [mOffsetMatrix aib] in
           put (Asset.set_skins (LazyDict.store si skin (Asset.skins r)) r) ;;;
           ret (unsigned (Z.of_nat (length inv) - 1), inv)
       | Some (false, jointNamesIndex) =>
           put r ;;; ret (jointNamesIndex, inverseBindMatricesData)
       end
   | _, _, _, _ => undefined
   end)%M.

(** The loop over the bones of the mesh. *)
Fixpoint export_bones (skinRef : Ref Skin.t) (bones : list aiBone)
  (d : SkinData) (inverseBindMatricesData : list aiMatrix4x4)
  : M Asset.t (SkinData * list aiMatrix4x4) :=
  match bones with
  | [] => ret (d, inverseBindMatricesData)
  | aib :: bones' =>
      (ji <- resolve_joint skinRef aib inverseBindMatricesData ;;
       match add_weights ji.1 (mWeights aib) d with
       | None => undefined
       | Some d' => export_bones skinRef bones' d' ji.2
       end)%M
  end.

(** [ExportSkin], up to the two calls of [ExportData] (which is outside
    these sources): the arrays handed to them as the joint and the weight
    data, or [None] after the early return for a mesh without bones. *)
Definition ExportSkin (aimesh : aiMesh) (skinRef : Ref Skin.t)
  (inverseBindMatricesData : list aiMatrix4x4)
  : M Asset.t (option SkinData * list aiMatrix4x4) :=
  if bool_decide (Z.of_nat (length (mBones aimesh)) < 1)
  then ret (None, inverseBindMatricesData)
  else
    (res <- export_bones skinRef (mBones aimesh)
              (SkinData_init (mNumVertices aimesh)) inverseBindMatricesData ;;
     ret (Some res.1, res.2))%M.

(** *** What the export is expected to hold *)

(** The joint index the loop gives to each bone, in the order of the bones:
    the first half of each turn alone. *)
Fixpoint resolve_joints (skinRef : Ref Skin.t) (bones : list aiBone)
  (inverseBindMatricesData : list aiMatrix4x4)
  : M Asset.t (list Z * list aiMatrix4x4) :=
  match bones with
  | [] => ret ([], inverseBindMatricesData)
  | aib :: bones' =>
      (ji <- resolve_joint skinRef aib inverseBindMatricesData ;;
       rest <- resolve_joints skinRef bones' ji.2 ;;
       ret (ji.1 :: rest.1, rest.2))%M
  end.

(** The (joint, weight) pairs one bone contributes to the vertex [v], in
    the order of its weights. *)
Definition bone_influences (v : nat) (ji : Z) (ws : list aiVertexWeight)
  : list (float * float) :=
  (fun w => (float_of_uint ji, mWeight w))
    <$> filter (fun w => Z.to_nat (mVertexId w) = v) ws.

(** All pairs contributed to [v], bone after bone. *)
Fixpoint influences (v : nat) (jis : list Z) (bones : list aiBone)
  : list (float * float) :=
  match jis, bones with
  | ji :: jis', aib :: bones' =>
      bone_influences v ji (mWeights aib) ++ influences v jis' bones'
  | _, _ => []
  end.

(** A [vec4] holding the first four of the values, zero in the free slots. *)
Definition first_four (l : list float) : vec4 :=
  take 4 l ++ replicate (4 - length l) float_zero.

(** The arrays over [n] vertices hold, for every vertex, the first four of
    the pairs [cs] lists for it, and count them up to four. *)
Definition holds_first_four (cs : nat -> list (float * float)) (n : nat)
  (d : SkinData) : Prop :=
  forall v : nat, (v < n)%nat ->
    vertexJointData d !! v = Some (first_four (cs v).*1)
    /\ vertexWeightData d !! v = Some (first_four (cs v).*2)
    /\ jointsPerVertex d !! v = Some (Z.min 4 (Z.of_nat (length (cs v)))).

End SkinExport.

(** ** Writing through accessors, and indexed reads *)

(** [memset(dst + doff, 0, n)]; [None] when the range leaves the
    allocation. *)
Definition memset_zero (dst : list cell) (doff n : Z) : option (list cell) :=
  if bool_decide (0 <= doff /\ 0 <= n /\ doff + n <= Z.of_nat (length dst))
  then Some (take (Z.to_nat doff) dst
             ++ replicate (Z.to_nat n) (Some x00)
             ++ drop (Z.to_nat (doff + n)) dst)
  else None.

(** The loop of [CopyData] for differing strides, with [n] turns left and
    the two pointers at [src + soff] and [dst + doff]. *)
Fixpoint CopyData_loop (n : nat) (src : list cell) (soff src_stride : Z)
  (dst : list cell) (doff dst_stride sz : Z) : option (list cell) :=
  match n with
  | O => Some dst
  | S n' =>
      d1 ← memcpy dst doff src soff sz;
      d2 ← (if bool_decide (sz < dst_stride)
            then memset_zero d1 (doff + sz) (dst_stride - sz)
            else Some d1);
      CopyData_loop n' src (soff + src_stride) src_stride
        d2 (doff + dst_stride) dst_stride sz
  end.

(** [CopyData(count, src + soff, src_stride, dst + doff, dst_stride)]: the
    destination allocation after the call, [None] when a copy leaves one of
    the two allocations. *)
Definition CopyData (count : Z) (src : list cell) (soff src_stride : Z)
  (dst : list cell) (doff dst_stride : Z) : option (list cell) :=
  if bool_decide (src_stride = dst_stride)
  then memcpy dst doff src soff (size_t (count * src_stride))
  else CopyData_loop (Z.to_nat count) src soff src_stride dst doff dst_stride
         (Z.min src_stride dst_stride).

(** [Accessor::WriteData], on the asset that owns the buffer.  The view and
    the buffer are dereferenced without a test, and the destination is
    always in the raw storage.  The [ai_assert] compiles to nothing. *)
Definition Accessor_WriteData (cnt : Z) (src_buffer : list cell)
  (src_stride : Z) (a : Accessor.t) : M Asset.t unit := fun r =>
  match deref (Asset.bufferViews r) (Accessor.bufferView a) with
  | None => (r, Undefined)
  | Some bv =>
      match BufferView.buffer bv, deref (Asset.buffers r) (BufferView.buffer bv) with
      | MkRef bi, Some b =>
          match Buffer.GetPointer b with
          | None => (r, Undefined)
          | Some buffer_ptr =>
              let offset :=
                size_t (Accessor.byteOffset a + BufferView.byteOffset bv) in
              let dst_stride :=
                unsigned (Accessor.GetNumComponents a
                          * Accessor.GetBytesPerComponent a) in
              match CopyData cnt src_buffer 0 src_stride
                      buffer_ptr offset dst_stride with
              | None => (r, Undefined)
              | Some d' =>
                  (Asset.set_buffers
                     (LazyDict.store bi (Buffer.set_mData (Some d') b)
                        (Asset.buffers r)) r,
                   Ok tt)
              end
          end
      | _, _ => (r, Undefined)
      end
  end.

(** [Accessor::Indexer] *)
Record Indexer : Type := {
  Indexer_accessor : Accessor.t;
  Indexer_data : option pointer;
  Indexer_elemSize : Z;
  Indexer_stride : Z
}.

(** [Accessor::GetIndexer], that is [Indexer::Indexer(acc)]. *)
Definition Accessor_GetIndexer (r : Asset.t) (acc : Accessor.t) : Indexer :=
  {| Indexer_accessor := acc;
     Indexer_data := Accessor_GetPointer r acc;
     Indexer_elemSize := Accessor.GetElementSize acc;
     Indexer_stride :=
       if bool_decide (Accessor.byteStride acc = 0)
       then Accessor.GetElementSize acc
       else Accessor.byteStride acc |}.

(** [Indexer::IsValid] *)
Definition Indexer_IsValid (ix : Indexer) : bool :=
  bool_decide (Indexer_data ix <> None).

(** [Indexer::GetValue<T>(i)] for an arithmetic [T] of [sizeof_T] bytes:
    the object representation of the value returned, [None] when the
    indexer has no data or the copy leaves the source or the value.  The
    two [ai_assert]s compile to nothing; [i] is converted to [size_t] for
    the product. *)
Definition Indexer_GetValue (sizeof_T : Z) (r : Asset.t) (ix : Indexer) (i : Z)
  : option (list cell) :=
  p ← Indexer_data ix;
  b ← Accessor_buffer r (Indexer_accessor ix);
  '(src, off) ← pointee b p;
  memcpy (replicate (Z.to_nat sizeof_T) (Some x00)) 0
         src (off + size_t (size_t i * Indexer_stride ix)) (Indexer_elemSize ix).

(** ** Writing the manifest *)

(** [int(x)] of an unsigned or enumeration value: the value when [int]
    holds it, wrapped to 32 bits otherwise. *)
Definition int_of (x : Z) : Z := (x + 2 ^ 31) mod 2 ^ 32 - 2 ^ 31.

(** [Value::AddMember]: the member goes to the end of the object, whatever
    members the object has. *)
Definition AddMember (obj : list (string * Value)) (name : string) (v : Value)
  : list (string * Value) :=
  obj ++ [(name, v)].

(** The loop of [WriteAttrs] over [lst] from position [i] on; [None] for a
    reference that cannot be dereferenced. *)
Fixpoint WriteAttrs_loop (r : Asset.t) (attrs : list (string * Value))
  (lst : Mesh.AccessorList) (semantic : string) (i : Z)
  : option (list (string * Value)) :=
  match lst with
  | [] => Some attrs
  | ref :: lst' =>
      acc ← deref (Asset.accessors r) ref;
      let buffer :=
        (ai_snprintf 32 (c_str semantic +:+ "_" +:+ pretty (int_of i))).1 in
      WriteAttrs_loop r (AddMember attrs buffer (JString (Accessor.id acc)))
        lst' semantic (i + 1)
  end.

(** [WriteAttrs] *)
Definition WriteAttrs (r : Asset.t) (attrs : list (string * Value))
  (lst : Mesh.AccessorList) (semantic : string) (forceNumber : bool)
  : option (list (string * Value)) :=
  match lst with
  | [] => Some attrs
  | ref :: lst' =>
      if bool_decide (length lst = 1%nat) && negb forceNumber
      then acc ← deref (Asset.accessors r) ref;
           Some (AddMember attrs (c_str semantic) (JString (Accessor.id acc)))
      else WriteAttrs_loop r attrs lst semantic 0
  end.

(** The seven calls of [WriteAttrs] in [Write(Value&, Mesh&, AssetWriter&)],
    which fill the "attributes" object of a primitive. *)
Definition Write_attributes (r : Asset.t) (a : Mesh.Attributes)
  : option (list (string * Value)) :=
  attrs ← WriteAttrs r [] (Mesh.position a) "POSITION" false;
  attrs ← WriteAttrs r attrs (Mesh.normal a) "NORMAL" false;
  attrs ← WriteAttrs r attrs (Mesh.texcoord a) "TEXCOORD" true;
  attrs ← WriteAttrs r attrs (Mesh.color a) "COLOR" false;
  attrs ← WriteAttrs r attrs (Mesh.joint a) "JOINT" false;
  attrs ← WriteAttrs r attrs (Mesh.jointmatrix a) "JOINTMATRIX" false;
  WriteAttrs r attrs (Mesh.weight a) "WEIGHT" false.

(** The body of the loop over the primitives in
    [Write(Value&, Mesh&, AssetWriter&)]: the object of one primitive. *)
Definition Write_primitive (r : Asset.t) (p : Mesh.Primitive) : option Value :=
  let prim := AddMember [] "mode" (JNumber (int_of (Mesh.mode p))) in
  prim ← match Mesh.material p with
         | NullRef => Some prim
         | MkRef _ =>
             m ← deref (Asset.materials r) (Mesh.material p);
             Some (AddMember prim "material" (JString (Material.id m)))
         end;
  prim ← match Mesh.indices p with
         | NullRef => Some prim
         | MkRef _ =>
             acc ← deref (Asset.accessors r) (Mesh.indices p);
             Some (AddMember prim "indices" (JString (Accessor.id acc)))
         end;
  attrs ← Write_attributes r (Mesh.attributes p);
  Some (JObject (AddMember prim "attributes" (JObject attrs))).

(** [Write(Value& obj, Mesh& m, AssetWriter& w)]: the members of [obj]
    after the call. *)
Definition Write_Mesh (r : Asset.t) (obj : list (string * Value)) (m : Mesh.t)
  : option (list (string * Value)) :=
  let obj := AddMember obj "name" (JString (Mesh.name m)) in
  primitives ← mapM (Write_primitive r) (Mesh.primitives m);
  Some (AddMember obj "primitives" (JArray primitives)).

(** ** What makes a mesh writable *)

(** The name [Write] passes to [WriteAttrs] with each attribute vector. *)
Definition Semantic_name (sem : Mesh.Semantic) : string :=
  match sem with
  | Mesh.POSITION => "POSITION"
  | Mesh.NORMAL => "NORMAL"
  | Mesh.TEXCOORD => "TEXCOORD"
  | Mesh.COLOR => "COLOR"
  | Mesh.JOINT => "JOINT"
  | Mesh.JOINTMATRIX => "JOINTMATRIX"
  | Mesh.WEIGHT => "WEIGHT"
  end.

Section Writable.
Context `{ext : Externals}.

(** The reference is the one [Get] gives, in the asset as it is, for the
    identifier of the object it designates; the reader hands the
    identifier to [Get] as a C string. *)
Definition Accessor_resolves (r : Asset.t) (ref : Ref Accessor.t) : Prop :=
  exists acc : Accessor.t,
    deref (Asset.accessors r) ref = Some acc
    /\ LazyDict_Get (T := Accessor.t) (c_str (Accessor.id acc)) r = (r, Ok ref).

Definition Material_resolves (r : Asset.t) (ref : Ref Material.t) : Prop :=
  exists m : Material.t,
    deref (Asset.materials r) ref = Some m
    /\ LazyDict_Get (T := Material.t) (c_str (Material.id m)) r = (r, Ok ref).

(** A primitive that [Write] can write for [Mesh::Read] to read back: a
    mode that [int] holds, no joint matrices, vectors of at most [INT_MAX]
    references, and every reference that is set resolving. *)
Definition Primitive_writable (r : Asset.t) (p : Mesh.Primitive) : Prop :=
  0 <= Mesh.mode p <= INT_MAX
  /\ Mesh.jointmatrix (Mesh.attributes p) = []
  /\ (forall sem : Mesh.Semantic,
        Forall (Accessor_resolves r) (Mesh.attrib sem (Mesh.attributes p))
        /\ Z.of_nat (length (Mesh.attrib sem (Mesh.attributes p))) <= INT_MAX)
  /\ (Mesh.indices p = NullRef \/ Accessor_resolves r (Mesh.indices p))
  /\ (Mesh.material p = NullRef \/ Material_resolves r (Mesh.material p)).
End Writable.

(** ** Sample inputs *)

(** A buffer holding the given bytes, as [Buffer::Read] leaves it after a
    raw data-URI. *)
Definition buffer_of_bytes (l : list byte) : Buffer.t :=
  Buffer.set_mData (Some (bytes l))
    (Buffer.set_byteLength (Z.of_nat (length l)) Buffer.Buffer).

(** Collaborators for the sample documents: data-URIs of the two forms
    "data:application/octet-stream;base64,<payload>" and "data:,<payload>",
    and the base64 decoding of the one payload used, "AQID", which stands
    for the bytes 01 02 03.  Floats are written as the decimal fractions
    they stand for, and matrices carry nothing. *)
Definition sample_ParseDataURI (uri : string) : option DataURI :=
  if String.prefix "data:application/octet-stream;base64," uri
  then Some {| base64 := true; data := string_drop 37 uri |}
  else if String.prefix "data:," uri
  then Some {| base64 := false; data := string_drop 6 uri |}
  else None.

Definition sample_Base64_Decode (payload : string) : list byte :=
  if bool_decide (payload = "AQID") then [x01; x02; x03] else [].

Definition sample_ext : Externals :=
  {| ParseDataURI := sample_ParseDataURI;
     Base64_Decode := sample_Base64_Decode;
     ReadComponentType := fun _ => None;
     AttribType_FromString := fun _ => AttribType.SCALAR;
     PrimitiveMode_TRIANGLES := 4;
     Object_TranslateId := fun _ id => id;
     Material_Read := fun _ m => ret m;
     Node_Read := fun _ n => ret n;
     float := Q;
     float_zero := 0%Q;
     float_of_uint := inject_Z;
     aiMatrix4x4 := unit |}.

(** An asset without files whose "buffers" section is the given object. *)
Definition asset_with_buffers (section : Value) : Asset.t :=
  Asset.set_buffers
    (LazyDict.set_mDict (Some section) (Asset.buffers (Asset.Asset (fun _ => None))))
    (Asset.Asset (fun _ => None)).

(** A buffer of the manifest with a base64 payload of three bytes and the
    given stated length. *)
Definition base64_buffer (stated : Z) : Value :=
  JObject [("byteLength", JNumber stated);
           ("uri", JString "data:application/octet-stream;base64,AQID")].

(** A buffer of the manifest with a raw payload of four bytes. *)
Definition raw_buffer (stated : Z) : Value :=
  JObject [("byteLength", JNumber stated); ("uri", JString "data:,abcd")].

(** An asset whose accessors hold one created object with the given id. *)
Definition asset_with_accessor (id : string) : Asset.t :=
  let a0 := Asset.Asset (fun _ => None) in
  let acc :=
    {| Accessor.id := id; Accessor.name := "";
       Accessor.bufferView := NullRef; Accessor.byteOffset := 0;
       Accessor.byteStride := 0; Accessor.componentType := ComponentType_BYTE;
       Accessor.count := 0; Accessor.type := AttribType.SCALAR |} in
  Asset.set_mUsedIds {[ id := 1 ]}
    (Asset.set_accessors (LazyDict.push id acc (Asset.accessors a0)) a0).

(** A mesh of the manifest with one primitive and one attribute. *)
Definition mesh_with_attribute (key : string) (value : Value) : Value :=
  JObject [("primitives",
            JArray [JObject [("attributes", JObject [(key, value)])]])].

Fixpoint string_repeat (c : ascii) (n : nat) : string :=
  match n with
  | O => EmptyString
  | S n' => String c (string_repeat c n')
  end.

(** A mesh name of 1018 characters, and an asset in which the name and the
    name followed by "_mesh" are both in use (as after the export of two
    meshes of that name). *)
Definition long_name : string := string_repeat "a" 1018.

Definition asset_with_long_ids : Asset.t :=
  Asset.set_mUsedIds
    (<[long_name +:+ "_mesh" := 1]> (<[long_name := 1]> ∅))
    (Asset.Asset (fun _ => None)).

(** An asset with one buffer, one view over all of it, and one accessor of
    unsigned bytes, [count] of them from [byteOffset] on. *)
Definition byte_accessor (byteOffset count : Z) : Accessor.t :=
  {| Accessor.id := "accessor"; Accessor.name := "";
     Accessor.bufferView := MkRef 0; Accessor.byteOffset := byteOffset;
     Accessor.byteStride := 0;
     Accessor.componentType := ComponentType_UNSIGNED_BYTE;
     Accessor.count := count; Accessor.type := AttribType.SCALAR |}.

Definition asset_over_buffer (b : Buffer.t) (a : Accessor.t) : Asset.t :=
  let a0 := Asset.Asset (fun _ => None) in
  let bv := {| BufferView.id := "view"; BufferView.name := "";
               BufferView.buffer := MkRef 0; BufferView.byteOffset := 0;
               BufferView.byteLength := Buffer.byteLength b |} in
  Asset.set_accessors (LazyDict.push "accessor" a (Asset.accessors a0))
    (Asset.set_bufferViews (LazyDict.push "view" bv (Asset.bufferViews a0))
       (Asset.set_buffers (LazyDict.push "buffer" b (Asset.buffers a0)) a0)).

(** A raw store of 100 zero bytes, and 8 decoded bytes. *)
Definition hundred_bytes : Buffer.t := buffer_of_bytes (replicate 100 x00).
Definition eight_decoded : list cell :=
  bytes [x11; x12; x13; x14; x15; x16; x17; x18].

(** An asset with five nodes "j0" to "j4" and one skin without joints. *)
Definition node_named (id : string) : Node.t :=
  {| Node.id := id; Node.name := ""; Node.jointName := "" |}.

Definition skin_asset : Asset.t :=
  let a0 := Asset.Asset (fun _ => None) in
  let ns := foldl (fun d id => LazyDict.push id (node_named id) d)
                  (Asset.nodes a0) ["j0"; "j1"; "j2"; "j3"; "j4"] in
  Asset.set_skins (LazyDict.push "skin" Skin.Skin (Asset.skins a0))
    (Asset.set_nodes ns a0).

(** A mesh of one vertex to which five bones contribute, in this order,
    the weights 0.1, 0.2, 0.3, 0.2 and 0.2. *)
Definition one_weight_bone (name : string) (w : Q) : aiBone (ext := sample_ext) :=
  {| mName := name;
     mWeights := [{| mVertexId := 0; mWeight := w : float (Externals := sample_ext) |}];
     mOffsetMatrix := tt : aiMatrix4x4 (Externals := sample_ext) |}.

Definition five_bone_mesh : aiMesh (ext := sample_ext) :=
  {| mNumVertices := 1;
     mBones := [one_weight_bone "j0" (1 # 10); one_weight_bone "j1" (2 # 10);
                one_weight_bone "j2" (3 # 10); one_weight_bone "j3" (2 # 10);
                one_weight_bone "j4" (2 # 10)] |}.


(** The store of 100 bytes after marking the 5 bytes at offset 10 as the
    encoding of the 8 decoded bytes, and after selecting that region. *)
Definition marked_sample : Buffer.t :=
  (Buffer.EncodedRegion_Mark 10 5 (Some eight_decoded) 8 "mesh0" hundred_bytes).1.
Definition current_sample : Buffer.t :=
  (Buffer.EncodedRegion_SetCurrent "mesh0" marked_sample).1.

(** The empty asset, and the asset after [Create("x")] on its buffers. *)
Definition empty_asset : Asset.t := Asset.Asset (fun _ => None).
Definition asset_with_x : Asset.t :=
  (LazyDict_Create (D := Buffer_DictObject (ext := sample_ext)) "x" empty_asset).1.

(** A document with one accessor "a" over the view "v" of the buffer "b",
    whose four bytes stand in a raw data-URI, and the asset whose
    dictionaries are attached to it. *)
Definition chain_document : Value :=
  JObject
    [("accessors",
      JObject [("a", JObject [("bufferView", JString "v");
                              ("count", JNumber 4)])]);
     ("bufferViews",
      JObject [("v", JObject [("buffer", JString "b");
                              ("byteLength", JNumber 4)])]);
     ("buffers", JObject [("b", raw_buffer 4)])].

Definition attached_asset : Asset.t :=
  let a0 := Asset.Asset (fun _ => None) in
  Asset.set_accessors
    (LazyDict.AttachToDocument chain_document (Asset.accessors a0))
    (Asset.set_bufferViews
       (LazyDict.AttachToDocument chain_document (Asset.bufferViews a0))
       (Asset.set_buffers
          (LazyDict.AttachToDocument chain_document (Asset.buffers a0)) a0)).

(** An asset in the directory "models" that holds the file "data.bin" of
    three bytes, and a buffer of the manifest that names the file. *)
Definition asset_with_file : Asset.t :=
  Asset.set_mCurrentAssetDir "models"
    (Asset.Asset (fun path => if bool_decide (path = "models/data.bin")
                              then Some [x01; x02; x03] else None)).

Definition file_buffer (stated : Z) : Value :=
  JObject [("byteLength", JNumber stated); ("uri", JString "data.bin")].

(** A mesh of one triangle primitive with a position, two texture
    coordinate sets and indices, all through the accessor "a". *)
Definition written_primitive : Mesh.Primitive :=
  {| Mesh.mode := 4;
     Mesh.attributes :=
       Mesh.set_attrib Mesh.TEXCOORD [MkRef 0; MkRef 0]
         (Mesh.set_attrib Mesh.POSITION [MkRef 0] Mesh.no_attributes);
     Mesh.indices := MkRef 0;
     Mesh.material := NullRef |}.

Definition written_mesh : Mesh.t :=
  {| Mesh.id := "mesh"; Mesh.name := "mesh";
     Mesh.primitives := [written_primitive] |}.

(** What [ExportSkin] returns for the mesh of five bones. *)
Definition exported_skin : option (SkinData (ext := sample_ext)) * list unit :=
  Eval vm_compute in
    match (ExportSkin (ext := sample_ext) five_bone_mesh (MkRef 0) []
             skin_asset).2 with
    | Ok res => res
    | _ => (None, [])
    end.

(** The store 01 02 03 04 under an accessor of two unsigned bytes from
    offset 1 on. *)
Definition four_bytes : Buffer.t := buffer_of_bytes [x01; x02; x03; x04].
Definition two_from_one : Asset.t :=
  asset_over_buffer four_bytes (byte_accessor 1 2).

(** A store that ten bytes were appended to, and the same store after
    [ReplaceData] put one byte for its first five. *)
Definition ten_appended : Buffer.t :=
  (Buffer.AppendData
     (Some (bytes [x00; x01; x02; x03; x04; x05; x06; x07; x08; x09])) 10
     Buffer.Buffer).1.

(** A document whose mesh "m" has two attributes: the accessor "a" lies
    over the view "v" of the buffer "b", which is in order; the accessor
    "a2" lies over the view "v2" of the buffer "b2", whose base64 payload of
    three bytes stands under a stated length of 5.  The asset attached to
    it, and what [Get] of the mesh makes of it. *)
Definition two_chain_document : Value :=
  JObject
    [("meshes",
      JObject [("m", JObject [("primitives",
         JArray [JObject [("attributes",
           JObject [("POSITION", JString "a"); ("NORMAL", JString "a2")])]])])]);
     ("accessors",
      JObject [("a", JObject [("bufferView", JString "v"); ("count", JNumber 4)]);
               ("a2", JObject [("bufferView", JString "v2");
                               ("count", JNumber 5)])]);
     ("bufferViews",
      JObject [("v", JObject [("buffer", JString "b"); ("byteLength", JNumber 4)]);
               ("v2", JObject [("buffer", JString "b2");
                               ("byteLength", JNumber 5)])]);
     ("buffers", JObject [("b", raw_buffer 4); ("b2", base64_buffer 5)])].

Definition two_chain_asset : Asset.t :=
  let a0 := Asset.Asset (fun _ => None) in
  Asset.set_meshes
    (LazyDict.AttachToDocument two_chain_document (Asset.meshes a0))
    (Asset.set_accessors
       (LazyDict.AttachToDocument two_chain_document (Asset.accessors a0))
       (Asset.set_bufferViews
          (LazyDict.AttachToDocument two_chain_document (Asset.bufferViews a0))
          (Asset.set_buffers
             (LazyDict.AttachToDocument two_chain_document (Asset.buffers a0))
             a0))).

Definition half_loaded : Asset.t * outcome (Ref Mesh.t) :=
  LazyDict_Get (D := Mesh_DictObject (ext := sample_ext)) "m" two_chain_asset.

(** * Properties *)

(** ** Raw memory *)

Lemma size_t_small (z : Z) : 0 <= z <= SIZE_MAX -> size_t z = z.
Proof. unfold size_t, SIZE_MAX. intros Hz. apply Z.mod_small. lia. Qed.

Lemma length_new_array (n : Z) : Z.of_nat (length (new_array n)) = Z.max 0 n.
Proof. unfold new_array. rewrite length_replicate. lia. Qed.

Lemma memcpy_Some (dst : list cell) (doff : Z) (src : list cell) (soff n : Z) :
  0 <= doff -> 0 <= soff -> 0 <= n ->
  soff + n <= Z.of_nat (length src) -> doff + n <= Z.of_nat (length dst) ->
  memcpy dst doff src soff n
  = Some (take (Z.to_nat doff) dst
          ++ take (Z.to_nat n) (drop (Z.to_nat soff) src)
          ++ drop (Z.to_nat (doff + n)) dst).
Proof.
  intros. unfold memcpy. rewrite bool_decide_eq_true_2; [done | lia].
Qed.

Lemma memcpy_inv (dst : list cell) (doff : Z) (src : list cell) (soff n : Z)
  (out : list cell) :
  memcpy dst doff src soff n = Some out ->
  (0 <= doff /\ 0 <= soff /\ 0 <= n
   /\ soff + n <= Z.of_nat (length src) /\ doff + n <= Z.of_nat (length dst))
  /\ out = take (Z.to_nat doff) dst
           ++ take (Z.to_nat n) (drop (Z.to_nat soff) src)
           ++ drop (Z.to_nat (doff + n)) dst.
Proof.
  unfold memcpy. case_bool_decide; [|done]. intros [= <-]. done.
Qed.

Lemma memcpy_length (dst : list cell) (doff : Z) (src : list cell) (soff n : Z)
  (out : list cell) :
  memcpy dst doff src soff n = Some out -> length out = length dst.
Proof.
  intros [Hr ->]%memcpy_inv.
  rewrite !length_app, !length_take, !length_drop. lia.
Qed.

(** What a copy leaves at each position of the destination. *)
Lemma memcpy_lookup (dst : list cell) (doff : Z) (src : list cell) (soff n : Z)
  (out : list cell) (k : Z) :
  memcpy dst doff src soff n = Some out -> 0 <= k ->
  out !! Z.to_nat k
  = if bool_decide (doff <= k < doff + n)
    then src !! Z.to_nat (soff + (k - doff))
    else dst !! Z.to_nat k.
Proof.
  intros [Hr ->]%memcpy_inv Hk. case_bool_decide as Hin.
  - rewrite lookup_app_r by (rewrite length_take; lia).
    rewrite length_take.
    rewrite lookup_app_l by (rewrite length_take, length_drop; lia).
    rewrite lookup_take_lt by lia. rewrite lookup_drop. f_equal. lia.
  - destruct (decide (k < doff)) as [Hlt | Hge].
    + rewrite lookup_app_l by (rewrite length_take; lia).
      rewrite lookup_take_lt by lia. done.
    + rewrite lookup_app_r by (rewrite length_take; lia).
      rewrite length_take.
      rewrite lookup_app_r by (rewrite length_take, length_drop; lia).
      rewrite length_take, length_drop, lookup_drop. f_equal. lia.
Qed.

(** ** Buffers *)

(** C3, as the code has it. For a buffer whose [byteLength] does not
    exceed the size of its storage, and an [n] with which the new length
    is still a [size_t]: after [Grow(n)] the length of the buffer has grown
    by exactly [n], and every byte that was readable at a position below
    the old length reads the same, whether the call only moved [byteLength]
    or reallocated to the larger of one and a half times the capacity and
    the new length. *)
Theorem Grow_extends_and_preserves (b : Buffer.t) (n : Z) :
  0 <= n ->
  0 <= Buffer.byteLength b <= Buffer.allocated b ->
  Buffer.byteLength b + n <= SIZE_MAX ->
  exists b' : Buffer.t,
    Buffer.Grow n b = (b', Ok tt)
    /\ Buffer.byteLength b' = Buffer.byteLength b + n
    /\ (forall k : Z, 0 <= k < Buffer.byteLength b ->
          Buffer.raw_at b' k = Buffer.raw_at b k)
    /\ Buffer.capacity b'
       = (if bool_decide (n = 0 \/ Buffer.capacity b >= Buffer.byteLength b + n)
          then Buffer.capacity b
          else Z.max (size_t (Buffer.capacity b + Z.shiftr (Buffer.capacity b) 1))
                     (Buffer.byteLength b + n)).
Proof.
  intros Hn Hlive Hfit. unfold Buffer.Grow.
  case_bool_decide as Hz.
  { assert (n = 0) as -> by lia. exists b.
    rewrite bool_decide_eq_true_2 by (by left). split_and!; try done; lia. }
  rewrite (size_t_small (Buffer.byteLength b + n)) by lia.
  case_bool_decide as Hcap.
  { eexists. rewrite bool_decide_eq_true_2 by (right; lia).
    split_and!; done. }
  cbn [Buffer.capacity Buffer.set_capacity Buffer.mData Buffer.byteLength].
  set (cap := Z.max _ _).
  assert (Buffer.byteLength b + n <= cap) as Hle by (subst cap; lia).
  unfold Buffer.allocated in Hlive.
  destruct (Buffer.mData b) as [d|] eqn:Hd.
  - destruct (memcpy (new_array cap) 0 d 0 (Buffer.byteLength b))
      as [d'|] eqn:Hcpy.
    2: { rewrite memcpy_Some in Hcpy; try lia; [done |].
         rewrite length_new_array; lia. }
    rewrite (size_t_small (Buffer.byteLength b + n)) by lia.
    eexists. split_and!; [done | done | | ].
    + intros k Hk. unfold Buffer.raw_at. cbn. rewrite Hd.
      rewrite bool_decide_eq_true_2 by lia.
      rewrite (memcpy_lookup _ _ _ _ _ _ k Hcpy) by lia.
      rewrite bool_decide_eq_true_2 by lia. f_equal. lia.
    + cbn. rewrite bool_decide_eq_false_2; [done | lia].
  - rewrite (size_t_small (Buffer.byteLength b + n)) by lia.
    eexists. split_and!; [done | done | | ].
    + intros k Hk. lia.
    + cbn. rewrite bool_decide_eq_false_2; [done | lia].
Qed.

(** What [Grow] does to a well-formed buffer asked for at least one byte. *)
Lemma Grow_ok (b : Buffer.t) (n : Z) :
  0 < n -> Buffer.wf b -> Buffer.byteLength b + n <= SIZE_MAX ->
  exists (b' : Buffer.t) (d' : list cell),
    Buffer.Grow n b = (b', Ok tt)
    /\ Buffer.mData b' = Some d'
    /\ Buffer.byteLength b' = Buffer.byteLength b + n
    /\ Buffer.byteLength b + n <= Z.of_nat (length d')
    /\ 0 <= Buffer.capacity b' <= Z.of_nat (length d')
    /\ Buffer.EncodedRegion_Current b' = Buffer.EncodedRegion_Current b
    /\ Buffer.EncodedRegion_List b' = Buffer.EncodedRegion_List b
    /\ (forall k : Z, 0 <= k < Buffer.byteLength b ->
          d' !! Z.to_nat k = Buffer.raw_at b k).
Proof.
  intros Hn [Hlive Hcap] Hfit. unfold Buffer.Grow.
  rewrite bool_decide_eq_false_2 by lia.
  rewrite (size_t_small (Buffer.byteLength b + n)) by lia.
  unfold Buffer.allocated, Buffer.raw_at in *.
  case_bool_decide as Hc.
  { destruct (Buffer.mData b) as [d|] eqn:Hd; [| lia].
    exists (Buffer.set_byteLength (Buffer.byteLength b + n) b), d.
    cbn. split_and!; try done; try lia.
    intros k Hk. by rewrite bool_decide_eq_true_2 by lia. }
  cbn [Buffer.capacity Buffer.set_capacity Buffer.mData Buffer.byteLength].
  set (cap := Z.max _ _).
  assert (Buffer.byteLength b + n <= cap) as Hle by (subst cap; lia).
  destruct (Buffer.mData b) as [d|] eqn:Hd.
  - destruct (memcpy (new_array cap) 0 d 0 (Buffer.byteLength b))
      as [d'|] eqn:Hcpy.
    2: { rewrite memcpy_Some in Hcpy; try lia; [done |].
         rewrite length_new_array; lia. }
    rewrite (size_t_small (Buffer.byteLength b + n)) by lia.
    eexists _, d'. pose proof (memcpy_length _ _ _ _ _ _ Hcpy) as Hlen.
    pose proof (length_new_array cap) as Hnew.
    split; [reflexivity |]. cbn. split_and!; try done; try lia.
    intros k Hk. rewrite bool_decide_eq_true_2 by lia.
    rewrite (memcpy_lookup _ _ _ _ _ _ k Hcpy) by lia.
    rewrite bool_decide_eq_true_2 by lia. f_equal. lia.
  - rewrite (size_t_small (Buffer.byteLength b + n)) by lia.
    eexists _, (new_array cap). pose proof (length_new_array cap) as Hnew.
    split; [reflexivity |]. cbn. split_and!; try done; lia.
Qed.

(** The constructor sets the invariant up; [Grow] and [AppendData] keep it. *)
Lemma Buffer_wf_new : Buffer.wf Buffer.Buffer.
Proof. unfold Buffer.wf. cbn. lia. Qed.

Lemma buffer_of_bytes_wf (l : list byte) : Buffer.wf (buffer_of_bytes l).
Proof.
  unfold Buffer.wf, Buffer.allocated, buffer_of_bytes, bytes. cbn.
  rewrite length_fmap. lia.
Qed.

(** X10. [Grow] keeps a buffer well formed: after it, as before, the live
    prefix and the capacity lie inside the allocation, whether the call
    did nothing, only moved [byteLength], or reallocated. *)
Lemma Grow_wf (b : Buffer.t) (n : Z) :
  0 <= n -> Buffer.wf b -> Buffer.byteLength b + n <= SIZE_MAX ->
  Buffer.wf (Buffer.Grow n b).1.
Proof.
  intros Hn Hwf Hfit. destruct (decide (n = 0)) as [-> | Hnz].
  - unfold Buffer.Grow. by rewrite bool_decide_eq_true_2 by lia.
  - destruct (Grow_ok b n) as (b' & d' & HG & Hd & Hbl & Hlen & Hcap & _);
      [lia | done | done |].
    rewrite HG. destruct Hwf as [Hlive _].
    unfold Buffer.wf, Buffer.allocated. cbn. rewrite Hd, Hbl. lia.
Qed.

Lemma read_cells_memcpy (dst : list cell) (off : Z) (src out : list cell) :
  memcpy dst off src 0 (Z.of_nat (length src)) = Some out ->
  read_cells out off (Z.of_nat (length src)) = Some src.
Proof.
  intros Hcpy. pose proof (memcpy_length _ _ _ _ _ _ Hcpy) as Hlen.
  destruct (memcpy_inv _ _ _ _ _ _ Hcpy) as [Hr ->].
  unfold read_cells. rewrite bool_decide_eq_true_2 by lia. f_equal.
  rewrite Nat2Z.id, drop_0, firstn_all.
  rewrite drop_app_length'; [| rewrite length_take; lia].
  by rewrite take_app_length.
Qed.

Lemma read_cells_inv (src : list cell) (off n : Z) (x : list cell) :
  read_cells src off n = Some x ->
  (0 <= off /\ 0 <= n /\ off + n <= Z.of_nat (length src))
  /\ x = take (Z.to_nat n) (drop (Z.to_nat off) src).
Proof. unfold read_cells. case_bool_decide; [|done]. by intros [= <-]. Qed.


(** A bulk copy into a fresh array of the same size reads the source range. *)
Lemma memcpy_into_fresh (src : list cell) (off n : Z) (x : list cell) :
  read_cells src off n = Some x ->
  memcpy (new_array n) 0 src off n = Some x.
Proof.
  intros [Hr ->]%read_cells_inv.
  rewrite memcpy_Some; try lia; [| rewrite length_new_array; lia].
  f_equal. cbn [Z.to_nat take app].
  rewrite (drop_ge (new_array n)); [by rewrite app_nil_r |].
  unfold new_array. rewrite length_replicate. lia.
Qed.

Lemma AppendData_wf (b : Buffer.t) (data : list byte) :
  Buffer.wf b ->
  Buffer.byteLength b + Z.of_nat (length data) <= SIZE_MAX ->
  Buffer.wf (Buffer.AppendData (Some (bytes data)) (Z.of_nat (length data)) b).1.
Proof.
  intros Hwf Hfit.
  assert (length (bytes data) = length data) as Hlb
    by (unfold bytes; apply length_fmap).
  unfold Buffer.AppendData, bind, get.
  destruct data as [| x data].
  - change (Z.of_nat (length [])) with 0.
    change (bytes []) with (@nil cell). unfold Buffer.Grow.
    rewrite bool_decide_eq_true_2 by lia.
    destruct (Buffer.mData b) as [d|] eqn:Hd; [| done].
    unfold memcpy_ptr.
    destruct Hwf as [Hlive Hcap]. unfold Buffer.allocated in *. rewrite Hd in *.
    destruct (memcpy d (Buffer.byteLength b) [] 0 0) as [d'|] eqn:Hcpy.
    2: { rewrite memcpy_Some in Hcpy by (cbn; lia). done. }
    apply memcpy_length in Hcpy.
    unfold Buffer.wf, Buffer.allocated. cbn. rewrite Hcpy. lia.
  - set (n := Z.of_nat (length (x :: data))) in *.
    destruct (Grow_ok b n) as (b1 & d1 & HG & Hd1 & Hbl & Hlen & Hcap & _);
      [cbn in n; lia | done | done |].
    rewrite HG, Hd1. unfold memcpy_ptr.
    destruct (memcpy d1 (Buffer.byteLength b) (bytes (x :: data)) 0 n)
      as [d2|] eqn:Hcpy.
    2: { destruct Hwf as [Hlive _].
         rewrite memcpy_Some in Hcpy; [done | lia.. | rewrite Hlb; lia | lia]. }
    apply memcpy_length in Hcpy.
    unfold Buffer.wf, Buffer.allocated. cbn. rewrite Hcpy, Hbl.
    destruct Hwf as [Hlive _]. lia.
Qed.


(** X9. What [ReplaceData] leaves in the new storage: the bytes before the
    replaced range, the replacement, then as many bytes of the old tail as
    the offset counts; the cells after them are never written. *)
Lemma ReplaceData_cells (b : Buffer.t) (off cnt : Z) (rep d : list cell) :
  Buffer.mData b = Some d ->
  Buffer.byteLength b = Z.of_nat (length d) ->
  0 <= off -> 0 < cnt -> rep <> [] ->
  off + cnt + off <= Z.of_nat (length d) ->
  Z.of_nat (length d) + Z.of_nat (length rep) <= SIZE_MAX ->
  exists (b' : Buffer.t) (d' : list cell),
    Buffer.ReplaceData off cnt (Some rep) (Z.of_nat (length rep)) b = (b', Ok true)
    /\ Buffer.mData b' = Some d'
    /\ Buffer.byteLength b' = Z.of_nat (length d) + Z.of_nat (length rep) - cnt
    /\ forall k : Z,
         0 <= k < Z.of_nat (length d) + Z.of_nat (length rep) - cnt ->
         d' !! Z.to_nat k
         = if bool_decide (k < off) then d !! Z.to_nat k
           else if bool_decide (k < off + Z.of_nat (length rep))
           then rep !! Z.to_nat (k - off)
           else if bool_decide (k < off + Z.of_nat (length rep) + off)
           then d !! Z.to_nat (k - Z.of_nat (length rep) + cnt)
           else Some None.
Proof.
  intros Hd Hbl Hoff Hcnt Hrep Hsrc Hfit.
  set (n := Z.of_nat (length d)) in *. set (m := Z.of_nat (length rep)) in *.
  assert (0 < m) as Hm by (destruct rep; [done | cbn in m; lia]).
  unfold Buffer.ReplaceData. rewrite Hbl, Hd.
  rewrite bool_decide_eq_false_2 by lia.
  rewrite (size_t_small (n + m)) by lia.
  rewrite (size_t_small (n + m - cnt)) by lia.
  rewrite (size_t_small (off + m)), (size_t_small (off + cnt)) by lia.
  unfold memcpy_ptr.
  pose proof (length_new_array (n + m - cnt)) as Hnew.
  destruct (memcpy (new_array (n + m - cnt)) 0 d 0 off) as [d1|] eqn:H1.
  2: { rewrite memcpy_Some in H1; [done | lia..]. }
  pose proof (memcpy_length _ _ _ _ _ _ H1) as Hl1.
  destruct (memcpy d1 off rep 0 m) as [d2|] eqn:H2.
  2: { rewrite memcpy_Some in H2; [done | lia..]. }
  pose proof (memcpy_length _ _ _ _ _ _ H2) as Hl2.
  destruct (memcpy d2 (off + m) d (off + cnt) off) as [d3|] eqn:H3.
  2: { rewrite memcpy_Some in H3; [done | lia..]. }
  eexists _, d3. split; [reflexivity |]. split; [done |]. split; [done |].
  intros k Hk.
  pose proof (memcpy_lookup _ _ _ _ _ _ k H3 ltac:(lia)) as E3.
  pose proof (memcpy_lookup _ _ _ _ _ _ k H2 ltac:(lia)) as E2.
  pose proof (memcpy_lookup _ _ _ _ _ _ k H1 ltac:(lia)) as E1.
  unfold cell in *. rewrite E3, E2, E1.
  repeat case_bool_decide; try lia; try (f_equal; lia).
  unfold new_array. apply lookup_replicate_2. lia.
Qed.

(** C1 (fails on the code). Replacing the byte at offset 1 of the five
    bytes 01 02 03 04 05 by the byte 09 returns [true] and keeps the length
    5, but the third copy moves [pBufferData_Offset] = 1 byte of the tail
    instead of the 3 that follow the replaced range: the bytes 04 05 are
    not in the new storage, whose last two cells were never written. *)
Theorem ReplaceData_drops_tail :
  exists b' : Buffer.t,
    Buffer.ReplaceData 1 1 (Some (bytes [x09])) 1
      (buffer_of_bytes [x01; x02; x03; x04; x05])
    = (b', Ok true)
    /\ Buffer.byteLength b' = 5
    /\ Buffer.mData b'
       = Some [Some x01; Some x09; Some x03; None; None]
    /\ Buffer.mData b' <> Some (bytes [x01; x09; x03; x04; x05]).
Proof. eexists. split; [reflexivity |]. by split_and!. Qed.

Lemma find_region_app (pID : string) (l : list Buffer.SEncodedRegion)
  (reg : Buffer.SEncodedRegion) (i : nat) :
  Forall (fun x => Buffer.ID x <> pID) l -> Buffer.ID reg = pID ->
  Buffer.find_region pID (l ++ [reg]) i = Some (i + length l)%nat.
Proof.
  intros Hl Hreg. revert i.
  induction Hl as [| x l Hx Hl IH]; intros i; cbn.
  - rewrite bool_decide_eq_true_2 by done. f_equal. lia.
  - rewrite bool_decide_eq_false_2 by done. rewrite IH. f_equal. lia.
Qed.

(** C5. [EncodedRegion_Mark] moves [byteLength] by exactly the decoded
    length minus the encoded length.  Once the marked region is the current
    one (which [EncodedRegion_SetCurrent] with its ID makes it, when no
    earlier region of the buffer carries the same ID and none of that ID is
    current), an accessor bound to the buffer resolves every address of
    [offset, offset + decodedLength) into the decoded data of the region,
    at the distance from [offset], and every other address into the raw
    storage.  The arguments pass the checks of [EncodedRegion_Mark] and the
    sums involved are [size_t] values. *)
Theorem EncodedRegion_Mark_overlay (b : Buffer.t) (pOffset pEncoded pDecoded : Z)
  (decoded : list cell) (pID : string) :
  0 <= pOffset -> 0 <= pEncoded -> 0 <= pDecoded ->
  pOffset + pEncoded <= Buffer.byteLength b <= SIZE_MAX ->
  Buffer.byteLength b + pDecoded - pEncoded <= SIZE_MAX ->
  pOffset + pDecoded <= SIZE_MAX ->
  let reg := {| Buffer.Offset := pOffset;
                Buffer.EncodedData_Length := pEncoded;
                Buffer.DecodedData := decoded;
                Buffer.DecodedData_Length := pDecoded;
                Buffer.ID := pID |} in
  exists b1 : Buffer.t,
    Buffer.EncodedRegion_Mark pOffset pEncoded (Some decoded) pDecoded pID b
    = (b1, Ok tt)
    /\ Buffer.byteLength b1 = Buffer.byteLength b + (pDecoded - pEncoded)
    /\ Buffer.EncodedRegion_List b1 = Buffer.EncodedRegion_List b ++ [reg]
    /\ (Forall (fun x => Buffer.ID x <> pID) (Buffer.EncodedRegion_List b) ->
        exists b2 : Buffer.t,
          Buffer.EncodedRegion_SetCurrent pID b1 = (b2, Ok tt)
          /\ Buffer.current_region b2 = Some reg)
    /\ (forall (b2 : Buffer.t) (r : Asset.t) (a : Accessor.t) (bv : BufferView.t),
          Buffer.EncodedRegion_SetCurrent pID b1 = (b2, Ok tt) ->
          Buffer.current_region b2 = Some reg ->
          deref (Asset.bufferViews r) (Accessor.bufferView a) = Some bv ->
          deref (Asset.buffers r) (BufferView.buffer bv) = Some b2 ->
          Buffer.mData b2 <> None ->
          let address := Accessor.byteOffset a + BufferView.byteOffset bv in
          0 <= address <= SIZE_MAX ->
          (pOffset <= address < pOffset + pDecoded ->
             Accessor_GetPointer r a = Some (DecodedPtr (address - pOffset))
             /\ pointee b2 (DecodedPtr (address - pOffset))
                = Some (decoded, address - pOffset))
          /\ (~ pOffset <= address < pOffset + pDecoded ->
                Accessor_GetPointer r a = Some (RawPtr address)
                /\ pointee b2 (RawPtr address)
                   = (d ← Buffer.mData b2; Some (d, address)))).
Proof.
  intros HO HE HD Hin Hfit Hspan. cbv zeta.
  unfold Buffer.EncodedRegion_Mark.
  set (reg := Buffer.Build_SEncodedRegion pOffset pEncoded decoded pDecoded pID).
  rewrite bool_decide_eq_false_2 by lia.
  rewrite (size_t_small (pOffset + pEncoded)) by lia.
  rewrite bool_decide_eq_false_2 by lia.
  cbn [Buffer.byteLength Buffer.set_EncodedRegion_List].
  assert (size_t (Buffer.byteLength b + size_t (pDecoded - pEncoded))
          = Buffer.byteLength b + (pDecoded - pEncoded)) as ->.
  { unfold size_t. rewrite Zplus_mod_idemp_r. apply Z.mod_small.
    unfold SIZE_MAX in *. lia. }
  eexists. split; [reflexivity |]. split; [done |]. split; [done |]. split.
  - intros Hfresh. unfold Buffer.EncodedRegion_SetCurrent.
    cbn [Buffer.EncodedRegion_List Buffer.set_byteLength
         Buffer.set_EncodedRegion_List].
    rewrite (find_region_app pID _ reg 0 Hfresh eq_refl).
    assert (forall b', Buffer.EncodedRegion_List b'
                       = Buffer.EncodedRegion_List b ++ [reg] ->
              Buffer.current_region
                (Buffer.set_EncodedRegion_Current
                   (Some (0 + length (Buffer.EncodedRegion_List b))%nat) b')
              = Some reg) as Hsel.
    { intros b' Hl. unfold Buffer.current_region. cbn. rewrite Hl.
      rewrite lookup_app_r by lia. by rewrite Nat.sub_diag. }
    match goal with
    | |- context [match Buffer.current_region ?x with _ => _ end] =>
        destruct (Buffer.current_region x) as [cur|] eqn:Hcur
    end.
    + case_bool_decide as Hid.
      * (* a region of that ID is current already: it is the new one *)
        unfold Buffer.current_region in Hcur. cbn in Hcur.
        destruct (Buffer.EncodedRegion_Current b) as [i|] eqn:Hi; [| done].
        cbn in Hcur.
        destruct (decide (i < length (Buffer.EncodedRegion_List b))%nat) as [Hlt|Hge].
        { rewrite lookup_app_l in Hcur by done.
          rewrite Forall_forall in Hfresh.
          exfalso. eapply Hfresh; [| exact Hid].
          eapply list_elem_of_lookup_2. exact Hcur. }
        eexists. split; [reflexivity |].
        unfold Buffer.current_region. cbn. rewrite Hi. cbn. rewrite Hcur.
        f_equal. rewrite lookup_app_r in Hcur by lia.
        destruct (i - length (Buffer.EncodedRegion_List b))%nat; [| done].
        by injection Hcur.
      * eexists. split; [reflexivity |]. by apply Hsel.
    + eexists. split; [reflexivity |]. by apply Hsel.
  - intros b2 r a bv Hset Hcur Hbv Hb Hraw.
    set (address := Accessor.byteOffset a + BufferView.byteOffset bv).
    intros Haddr.
    unfold Accessor_GetPointer. rewrite Hbv, Hb. unfold Buffer.GetPointer.
    destruct (Buffer.mData b2) as [d|] eqn:Hd; [| done].
    rewrite Hcur. cbn [Buffer.Offset Buffer.DecodedData_Length reg].
    fold address. rewrite (size_t_small address) by done.
    rewrite (size_t_small (pOffset + pDecoded)) by lia.
    split; intros Hrange.
    + rewrite bool_decide_eq_true_2 by lia. split; [done |].
      unfold pointee. by rewrite Hcur.
    + rewrite bool_decide_eq_false_2 by lia. split; [done |].
      unfold pointee. by rewrite Hd.
Qed.

(** ** Lazy dictionaries *)

Section DictionaryProperties.
Context {T : Type} `{D : DictObject T}.

(** [Add] records the identifier of the object among the used ones. *)
Lemma LazyDict_Add_used (obj : T) (r r' : Asset.t) (o : outcome (Ref T)) :
  LazyDict_Add obj r = (r', o) ->
  Asset.mUsedIds r' = <[T_id obj := 1]> (Asset.mUsedIds r).
Proof.
  unfold LazyDict_Add. intros [= <- _]. cbn. by rewrite T_used_set_dict.
Qed.

(** Whatever way a [Create] ends, its identifier is used afterwards. *)
Lemma LazyDict_Create_used (id : string) (r r' : Asset.t) (o : outcome (Ref T)) :
  LazyDict_Create id r = (r', o) -> is_Some (Asset.mUsedIds r' !! id).
Proof.
  unfold LazyDict_Create.
  destruct (Asset.mUsedIds r !! id) as [v|] eqn:Hid.
  - intros [= <- _]. by rewrite Hid.
  - intros Hadd%LazyDict_Add_used. rewrite Hadd, T_id_set_id.
    rewrite lookup_insert_eq. done.
Qed.

(** No [Add] and no [Create] takes an identifier out of the used ones. *)
Lemma LazyDict_Add_used_mono (obj : T) (r r' : Asset.t) (o : outcome (Ref T)) :
  LazyDict_Add obj r = (r', o) ->
  dom (Asset.mUsedIds r) ⊆ dom (Asset.mUsedIds r').
Proof.
  intros Hadd%LazyDict_Add_used. rewrite Hadd, dom_insert_L. set_solver.
Qed.

Lemma LazyDict_Create_used_mono (id : string) (r r' : Asset.t)
  (o : outcome (Ref T)) :
  LazyDict_Create id r = (r', o) ->
  dom (Asset.mUsedIds r) ⊆ dom (Asset.mUsedIds r').
Proof.
  unfold LazyDict_Create.
  destruct (Asset.mUsedIds r !! id) as [v|] eqn:Hid.
  - by intros [= <- _].
  - apply LazyDict_Add_used_mono.
Qed.

Lemma LazyDict_Create_duplicate (id : string) (r : Asset.t) :
  is_Some (Asset.mUsedIds r !! id) ->
  LazyDict_Create id r = (r, Throw DuplicateId).
Proof. unfold LazyDict_Create. by intros [v ->]. Qed.


End DictionaryProperties.

(** C7. Of two [Create] calls with the same identifier, on dictionaries of
    any two kinds of one asset, the second fails with [DuplicateId] (in
    whatever way the first ended, and whatever more became used in
    between).  [Get] of an identifier that is not materialised fails with
    [MissingSection] when the dictionary has no section attached and with
    [MissingObject] when the attached section has no such member; [Get] of a
    materialised identifier returns the existing object and leaves the asset
    as it is, whatever the section and the reader of the objects are. *)
Theorem LazyDict_Create_twice_and_Get (T1 T2 : Type) (D1 : DictObject T1)
  (D2 : DictObject T2) (id : string) (r : Asset.t) :
  (forall (r1 r2 : Asset.t) (o : outcome (Ref T1)),
      LazyDict_Create (T := T1) id r = (r1, o) ->
      dom (Asset.mUsedIds r1) ⊆ dom (Asset.mUsedIds r2) ->
      LazyDict_Create (T := T2) id r2 = (r2, Throw DuplicateId))
  /\ (let d := T_dict (T := T1) r in
      let key := T_TranslateId (T := T1) r id in
      (LazyDict.mObjsById d !! key = None ->
       LazyDict.mDict d = None ->
       LazyDict_Get (T := T1) id r = (r, Throw (MissingSection (LazyDict.mDictId d))))
      /\ (forall section : Value,
            LazyDict.mObjsById d !! key = None ->
            LazyDict.mDict d = Some section ->
            FindMember section key = None ->
            LazyDict_Get (T := T1) id r
            = (r, Throw (MissingObject key (LazyDict.mDictId d))))
      /\ (forall i : nat,
            LazyDict.mObjsById d !! key = Some i ->
            LazyDict_Get (T := T1) id r = (r, Ok (MkRef i)))).
Proof.
  split.
  - intros r1 r2 o Hfirst Hsub.
    apply LazyDict_Create_duplicate.
    apply elem_of_dom. apply Hsub. apply elem_of_dom.
    exact (LazyDict_Create_used id r r1 o Hfirst).
  - cbv zeta. split_and!.
    + intros Hnew Hsec. unfold LazyDict_Get. by rewrite Hnew, Hsec.
    + intros section Hnew Hsec Hmem. unfold LazyDict_Get.
      by rewrite Hnew, Hsec, Hmem.
    + intros i Hhave. unfold LazyDict_Get. by rewrite Hhave.
Qed.

(** ** Reading buffers *)

Section BufferReadProperties.
Context `{ext : Externals}.

(** [Get] on the buffers of an asset reaches [Buffer::Read] with the member
    of the section, and a failure of the reader leaves the asset as it was. *)
Lemma LazyDict_Get_Buffer_Throw (id : string) (r : Asset.t) (section obj : Value)
  (e : DeadlyImportError) :
  LazyDict.mObjsById (Asset.buffers r) !! id = None ->
  LazyDict.mDict (Asset.buffers r) = Some section ->
  FindMember section id = Some obj ->
  IsObject obj = true ->
  (forall b : Buffer.t, (Buffer_Read obj r b).2 = Throw e) ->
  LazyDict_Get (T := Buffer.t) id r = (r, Throw e).
Proof.
  intros Hnew Hsec Hmem Hobj Hread. unfold LazyDict_Get.
  cbn [T_TranslateId T_dict Buffer_DictObject]. unfold Buffer.TranslateId.
  rewrite Hnew, Hsec, Hmem, Hobj. cbn [negb].
  unfold bind. cbn [T_Read Buffer_DictObject]. unfold on_instance.
  match goal with
  | |- context [Buffer_Read obj r ?b] =>
      specialize (Hread b); destruct (Buffer_Read obj r b) as [b' o]
  end.
  cbn in Hread. by subst o.
Qed.

(** C6, as the code has it. For an inline data-URI: a base64 payload whose
    decoded length differs from a stated [byteLength] other than 0 makes
    [Buffer::Read] fail with [InvalidDocument], and a [Get] on the buffers
    that set off the read fails the same way with the asset unchanged; with
    a stated length of 0 (or none), as with an equal one, the decoded bytes
    are accepted and their count becomes [byteLength]; a raw payload is
    accepted when its length is the stated [byteLength], and otherwise, a
    stated 0 included, makes the read fail in the same way. *)
Theorem Buffer_Read_data_uri_lengths (obj : Value) (r : Asset.t) (uri : string)
  (u : DataURI) :
  FindString obj "uri" = Some uri ->
  ParseDataURI uri = Some u ->
  let stated := MemberOrDefault_uint SIZE_MAX obj "byteLength" 0 in
  let decoded := Base64_Decode (data u) in
  exists msg : string,
    (base64 u = true -> stated > 0 -> Z.of_nat (length decoded) <> stated ->
       (forall b : Buffer.t, (Buffer_Read obj r b).2 = Throw (InvalidDocument msg))
       /\ (forall (id : string) (section : Value),
             LazyDict.mObjsById (Asset.buffers r) !! id = None ->
             LazyDict.mDict (Asset.buffers r) = Some section ->
             FindMember section id = Some obj ->
             IsObject obj = true ->
             LazyDict_Get (T := Buffer.t) id r = (r, Throw (InvalidDocument msg))))
    /\ (base64 u = true ->
        stated = 0 \/ Z.of_nat (length decoded) = stated ->
        forall b : Buffer.t,
          exists b' : Buffer.t,
            Buffer_Read obj r b = (b', Ok tt)
            /\ Buffer.byteLength b' = Z.of_nat (length decoded)
            /\ Buffer.mData b' = Some (bytes decoded))
    /\ (base64 u = false -> stated = dataLength u ->
        forall b : Buffer.t,
          exists b' : Buffer.t,
            Buffer_Read obj r b = (b', Ok tt)
            /\ Buffer.byteLength b' = stated
            /\ Buffer.mData b'
               = Some (bytes (String.list_byte_of_string (data u))))
    /\ (base64 u = false -> stated <> dataLength u ->
        (forall b : Buffer.t, (Buffer_Read obj r b).2 = Throw (InvalidDocument msg))
        /\ (forall (id : string) (section : Value),
              LazyDict.mObjsById (Asset.buffers r) !! id = None ->
              LazyDict.mDict (Asset.buffers r) = Some section ->
              FindMember section id = Some obj ->
              IsObject obj = true ->
              LazyDict_Get (T := Buffer.t) id r = (r, Throw (InvalidDocument msg)))).
Proof.
  intros Huri Hparse stated decoded.
  exists "BVH: buffer, expected other byte count than found".
  assert (forall b, Buffer_Read obj r b
            = if base64 u
              then (Buffer.set_mData (Some (bytes decoded))
                      (Buffer.set_byteLength (Z.of_nat (length decoded))
                         (Buffer.set_byteLength stated b)),
                    if bool_decide (stated > 0 /\ Z.of_nat (length decoded) <> stated)
                    then Throw (InvalidDocument
                           "BVH: buffer, expected other byte count than found")
                    else Ok tt)
              else if bool_decide (stated <> dataLength u)
              then (Buffer.set_byteLength stated b,
                    Throw (InvalidDocument
                      "BVH: buffer, expected other byte count than found"))
              else (Buffer.set_mData
                      (Some (bytes (String.list_byte_of_string (data u))))
                      (Buffer.set_byteLength stated b), Ok tt)) as Hrun.
  { intros b. unfold Buffer_Read. rewrite Huri, Hparse. fold stated decoded.
    destruct (base64 u); [| by case_bool_decide].
    cbn [Buffer.byteLength Buffer.set_mData Buffer.set_byteLength].
    by case_bool_decide. }
  split_and!.
  - intros Hb Hpos Hne.
    assert (forall b, (Buffer_Read obj r b).2
                      = Throw (InvalidDocument
                          "BVH: buffer, expected other byte count than found"))
      as Hthrow.
    { intros b. rewrite Hrun, Hb. by rewrite bool_decide_eq_true_2. }
    split; [done |]. intros id section Hnew Hsec Hmem Hobj.
    by eapply LazyDict_Get_Buffer_Throw.
  - intros Hb Hzero b. rewrite Hrun, Hb.
    rewrite bool_decide_eq_false_2 by lia. by eexists.
  - intros Hb Heq b. rewrite Hrun, Hb.
    rewrite bool_decide_eq_false_2 by (intros Hne; by apply Hne). by eexists.
  - intros Hb Hne.
    assert (forall b, (Buffer_Read obj r b).2
                      = Throw (InvalidDocument
                          "BVH: buffer, expected other byte count than found"))
      as Hthrow.
    { intros b. rewrite Hrun, Hb. by rewrite bool_decide_eq_true_2. }
    split; [done |]. intros id section Hnew Hsec Hmem Hobj.
    by eapply LazyDict_Get_Buffer_Throw.
Qed.

End BufferReadProperties.

(** ** Loading *)

(** C8, as the code has it. [Load] fails with [InvalidDocument] when the
    manifest is shorter than 2 bytes and when its length is at least
    2^32 - 1, the largest [uint32_t], one byte less than 4 GiB; for every
    length from 2 to 2^32 - 2 the two guards pass. *)
Theorem Load_check_length_bounds (r : Asset.t) :
  (Asset.mSceneLength r < 2 ->
   Asset.Load_check_length r
   = (r, Throw (InvalidDocument "BVH: No JSON file contents")))
  /\ (Asset.mSceneLength r >= 2 ^ 32 - 1 ->
      Asset.Load_check_length r
      = (r, Throw (InvalidDocument "BVH: JSON size greater than 4GB")))
  /\ (2 <= Asset.mSceneLength r <= 2 ^ 32 - 2 ->
      Asset.Load_check_length r = (r, Ok tt)).
Proof.
  unfold Asset.Load_check_length, UINT32_MAX. split_and!; intros Hlen.
  - by rewrite bool_decide_eq_true_2.
  - rewrite bool_decide_eq_false_2 by lia. by rewrite bool_decide_eq_true_2.
  - rewrite bool_decide_eq_false_2 by lia. by rewrite bool_decide_eq_false_2 by lia.
Qed.

(** [Load] of a text manifest runs the guards on the size of the file. *)
Lemma Load_text_guards (pFile : string) (stream : list byte) (r : Asset.t) :
  Asset.OpenFile r pFile = Some stream ->
  (Z.of_nat (length stream) < 2 ->
   (Asset.Load_text pFile r).2
   = Throw (InvalidDocument "BVH: No JSON file contents"))
  /\ (Z.of_nat (length stream) >= 2 ^ 32 - 1 ->
      (Asset.Load_text pFile r).2
      = Throw (InvalidDocument "BVH: JSON size greater than 4GB"))
  /\ (2 <= Z.of_nat (length stream) <= 2 ^ 32 - 2 ->
      (Asset.Load_text pFile r).2 = Ok stream).
Proof.
  intros Hopen. unfold Asset.Load_text, Asset.Load_check_length, UINT32_MAX.
  rewrite Hopen. cbn [Asset.mSceneLength Asset.set_mSceneLength Asset.set_mBodyLength].
  split_and!; intros Hlen.
  - by rewrite bool_decide_eq_true_2.
  - rewrite bool_decide_eq_false_2 by lia. by rewrite bool_decide_eq_true_2.
  - rewrite bool_decide_eq_false_2 by lia. by rewrite bool_decide_eq_false_2 by lia.
Qed.

(** ** Mesh primitives *)

Section MeshReadProperties.
Context `{ext : Externals}.

Lemma read_attribute_not_string (prim : Mesh.Primitive) (key : string)
  (v : Value) (r : Asset.t) :
  IsString v = false -> read_attribute prim (key, v) r = (r, Ok prim).
Proof. by destruct v. Qed.

Lemma read_attribute_unknown (prim : Mesh.Primitive) (key : string)
  (v : Value) (r : Asset.t) :
  GetAttribVector key = None -> read_attribute prim (key, v) r = (r, Ok prim).
Proof. intros Hk. destruct v; try done. cbn. by rewrite Hk. Qed.

Lemma prefix_app_l (s1 s2 s : string) :
  String.prefix (s1 +:+ s2) s = true -> String.prefix s1 s = true.
Proof.
  revert s. induction s1 as [| a s1 IH]; intros s; [by destruct s |].
  destruct s as [| b s]; [done |].
  change (String.prefix (String a s1 +:+ s2) (String b s))
    with (if ascii_dec a b then String.prefix (s1 +:+ s2) s else false).
  change (String.prefix (String a s1) (String b s))
    with (if ascii_dec a b then String.prefix s1 s else false).
  destruct (ascii_dec a b); [apply IH | done].
Qed.

(** X16. No key selects the jointmatrix sequence: a key that starts with
    "JOINTMATRIX" starts with "JOINT", which is tried first. *)
Lemma GetAttribVector_never_JOINTMATRIX (attr : string) (undPos : nat) :
  GetAttribVector attr <> Some (Mesh.JOINTMATRIX, undPos).
Proof.
  unfold GetAttribVector.
  repeat (case_bool_decide; [done |]).
  assert (Compare attr "JOINT" = 0%nat) as Hjoint by lia.
  assert (Compare attr "JOINTMATRIX" = 0%nat) as Hmatrix.
  { unfold Compare in *.
    destruct (String.prefix "JOINTMATRIX" attr) eqn:Hlong; [| done].
    apply (prefix_app_l "JOINT" "MATRIX") in Hlong.
    by rewrite Hlong in Hjoint. }
  rewrite Hmatrix. rewrite bool_decide_eq_false_2 by lia.
  by case_bool_decide.
Qed.

Lemma attrib_set_attrib (sem sem' : Mesh.Semantic) (v : Mesh.AccessorList)
  (a : Mesh.Attributes) :
  Mesh.attrib sem' (Mesh.set_attrib sem v a)
  = if decide (sem' = sem) then v else Mesh.attrib sem' a.
Proof. by destruct sem, sem'. Qed.

(** X17. A string member under a key that [GetAttribVector] takes, with set
    index [n]: the accessor that [Get] returns for the value, which it
    receives as a C string, goes to slot [n] of the selected sequence, which
    grows to [n + 1] slots if it was shorter; slots it had keep their
    references, new slots below [n] hold the null reference, and the other
    sequences stay as they are. *)
Lemma read_attribute_stores_in_slot (prim : Mesh.Primitive) (key s : string)
  (sem : Mesh.Semantic) (undPos : nat) (n : Z) (r r' : Asset.t)
  (ref : Ref Accessor.t) :
  GetAttribVector key = Some (sem, undPos) ->
  (if bool_decide (String.get undPos key = Some "_"%char)
   then atoi (string_drop (S undPos) key) else Some 0) = Some n ->
  0 <= n < SIZE_MAX ->
  LazyDict_Get (T := Accessor.t) (c_str s) r = (r', Ok ref) ->
  exists prim' : Mesh.Primitive,
    read_attribute prim (key, JString s) r = (r', Ok prim')
    /\ Mesh.attrib sem (Mesh.attributes prim') !! Z.to_nat n = Some ref
    /\ length (Mesh.attrib sem (Mesh.attributes prim'))
       = (length (Mesh.attrib sem (Mesh.attributes prim)) `max` S (Z.to_nat n))%nat
    /\ (forall j : nat, j <> Z.to_nat n ->
          (j < length (Mesh.attrib sem (Mesh.attributes prim)))%nat ->
          Mesh.attrib sem (Mesh.attributes prim') !! j
          = Mesh.attrib sem (Mesh.attributes prim) !! j)
    /\ (forall j : nat, (j < Z.to_nat n)%nat ->
          (length (Mesh.attrib sem (Mesh.attributes prim)) <= j)%nat ->
          Mesh.attrib sem (Mesh.attributes prim') !! j = Some NullRef)
    /\ (forall sem' : Mesh.Semantic, sem' <> sem ->
          Mesh.attrib sem' (Mesh.attributes prim')
          = Mesh.attrib sem' (Mesh.attributes prim)).
Proof.
  intros Hkey Hidx Hn HGet. unfold read_attribute. cbn [fst snd].
  rewrite Hkey, Hidx. unfold bind. rewrite HGet.
  rewrite (size_t_small n) by lia.
  rewrite (size_t_small (n + 1)) by lia.
  set (old := Mesh.attrib sem (Mesh.attributes prim)).
  set (vec := if bool_decide (Z.of_nat (length old) <= n)
              then resize (Z.to_nat (n + 1)) NullRef old else old).
  assert (length vec = (length old `max` S (Z.to_nat n))%nat) as Hlen.
  { subst vec. destruct (decide (Z.of_nat (length old) <= n)) as [Hle | Hgt].
    - rewrite bool_decide_eq_true_2 by done. rewrite length_resize. lia.
    - rewrite bool_decide_eq_false_2 by done. lia. }
  rewrite bool_decide_eq_true_2 by lia.
  eexists. split; [reflexivity |].
  cbn [Mesh.attributes Mesh.set_attributes].
  unfold Mesh.AccessorList in *.
  split_and!.
  - rewrite attrib_set_attrib, decide_True by done.
    apply list_lookup_insert_eq. lia.
  - rewrite attrib_set_attrib, decide_True by done.
    by rewrite length_insert.
  - intros j Hj Hold. rewrite attrib_set_attrib, decide_True by done.
    rewrite list_lookup_insert_ne by done.
    subst vec. destruct (decide (Z.of_nat (length old) <= n)) as [Hle | Hgt].
    + rewrite bool_decide_eq_true_2 by done. by rewrite lookup_resize by lia.
    + by rewrite bool_decide_eq_false_2 by done.
  - intros j Hj Hold. rewrite attrib_set_attrib, decide_True by done.
    rewrite list_lookup_insert_ne by lia.
    subst vec. rewrite bool_decide_eq_true_2 by lia.
    rewrite lookup_resize_new by lia. done.
  - intros sem' Hsem. by rewrite attrib_set_attrib, decide_False.
Qed.

End MeshReadProperties.

(** The key "TEXCOORD_1" alone fills slot 1 of the texcoord sequence and
    leaves slot 0 with the null reference; "TEXCOORD" selects slot 0; a key
    of no known semantic and a member that is not a string are passed over. *)
Lemma Mesh_Read_TEXCOORD_samples :
  (exists prim : Mesh.Primitive,
     Mesh_Read (ext := sample_ext) (mesh_with_attribute "TEXCOORD_1" (JString "acc"))
       Mesh.Mesh (asset_with_accessor "acc")
     = (asset_with_accessor "acc",
        Ok {| Mesh.id := ""; Mesh.name := ""; Mesh.primitives := [prim] |})
     /\ Mesh.texcoord (Mesh.attributes prim) = [NullRef; MkRef 0])
  /\ (exists prim : Mesh.Primitive,
        Mesh_Read (ext := sample_ext) (mesh_with_attribute "TEXCOORD" (JString "acc"))
          Mesh.Mesh (asset_with_accessor "acc")
        = (asset_with_accessor "acc",
           Ok {| Mesh.id := ""; Mesh.name := ""; Mesh.primitives := [prim] |})
        /\ Mesh.texcoord (Mesh.attributes prim) = [MkRef 0])
  /\ (exists prim : Mesh.Primitive,
        Mesh_Read (ext := sample_ext) (mesh_with_attribute "TANGENT" (JString "acc"))
          Mesh.Mesh (asset_with_accessor "acc")
        = (asset_with_accessor "acc",
           Ok {| Mesh.id := ""; Mesh.name := ""; Mesh.primitives := [prim] |})
        /\ Mesh.attributes prim = Mesh.no_attributes)
  /\ (exists prim : Mesh.Primitive,
        Mesh_Read (ext := sample_ext) (mesh_with_attribute "NORMAL" (JNumber 7))
          Mesh.Mesh (asset_with_accessor "acc")
        = (asset_with_accessor "acc",
           Ok {| Mesh.id := ""; Mesh.name := ""; Mesh.primitives := [prim] |})
        /\ Mesh.attributes prim = Mesh.no_attributes).
Proof.
  split_and!; (eexists; split; [reflexivity | done]).
Qed.

(** C9 (fails on the code). The key "JOINTMATRIX_1" starts with "JOINT",
    which [GetAttribVector] tries first: the branch for "JOINTMATRIX" is
    never reached, the character after the match is 'M', not '_', and the
    accessor goes to slot 0 of the joint sequence; the jointmatrix sequence
    stays empty.  (The collaborators are the sample ones; the accessor
    "acc" is materialised already, so none of them is consulted beyond the
    translation of the identifier.) *)
Theorem Mesh_Read_JOINTMATRIX_lands_in_joint :
  GetAttribVector "JOINTMATRIX_1" = Some (Mesh.JOINT, 5%nat)
  /\ exists prim : Mesh.Primitive,
       Mesh_Read (ext := sample_ext) (mesh_with_attribute "JOINTMATRIX_1" (JString "acc"))
         Mesh.Mesh (asset_with_accessor "acc")
       = (asset_with_accessor "acc",
          Ok {| Mesh.id := ""; Mesh.name := ""; Mesh.primitives := [prim] |})
       /\ Mesh.jointmatrix (Mesh.attributes prim) = []
       /\ Mesh.joint (Mesh.attributes prim) = [MkRef 0].
Proof. split; [reflexivity |]. eexists. split; [reflexivity |]. done. Qed.

(** ** Unique identifiers *)

(** Where the candidate and its counter fit the buffer, the search ends
    with an unused identifier. *)

Lemma string_length_app (s1 s2 : string) :
  String.length (s1 +:+ s2) = (String.length s1 + String.length s2)%nat.
Proof.
  induction s1 as [| c s1 IH]; [done |].
  change (S (String.length (s1 +:+ s2))
          = S (String.length s1 + String.length s2)).
  by rewrite IH.
Qed.

Lemma string_take_all (s : string) (n : nat) :
  (String.length s <= n)%nat -> string_take n s = s.
Proof.
  revert n. induction s as [| c s IH]; intros [| n] Hn; cbn in *;
    try done; try lia.
  f_equal. apply IH. lia.
Qed.

Lemma c_str_length (s : string) :
  (String.length (c_str s) <= String.length s)%nat.
Proof.
  induction s as [| c s IH]; cbn; [done |].
  case_bool_decide; cbn; lia.
Qed.

Lemma pretty_N_go_length (k : nat) (x : N) (s : string) :
  (x < 10 ^ N.of_nat k)%N ->
  (String.length (pretty_N_go x s) <= String.length s + k)%nat.
Proof.
  revert x s. induction k as [| k IH]; intros x s Hx.
  - assert (x = 0%N) as -> by (cbn in Hx; lia).
    rewrite pretty_N_go_0. lia.
  - destruct (decide (x = 0%N)) as [-> | Hnz];
      [rewrite pretty_N_go_0; lia |].
    rewrite pretty_N_go_step by lia.
    etrans; [apply IH | cbn; lia].
    rewrite Nat2N.inj_succ, N.pow_succ_r' in Hx.
    apply N.Div0.div_lt_upper_bound. lia.
Qed.

Lemma pretty_Z_length (i : Z) :
  0 <= i < 10 ^ 10 -> (String.length (pretty i) <= 10)%nat.
Proof.
  intros Hi. destruct i as [| p | p]; [cbn; lia | | lia].
  change (pretty (Z.pos p)) with (pretty (N.pos p)).
  unfold pretty, pretty_N. rewrite decide_False by done.
  apply (pretty_N_go_length 10 (N.pos p) ""). lia.
Qed.



Lemma FindUniqueID_loop_stuck (fuel : nat) (used : gmap string Z)
  (buffer : string) (i : Z) :
  is_Some (used !! buffer) ->
  forall id : string,
    Asset.FindUniqueID_loop fuel used buffer 1024 i <> Some (Ok id).
Proof.
  intros [v Hused] id. revert i.
  induction fuel as [| fuel IH]; intros i; cbn [Asset.FindUniqueID_loop];
    [done |].
  rewrite (bool_decide_eq_true_2 (1024 = 1024)) by done.
  case_bool_decide; [done |]. rewrite Hused. apply IH.
Qed.

(** C10 (fails on the code). In an asset where a name of 1018 characters
    and that name followed by "_mesh" are in use, [FindUniqueID] of the name
    with the suffix "mesh" yields no identifier, however many turns its loop
    is given: the candidate of 1023 characters fills the buffer of 1024, no
    digit of the counter is ever written, and every turn tests the same
    used identifier again. *)
Theorem FindUniqueID_long_name_never_returns :
  forall (fuel : nat) (id : string),
    Asset.FindUniqueID long_name "mesh" fuel asset_with_long_ids
    <> Some (Ok id).
Proof.
  intros fuel id. unfold Asset.FindUniqueID.
  assert (Asset.mUsedIds asset_with_long_ids !! long_name = Some 1) as H1
    by (vm_compute; reflexivity).
  assert (Asset.mUsedIds asset_with_long_ids
            !! ((long_name +:+ "_") +:+ c_str "mesh") = Some 1) as H2
    by (vm_compute; reflexivity).
  assert (ai_snprintf 1024 (c_str ((long_name +:+ "_") +:+ c_str "mesh") +:+ "_")
          = ((long_name +:+ "_") +:+ c_str "mesh", 1024)) as H3
    by (vm_compute; reflexivity).
  change long_name with (String "a" (string_repeat "a" 1017)) at 1.
  cbv beta iota. rewrite H1, H2, H3.
  rewrite bool_decide_eq_false_2 by lia.
  apply FindUniqueID_loop_stuck. rewrite H2. by eexists.
Qed.

(** ** Skin export *)

Section SkinExportProperties.
Context `{ext : Externals}.

Lemma first_four_snoc (l : list float) (x : float) :
  first_four (l ++ [x])
  = if bool_decide (length l < 4)%nat
    then <[length l := x]> (first_four l)
    else first_four l.
Proof.
  unfold first_four.
  destruct l as [| a [| b [| c [| d l]]]]; done.
Qed.

Lemma bone_influences_cons (v : nat) (ji : Z) (w : aiVertexWeight)
  (ws : list aiVertexWeight) :
  bone_influences v ji (w :: ws)
  = (if bool_decide (Z.to_nat (mVertexId w) = v)
     then [(float_of_uint ji, mWeight w)] else [])
    ++ bone_influences v ji ws.
Proof.
  unfold bone_influences. rewrite filter_cons.
  case_decide.
  - by rewrite bool_decide_eq_true_2.
  - by rewrite bool_decide_eq_false_2.
Qed.

Lemma holds_first_four_ext (cs cs' : nat -> list (float * float)) (n : nat)
  (d : SkinData) :
  (forall v, cs v = cs' v) -> holds_first_four cs n d -> holds_first_four cs' n d.
Proof. intros Heq Hd v Hv. rewrite <- Heq. by apply Hd. Qed.

Lemma SkinData_init_holds (NumVerts : Z) :
  holds_first_four (fun _ => []) (Z.to_nat NumVerts) (SkinData_init NumVerts).
Proof.
  intros v Hv. unfold SkinData_init. cbn.
  rewrite !lookup_replicate_2 by done. done.
Qed.

(** One weight: the pair goes to the next free slot of its vertex, or
    nowhere when the vertex has four already. *)
Lemma add_weight_holds (cs : nat -> list (float * float)) (n : nat)
  (d : SkinData) (ji : Z) (w : aiVertexWeight) :
  holds_first_four cs n d ->
  (Z.to_nat (mVertexId w) < n)%nat ->
  exists d' : SkinData,
    add_weight ji d w = Some d'
    /\ holds_first_four
         (fun v => cs v ++ (if bool_decide (Z.to_nat (mVertexId w) = v)
                            then [(float_of_uint ji, mWeight w)] else []))
         n d'.
Proof.
  intros Hd Hw. set (vid := Z.to_nat (mVertexId w)) in *.
  destruct (Hd vid Hw) as (HJ & HW & HN).
  unfold add_weight. fold vid. rewrite HN.
  case_bool_decide as Hfull.
  - (* four recorded already: dropped *)
    exists d. split; [done |]. intros v Hv.
    destruct (Hd v Hv) as (HJv & HWv & HNv).
    case_bool_decide as Hvid; [| by rewrite app_nil_r].
    subst v. rewrite !fmap_app.
    change ([(float_of_uint ji, mWeight w)].*1) with [float_of_uint ji].
    change ([(float_of_uint ji, mWeight w)].*2) with [mWeight w].
    rewrite !first_four_snoc, !length_fmap, length_app.
    rewrite bool_decide_eq_false_2 by lia. cbn [length]. split_and!; try done.
    rewrite HNv. f_equal. lia.
  - eexists. split; [done |]. intros v Hv.
    destruct (Hd v Hv) as (HJv & HWv & HNv). cbn.
    assert (Z.to_nat (4 `min` Z.of_nat (length (cs vid))) = length (cs vid))
      as Hk by lia.
    rewrite Hk.
    case_bool_decide as Hvid.
    + subst v. rewrite !fmap_app.
      change ([(float_of_uint ji, mWeight w)].*1) with [float_of_uint ji].
      change ([(float_of_uint ji, mWeight w)].*2) with [mWeight w].
      rewrite !first_four_snoc, !length_fmap, length_app.
      rewrite bool_decide_eq_true_2 by lia. cbn [length].
      rewrite !list_lookup_alter, HJ, HW, !decide_True by done.
      rewrite list_lookup_insert_eq by (eapply lookup_lt_Some; exact HN).
      cbn. split_and!; try done. f_equal. lia.
    + rewrite app_nil_r.
      rewrite !list_lookup_alter_ne by done.
      rewrite list_lookup_insert_ne by done. done.
Qed.

(** All weights of one bone. *)
Lemma add_weights_holds (ws : list aiVertexWeight)
  (cs : nat -> list (float * float)) (n : nat) (d : SkinData) (ji : Z) :
  holds_first_four cs n d ->
  Forall (fun w => (Z.to_nat (mVertexId w) < n)%nat) ws ->
  exists d' : SkinData,
    add_weights ji ws d = Some d'
    /\ holds_first_four (fun v => cs v ++ bone_influences v ji ws) n d'.
Proof.
  revert cs d. induction ws as [| w ws IH]; intros cs d Hd Hws.
  - exists d. split; [done |].
    eapply holds_first_four_ext; [| exact Hd].
    intros v. by rewrite app_nil_r.
  - apply Forall_cons in Hws as [Hw Hws].
    destruct (add_weight_holds cs n d ji w Hd Hw) as (d1 & Hstep & Hd1).
    destruct (IH _ d1 Hd1 Hws) as (d2 & Hrest & Hd2).
    exists d2. split; [cbn; by rewrite Hstep |].
    eapply holds_first_four_ext; [| exact Hd2].
    intros v. cbn beta. by rewrite bone_influences_cons, app_assoc.
Qed.

(** All bones: the loop ends as the resolution of the joints alone ends,
    with the arrays holding the first four influences of every vertex. *)
Lemma export_bones_holds (skinRef : Ref Skin.t) (bones : list aiBone)
  (cs : nat -> list (float * float)) (n : nat) (d : SkinData)
  (inv inv' : list aiMatrix4x4) (jis : list Z) (r r' : Asset.t) :
  holds_first_four cs n d ->
  Forall (fun aib =>
            Forall (fun w => (Z.to_nat (mVertexId w) < n)%nat) (mWeights aib))
         bones ->
  resolve_joints skinRef bones inv r = (r', Ok (jis, inv')) ->
  exists d' : SkinData,
    export_bones skinRef bones d inv r = (r', Ok (d', inv'))
    /\ holds_first_four (fun v => cs v ++ influences v jis bones) n d'.
Proof.
  revert cs d inv jis r.
  induction bones as [| aib bones IH]; intros cs d inv jis r Hd Hin Hres.
  - cbn in Hres. injection Hres as <- <- <-.
    exists d. split; [done |].
    eapply holds_first_four_ext; [| exact Hd]. intros v. by rewrite app_nil_r.
  - apply Forall_cons in Hin as [Hws Hin].
    cbn [resolve_joints export_bones] in *. unfold bind in *.
    destruct (resolve_joint skinRef aib inv r) as [r1 [[ji inv1] | |]];
      [| done | done].
    cbn [fst snd] in *.
    destruct (resolve_joints skinRef bones inv1 r1) as [r2 [[rest inv2] | |]] eqn:Hrest;
      [| done | done].
    cbn in Hres. injection Hres as <- <- <-.
    destruct (add_weights_holds _ cs n d ji Hd Hws) as (d1 & Hadd & Hd1).
    rewrite Hadd.
    destruct (IH _ d1 inv1 rest r1 Hd1 Hin Hrest) as (d2 & Hexp & Hd2).
    exists d2. split; [done |].
    eapply holds_first_four_ext; [| exact Hd2].
    intros v. cbn. by rewrite app_assoc.
Qed.

(** C2. Every vertex keeps at most four (joint, weight) pairs: the pairs
    contributed to it, bone after bone and weight after weight, fill its
    slots from the first one on, and a pair contributed to a vertex that
    has four is dropped, the kept ones staying as they are.  So five
    weights contributed in some order leave exactly the first four of them,
    in that order.  The mesh has a bone, its weights name vertices of the
    mesh, and the joints of its bones resolve. *)
Theorem ExportSkin_keeps_first_four (aimesh : aiMesh) (skinRef : Ref Skin.t)
  (inv inv' : list aiMatrix4x4) (jis : list Z) (r r' : Asset.t) :
  mBones aimesh <> [] ->
  Forall (fun aib =>
            Forall (fun w => 0 <= mVertexId w < mNumVertices aimesh)
                   (mWeights aib))
         (mBones aimesh) ->
  resolve_joints skinRef (mBones aimesh) inv r = (r', Ok (jis, inv')) ->
  exists d : SkinData,
    ExportSkin aimesh skinRef inv r = (r', Ok (Some d, inv'))
    /\ forall v : nat, (Z.of_nat v < mNumVertices aimesh) ->
         let contributed := influences v jis (mBones aimesh) in
         vertexJointData d !! v = Some (first_four contributed.*1)
         /\ vertexWeightData d !! v = Some (first_four contributed.*2)
         /\ jointsPerVertex d !! v
            = Some (Z.min 4 (Z.of_nat (length contributed)))
         /\ (forall w1 w2 w3 w4 w5 : float,
               contributed.*2 = [w1; w2; w3; w4; w5] ->
               vertexWeightData d !! v = Some [w1; w2; w3; w4]).
Proof.
  intros Hbones Hin Hres. unfold ExportSkin.
  rewrite bool_decide_eq_false_2
    by (destruct (mBones aimesh); [done | cbn; lia]).
  destruct (export_bones_holds skinRef (mBones aimesh) (fun _ => [])
              (Z.to_nat (mNumVertices aimesh))
              (SkinData_init (mNumVertices aimesh)) inv inv' jis r r')
    as (d & Hexp & Hd).
  - apply SkinData_init_holds.
  - eapply Forall_impl; [exact Hin |]. intros aib Hws.
    eapply Forall_impl; [exact Hws |]. intros w Hw. cbn in Hw |- *. lia.
  - exact Hres.
  - exists d. split; [unfold bind; by rewrite Hexp |].
    intros v Hv. destruct (Hd v ltac:(lia)) as (HJ & HW & HN).
    rewrite app_nil_l in HJ, HW, HN. split_and!; try done.
    intros w1 w2 w3 w4 w5 Hfive. rewrite Hfive in HW. exact HW.
Qed.

End SkinExportProperties.

(** * Further properties of the code *)

(** Rewriting with a fact about cells, whatever name their type goes by. *)
Ltac rewrite_cells H :=
  let E := fresh "E" in
  pose proof H as E; unfold cell in *; rewrite E; clear E.

Lemma unsigned_small (n : Z) : 0 <= n < 2 ^ 32 -> unsigned n = n.
Proof. unfold unsigned. intros Hn. by apply Z.mod_small. Qed.

(** ** Dictionaries *)

Section DictionaryRoundTrips.
Context {T : Type} `{D : DictObject T}.

(** The dictionary of [T] is a member of the asset other than [mUsedIds]. *)
Hypothesis T_dict_set_mUsedIds : forall (u : gmap string Z) (r : Asset.t),
  T_dict (Asset.set_mUsedIds u r) = T_dict r.

(** What [Add] does to a dictionary of fewer than 2^32 objects. *)
Lemma LazyDict_Add_ok (obj : T) (r : Asset.t) :
  Z.of_nat (length (LazyDict.mObjs (T_dict r))) < 2 ^ 32 ->
  exists r' : Asset.t,
    let n := length (LazyDict.mObjs (T_dict r)) in
    LazyDict_Add obj r = (r', Ok (MkRef n))
    /\ LazyDict.mObjs (T_dict r') = LazyDict.mObjs (T_dict r) ++ [obj]
    /\ LazyDict.mObjsById (T_dict r')
       = <[T_id obj := n]> (LazyDict.mObjsById (T_dict r))
    /\ LazyDict.mDict (T_dict r') = LazyDict.mDict (T_dict r)
    /\ Asset.mUsedIds r' = <[T_id obj := 1]> (Asset.mUsedIds r).
Proof.
  intros Hn. unfold LazyDict_Add. rewrite unsigned_small by lia.
  rewrite Nat2Z.id. eexists. cbv zeta. split; [reflexivity |].
  rewrite T_dict_set_mUsedIds, T_dict_set_dict. cbn.
  by rewrite T_used_set_dict.
Qed.

(** X1. [Create] with an identifier that is not in use appends the new
    object, which carries the identifier, to the objects of the dictionary,
    leaves the earlier objects in their places, and registers it: a [Get]
    with the identifier (one that [TranslateId] leaves as it is) then
    returns the same reference without reading the document or changing
    the asset. *)
Theorem LazyDict_Create_then_Get (id : string) (r : Asset.t) :
  Asset.mUsedIds r !! id = None ->
  Z.of_nat (length (LazyDict.mObjs (T_dict r))) < 2 ^ 32 ->
  exists (r' : Asset.t) (ref : Ref T),
    LazyDict_Create id r = (r', Ok ref)
    /\ deref (T_dict r') ref = Some (T_set_id id T_new)
    /\ (forall i : nat, (i < length (LazyDict.mObjs (T_dict r)))%nat ->
          LazyDict.mObjs (T_dict r') !! i = LazyDict.mObjs (T_dict r) !! i)
    /\ Asset.mUsedIds r' !! id = Some 1
    /\ (T_TranslateId r' id = id -> LazyDict_Get id r' = (r', Ok ref)).
Proof.
  intros Hnew Hn. unfold LazyDict_Create. rewrite Hnew.
  destruct (LazyDict_Add_ok (T_set_id id T_new) r Hn)
    as (r' & HAdd & Hobjs & Hids & _ & Hused).
  cbv zeta in HAdd. rewrite T_id_set_id in *.
  exists r', (MkRef (length (LazyDict.mObjs (T_dict r)))).
  split_and!; [done | | | |].
  - cbn. rewrite Hobjs. by apply list_lookup_middle.
  - intros i Hi. rewrite Hobjs. by apply lookup_app_l.
  - rewrite Hused. by rewrite lookup_insert_eq.
  - intros Hid. unfold LazyDict_Get. rewrite Hid, Hids.
    by rewrite lookup_insert_eq.
Qed.

(** X2. [Add] keeps the index by identifier consistent: if every
    registered identifier designates an object of the dictionary that
    carries it, this is so after [Add] too, and the identifier of the added
    object designates the added object. *)
Theorem LazyDict_Add_keeps_index (obj : T) (r r' : Asset.t) (ref : Ref T) :
  Z.of_nat (length (LazyDict.mObjs (T_dict r))) < 2 ^ 32 ->
  (forall (id : string) (i : nat),
      LazyDict.mObjsById (T_dict r) !! id = Some i ->
      exists x : T, LazyDict.mObjs (T_dict r) !! i = Some x /\ T_id x = id) ->
  LazyDict_Add obj r = (r', Ok ref) ->
  deref (T_dict r') ref = Some obj
  /\ LazyDict.mObjsById (T_dict r') !! T_id obj
     = Some (length (LazyDict.mObjs (T_dict r)))
  /\ forall (id : string) (i : nat),
       LazyDict.mObjsById (T_dict r') !! id = Some i ->
       exists x : T, LazyDict.mObjs (T_dict r') !! i = Some x /\ T_id x = id.
Proof.
  intros Hn Hinv HAdd.
  destruct (LazyDict_Add_ok obj r Hn) as (r1 & HAdd1 & Hobjs & Hids & _ & _).
  cbv zeta in HAdd1. rewrite HAdd1 in HAdd. injection HAdd as <- <-.
  split_and!.
  - cbn. rewrite Hobjs. by apply list_lookup_middle.
  - rewrite Hids. by rewrite lookup_insert_eq.
  - intros id i. rewrite Hids, Hobjs.
    destruct (decide (id = T_id obj)) as [-> | Hne].
    + rewrite lookup_insert_eq. intros [= <-]. exists obj.
      split; [by apply list_lookup_middle | done].
    + rewrite lookup_insert_ne by done. intros (x & Hx & Hid)%Hinv.
      exists x. split; [| done]. rewrite lookup_app_l; [done |].
      by eapply lookup_lt_Some.
Qed.

End DictionaryRoundTrips.

(** ** Reading buffers, views and accessors through the dictionaries *)

Section BufferGet.
Context `{ext : Externals}.

(** [Buffer::Read] never touches the identifier or the name, and how it
    ends does not depend on the object it runs on. *)
Lemma Buffer_Read_id_name (obj : Value) (r : Asset.t) (b : Buffer.t) :
  Buffer.id (Buffer_Read obj r b).1 = Buffer.id b
  /\ Buffer.name (Buffer_Read obj r b).1 = Buffer.name b.
Proof.
  unfold Buffer_Read, Buffer_LoadFromStream.
  repeat (case_match || case_bool_decide); simplify_eq; by cbn.
Qed.

Lemma Buffer_Read_outcome (obj : Value) (r : Asset.t) (b b0 : Buffer.t) :
  (Buffer_Read obj r b).2 = (Buffer_Read obj r b0).2.
Proof.
  unfold Buffer_Read, Buffer_LoadFromStream.
  cbn [Buffer.byteLength Buffer.set_byteLength Buffer.set_mData].
  repeat (case_match || case_bool_decide); simplify_eq; try done; cbn in *; try lia.
Qed.

(** The first [Get] of a buffer the attached section describes: the asset
    it leaves and the object it adds. *)
Lemma LazyDict_Get_Buffer_ok (id : string) (r : Asset.t) (section obj : Value) :
  LazyDict.mObjsById (Asset.buffers r) !! id = None ->
  LazyDict.mDict (Asset.buffers r) = Some section ->
  FindMember section id = Some obj ->
  IsObject obj = true ->
  Z.of_nat (length (LazyDict.mObjs (Asset.buffers r))) < 2 ^ 32 ->
  (Buffer_Read obj r Buffer.Buffer).2 = Ok tt ->
  exists b : Buffer.t,
    Buffer.id b = id
    /\ Buffer.name b = default "" (FindString obj "name")
    /\ LazyDict_Get (T := Buffer.t) id r
       = (Asset.set_mUsedIds (<[id := 1]> (Asset.mUsedIds r))
            (Asset.set_buffers (LazyDict.push id b (Asset.buffers r)) r),
          Ok (MkRef (length (LazyDict.mObjs (Asset.buffers r))))).
Proof.
  intros Hnew Hsec Hmem Hobj Hn Hread. unfold LazyDict_Get.
  cbn [T_TranslateId T_dict Buffer_DictObject]. unfold Buffer.TranslateId.
  rewrite Hnew, Hsec, Hmem, Hobj. cbn [negb].
  unfold bind. cbn [T_Read T_new T_set_id T_set_name Buffer_DictObject].
  unfold on_instance.
  set (inst := match FindString obj "name" with
               | Some n => Buffer.set_name n (Buffer.set_id id Buffer.Buffer)
               | None => Buffer.set_id id Buffer.Buffer
               end).
  pose proof (Buffer_Read_id_name obj r inst) as [Hid Hname].
  pose proof (Buffer_Read_outcome obj r inst Buffer.Buffer) as Hout.
  rewrite Hread in Hout.
  destruct (Buffer_Read obj r inst) as [b o]. cbn in Hid, Hname, Hout. subst o.
  assert (Buffer.id b = id) as Hbid.
  { rewrite Hid. subst inst. by destruct (FindString obj "name"). }
  assert (Buffer.name b = default "" (FindString obj "name")) as Hbname.
  { rewrite Hname. subst inst. by destruct (FindString obj "name"). }
  exists b. split_and!; [done | done |].
  unfold LazyDict_Add. cbn [T_dict T_set_dict T_id Buffer_DictObject].
  rewrite unsigned_small by lia. rewrite Nat2Z.id. by rewrite Hbid.
Qed.

(** X3. The first [Get] of a buffer the attached section describes reads
    it once: the new object is appended to the buffers under the asked
    identifier, with the name the section gives it, the identifier becomes
    used, and a second [Get] returns the same reference and leaves the
    asset as it is. *)
Theorem LazyDict_Get_Buffer_reads_once (id : string) (r : Asset.t)
  (section obj : Value) :
  LazyDict.mObjsById (Asset.buffers r) !! id = None ->
  LazyDict.mDict (Asset.buffers r) = Some section ->
  FindMember section id = Some obj ->
  IsObject obj = true ->
  Z.of_nat (length (LazyDict.mObjs (Asset.buffers r))) < 2 ^ 32 ->
  (Buffer_Read obj r Buffer.Buffer).2 = Ok tt ->
  exists (r' : Asset.t) (b : Buffer.t),
    let ref := MkRef (length (LazyDict.mObjs (Asset.buffers r))) in
    LazyDict_Get (T := Buffer.t) id r = (r', Ok ref)
    /\ deref (Asset.buffers r') ref = Some b
    /\ Buffer.id b = id
    /\ Buffer.name b = default "" (FindString obj "name")
    /\ Asset.mUsedIds r' !! id = Some 1
    /\ LazyDict_Get (T := Buffer.t) id r' = (r', Ok ref).
Proof.
  intros Hnew Hsec Hmem Hobj Hn Hread.
  destruct (LazyDict_Get_Buffer_ok id r section obj Hnew Hsec Hmem Hobj Hn Hread)
    as (b & Hbid & Hbname & HGet).
  eexists _, b. cbv zeta. split; [exact HGet |]. cbn.
  split_and!; try done.
  - by apply list_lookup_middle.
  - by rewrite lookup_insert_eq.
  - unfold LazyDict_Get. cbn. unfold Buffer.TranslateId.
    by rewrite lookup_insert_eq.
Qed.

End BufferGet.

Section Chain.
Context `{ext : Externals}.

(** X4. [Get] of an accessor loads what it refers to: when the attached
    sections describe the accessor, the view it names and the buffer the
    view names, none of them read so far, one [Get] of the accessor reads
    all three and links them, so that the accessor reaches the buffer
    through its view.  A name reaches [Get] as a C string: the view and the
    buffer are the members called by the names up to their first NUL, and
    carry those as identifiers. *)
Theorem LazyDict_Get_Accessor_loads_chain (r : Asset.t)
  (aid vid bid : string) (asec aobj vsec vobj bsec bobj : Value) :
  (forall (r0 : Asset.t) (id : string), Object_TranslateId r0 id = id) ->
  LazyDict.mDict (Asset.accessors r) = Some asec ->
  FindMember asec aid = Some aobj -> IsObject aobj = true ->
  FindString aobj "bufferView" = Some vid ->
  LazyDict.mDict (Asset.bufferViews r) = Some vsec ->
  FindMember vsec (c_str vid) = Some vobj -> IsObject vobj = true ->
  FindString vobj "buffer" = Some bid ->
  LazyDict.mDict (Asset.buffers r) = Some bsec ->
  FindMember bsec (c_str bid) = Some bobj -> IsObject bobj = true ->
  (Buffer_Read bobj r Buffer.Buffer).2 = Ok tt ->
  LazyDict.mObjsById (Asset.accessors r) !! aid = None ->
  LazyDict.mObjsById (Asset.bufferViews r) !! c_str vid = None ->
  LazyDict.mObjsById (Asset.buffers r) !! c_str bid = None ->
  Z.of_nat (length (LazyDict.mObjs (Asset.accessors r))) < 2 ^ 32 ->
  Z.of_nat (length (LazyDict.mObjs (Asset.bufferViews r))) < 2 ^ 32 ->
  Z.of_nat (length (LazyDict.mObjs (Asset.buffers r))) < 2 ^ 32 ->
  exists (r' : Asset.t) (ref : Ref Accessor.t) (acc : Accessor.t)
         (bv : BufferView.t) (b : Buffer.t),
    LazyDict_Get (T := Accessor.t) aid r = (r', Ok ref)
    /\ deref (Asset.accessors r') ref = Some acc
    /\ Accessor.id acc = aid
    /\ deref (Asset.bufferViews r') (Accessor.bufferView acc) = Some bv
    /\ BufferView.id bv = c_str vid
    /\ deref (Asset.buffers r') (BufferView.buffer bv) = Some b
    /\ Buffer.id b = c_str bid
    /\ Accessor_buffer r' acc = Some b.
Proof.
  intros Hid Hasec Haobj Haisobj Hview Hvsec Hvobj Hvisobj Hbuf Hbsec Hbobj
    Hbisobj Hread Hanew Hvnew Hbnew Hna Hnv Hnb.
  destruct (LazyDict_Get_Buffer_ok (c_str bid) r bsec bobj Hbnew Hbsec Hbobj
              Hbisobj Hnb Hread) as (b & Hbid & _ & HGetb).
  set (r1 := Asset.set_mUsedIds (<[c_str bid := 1]> (Asset.mUsedIds r))
               (Asset.set_buffers
                  (LazyDict.push (c_str bid) b (Asset.buffers r)) r))
    in HGetb.
  assert (deref (Asset.buffers r1)
            (MkRef (length (LazyDict.mObjs (Asset.buffers r)))) = Some b) as Hb.
  { subst r1. cbn. by apply list_lookup_middle. }
  assert (Asset.bufferViews r1 = Asset.bufferViews r
          /\ Asset.accessors r1 = Asset.accessors r) as [Hv1 Ha1] by done.
  set (nv := length (LazyDict.mObjs (Asset.bufferViews r))).
  set (bv := {| BufferView.id := c_str vid;
                BufferView.name := default "" (FindString vobj "name");
                BufferView.buffer := MkRef (length (LazyDict.mObjs (Asset.buffers r)));
                BufferView.byteOffset := MemberOrDefault_uint UINT32_MAX vobj "byteOffset" 0;
                BufferView.byteLength := MemberOrDefault_uint UINT32_MAX vobj "byteLength" 0 |}).
  set (r2 := Asset.set_mUsedIds (<[c_str vid := 1]> (Asset.mUsedIds r1))
               (Asset.set_bufferViews
                  (LazyDict.push (c_str vid) bv (Asset.bufferViews r1)) r1)).
  assert (LazyDict_Get (T := BufferView.t) (c_str vid) r
          = (r2, Ok (MkRef nv))) as HGetv.
  { unfold LazyDict_Get. cbn [T_TranslateId T_dict BufferView_DictObject].
    rewrite Hid, Hvnew, Hvsec, Hvobj, Hvisobj. cbn [negb].
    unfold bind at 1. cbn [T_Read T_new T_set_id T_set_name BufferView_DictObject].
    unfold BufferView_Read, MemberOrDefault_str. rewrite Hbuf.
    unfold bind, ret. rewrite HGetb.
    unfold LazyDict_Add. cbn [T_dict T_set_dict T_id BufferView_DictObject].
    rewrite Hv1. rewrite unsigned_small by lia. rewrite Nat2Z.id.
    subst r2 bv nv. unfold LazyDict.push. rewrite Hv1.
    by destruct (FindString vobj "name"). }
  (* the accessor *)
  set (na := length (LazyDict.mObjs (Asset.accessors r))).
  set (acc := {| Accessor.id := aid;
                 Accessor.name := default "" (FindString aobj "name");
                 Accessor.bufferView := MkRef nv;
                 Accessor.byteOffset :=
                   MemberOrDefault_uint UINT32_MAX aobj "byteOffset" 0;
                 Accessor.byteStride :=
                   MemberOrDefault_uint UINT32_MAX aobj "byteStride" 0;
                 Accessor.componentType :=
                   match FindMember aobj "componentType" with
                   | Some v => default ComponentType_BYTE (ReadComponentType v)
                   | None => ComponentType_BYTE
                   end;
                 Accessor.count := MemberOrDefault_uint UINT32_MAX aobj "count" 0;
                 Accessor.type :=
                   match FindString aobj "type" with
                   | Some typestr => AttribType_FromString (c_str typestr)
                   | None => AttribType.SCALAR
                   end |}).
  assert (LazyDict_Get (T := Accessor.t) aid r
          = (Asset.set_mUsedIds (<[aid := 1]> (Asset.mUsedIds r2))
               (Asset.set_accessors
                  (LazyDict.push aid acc (Asset.accessors r2)) r2),
             Ok (MkRef na))) as HGeta.
  { unfold LazyDict_Get. cbn [T_TranslateId T_dict Accessor_DictObject].
    rewrite Hid, Hanew, Hasec, Haobj, Haisobj. cbn [negb].
    unfold bind at 1.
    cbn [T_Read T_new T_set_id T_set_name Accessor_DictObject].
    unfold Accessor_Read, MemberOrDefault_str. rewrite Hview.
    unfold bind, ret. rewrite HGetv.
    unfold LazyDict_Add. cbn [T_dict T_set_dict T_id Accessor_DictObject].
    subst r2. cbn [Asset.accessors Asset.set_mUsedIds Asset.set_bufferViews].
    rewrite Ha1. rewrite unsigned_small by lia. rewrite Nat2Z.id.
    unfold LazyDict.push. subst acc.
    by destruct (FindString aobj "name"). }
  assert (Accessor.id acc = aid) as Haid by done.
  assert (Accessor.bufferView acc = MkRef nv) as Habv by done.
  eexists _, (MkRef na), acc, bv, b.
  split; [exact HGeta |].
  assert (deref (Asset.bufferViews r2) (MkRef nv) = Some bv) as Hbv.
  { subst r2 nv. cbn. by apply list_lookup_middle. }
  assert (deref (Asset.buffers r2) (BufferView.buffer bv) = Some b) as Hbb.
  { subst r2 bv. cbn in *. done. }
  split_and!.
  - cbn. subst r2 na. cbn. by apply list_lookup_middle.
  - done.
  - rewrite Habv. exact Hbv.
  - done.
  - exact Hbb.
  - done.
  - unfold Accessor_buffer. cbn [Asset.bufferViews Asset.buffers
      Asset.set_mUsedIds Asset.set_accessors]. rewrite Habv, Hbv. cbn [mbind option_bind].
    exact Hbb.
Qed.

End Chain.

(** ** Loading a buffer from a file *)

(** X5. [LoadFromStream] asked for [length > 0] bytes at [baseOffset]
    sets [byteLength] to [length] and returns [true] exactly when the file
    holds that many bytes from the offset on; the storage then holds
    exactly those bytes.  Asked for a length of 0 it takes the size of the
    file as the length (and so succeeds only from offset 0 of a file that
    is not empty). *)
Theorem LoadFromStream_reads_range (file : list byte) (length baseOffset : Z)
  (b : Buffer.t) :
  0 <= baseOffset -> 0 <= length ->
  let size := Z.of_nat (List.length file) in
  let wanted := if bool_decide (length = 0) then size else length in
  exists b' : Buffer.t,
    Buffer_LoadFromStream file length baseOffset b
    = (b', Ok (bool_decide (0 < wanted /\ baseOffset + wanted <= size)))
    /\ Buffer.byteLength b' = wanted
    /\ (0 < wanted -> baseOffset + wanted <= size ->
        Buffer.mData b'
        = Some (bytes (take (Z.to_nat wanted) (drop (Z.to_nat baseOffset) file)))).
Proof.
  intros Hoff Hlen size wanted. unfold Buffer_LoadFromStream.
  fold size. fold wanted. cbn [Buffer.byteLength Buffer.set_byteLength].
  eexists. split_and!.
  - f_equal. f_equal. apply bool_decide_ext. rewrite length_drop. subst size. lia.
  - done.
  - intros Hpos Hfit. cbn. f_equal. unfold bytes.
    rewrite resize_le; [by rewrite fmap_take |].
    rewrite length_fmap, length_drop. subst size. lia.
Qed.

Section ReadingFiles.
Context `{ext : Externals}.

(** X6. [Buffer::Read] of a buffer whose uri is no data-URI and whose
    stated length is not 0 opens the file of that name, the uri taken as a
    C string, under the directory of the asset (a "/" is put between the
    two unless the directory is empty or ends with one): without such a
    file the read throws; with a file of at least the stated length the
    buffer holds the first [byteLength] bytes of it; a shorter file makes
    the read throw. *)
Theorem Buffer_Read_local_file (obj : Value) (r : Asset.t) (uri : string)
  (b : Buffer.t) :
  FindString obj "uri" = Some uri ->
  ParseDataURI uri = None ->
  let stated := MemberOrDefault_uint SIZE_MAX obj "byteLength" 0 in
  let dir := Asset.mCurrentAssetDir r in
  let path :=
    match dir with
    | EmptyString => c_str uri
    | String c s =>
        if bool_decide (string_back c s = "/"%char) then dir +:+ c_str uri
        else (dir +:+ "/") +:+ c_str uri
    end in
  0 < stated ->
  match Asset.mIOSystem r path with
  | None =>
      (Buffer_Read obj r b).2
      = Throw (IOError "BVH: could not open referenced file")
  | Some file =>
      if bool_decide (stated <= Z.of_nat (length file))
      then exists b' : Buffer.t,
             Buffer_Read obj r b = (b', Ok tt)
             /\ Buffer.byteLength b' = stated
             /\ Buffer.mData b' = Some (bytes (take (Z.to_nat stated) file))
      else (Buffer_Read obj r b).2
           = Throw (IOError "BVH: error while reading referenced file")
  end.
Proof.
  intros Huri Hparse stated dir path Hpos.
  unfold Buffer_Read. fold stated. rewrite Huri, Hparse.
  cbn [Buffer.byteLength Buffer.set_byteLength].
  rewrite bool_decide_eq_true_2 by lia. unfold Asset.OpenFile. fold dir.
  assert ((match dir with
           | EmptyString => ""
           | String c s =>
               if bool_decide (string_back c s = "/"%char) then dir
               else dir +:+ "/"
           end) +:+ c_str uri = path) as ->.
  { subst path. destruct dir as [| c s]; [done |]. by case_bool_decide. }
  destruct (Asset.mIOSystem r path) as [file|]; [| done].
  unfold Buffer_LoadFromStream.
  cbn [Buffer.byteLength Buffer.set_byteLength].
  rewrite (bool_decide_eq_false_2 (stated = 0)) by lia.
  change (Z.to_nat 0) with 0%nat. rewrite drop_0.
  destruct (decide (stated <= Z.of_nat (length file))) as [Hfit | Hshort].
  - rewrite (bool_decide_eq_true_2 (stated <= _)) by done.
    rewrite bool_decide_eq_true_2 by lia.
    eexists. split; [reflexivity |]. cbn. split; [done |]. f_equal.
    unfold bytes. rewrite resize_le; [by rewrite fmap_take |].
    rewrite length_fmap. lia.
  - rewrite (bool_decide_eq_false_2 (stated <= _)) by done.
    by rewrite bool_decide_eq_false_2 by lia.
Qed.

End ReadingFiles.

(** ** Selecting an encoded region *)

Lemma find_region_None (pID : string) (l : list Buffer.SEncodedRegion) (i : nat) :
  Forall (fun x => Buffer.ID x <> pID) l -> Buffer.find_region pID l i = None.
Proof.
  intros Hl. revert i. induction Hl as [| x l Hx Hl IH]; intros i; cbn; [done |].
  rewrite bool_decide_eq_false_2 by done. apply IH.
Qed.

Lemma find_region_Some (pID : string) (l : list Buffer.SEncodedRegion)
  (i j : nat) :
  Buffer.find_region pID l i = Some j ->
  (i <= j)%nat
  /\ exists reg : Buffer.SEncodedRegion,
       l !! (j - i)%nat = Some reg /\ Buffer.ID reg = pID
       /\ Forall (fun x => Buffer.ID x <> pID) (take (j - i) l).
Proof.
  revert i. induction l as [| x l IH]; intros i; cbn; [done |].
  case_bool_decide as Hx.
  - intros [= <-]. split; [lia |]. exists x. rewrite Nat.sub_diag. by cbn.
  - intros (Hle & reg & Hreg & Hid & Hbefore)%IH. split; [lia |].
    exists reg. replace (j - i)%nat with (S (j - S i)) by lia. cbn.
    split_and!; [done | done |]. by constructor.
Qed.

(** X7. A successful [EncodedRegion_SetCurrent] leaves a region of the
    asked ID current and nothing else of the buffer changed; when the region
    was searched for, it is the first of the list with that ID. *)
Theorem EncodedRegion_SetCurrent_selects (pID : string) (b b' : Buffer.t) :
  Buffer.EncodedRegion_SetCurrent pID b = (b', Ok tt) ->
  exists (i : nat) (reg : Buffer.SEncodedRegion),
    b' = Buffer.set_EncodedRegion_Current (Some i) b
    /\ Buffer.EncodedRegion_List b !! i = Some reg
    /\ Buffer.current_region b' = Some reg
    /\ Buffer.ID reg = pID
    /\ (Buffer.current_region b = Some reg
        \/ Forall (fun x => Buffer.ID x <> pID)
             (take i (Buffer.EncodedRegion_List b))).
Proof.
  unfold Buffer.EncodedRegion_SetCurrent.
  assert (forall j : nat,
            Buffer.find_region pID (Buffer.EncodedRegion_List b) 0 = Some j ->
            exists reg : Buffer.SEncodedRegion,
              Buffer.EncodedRegion_List b !! j = Some reg
              /\ Buffer.current_region (Buffer.set_EncodedRegion_Current (Some j) b)
                 = Some reg
              /\ Buffer.ID reg = pID
              /\ Forall (fun x => Buffer.ID x <> pID)
                   (take j (Buffer.EncodedRegion_List b))) as Hfound.
  { intros j (_ & reg & Hreg & Hid & Hbefore)%find_region_Some.
    rewrite Nat.sub_0_r in *. exists reg. by split_and!. }
  destruct (Buffer.current_region b) as [cur|] eqn:Hcur.
  - case_bool_decide as Hid.
    + intros [= <-]. unfold Buffer.current_region in Hcur.
      destruct (Buffer.EncodedRegion_Current b) as [i|] eqn:Hi; [| done].
      cbn in Hcur. exists i, cur. split_and!; try done; [| | by left].
      * destruct b; cbn in *. by subst.
      * unfold Buffer.current_region. cbn. by rewrite Hi.
    + destruct (Buffer.find_region pID (Buffer.EncodedRegion_List b) 0)
        as [j|] eqn:Hj; [| done].
      intros [= <-]. destruct (Hfound j eq_refl) as (reg & ? & ? & ? & ?).
      exists j, reg. split_and!; try done. by right.
  - destruct (Buffer.find_region pID (Buffer.EncodedRegion_List b) 0)
      as [j|] eqn:Hj; [| done].
    intros [= <-]. destruct (Hfound j eq_refl) as (reg & ? & ? & ? & ?).
    exists j, reg. split_and!; try done. by right.
Qed.

(** X8. [EncodedRegion_SetCurrent] with an ID no region of the buffer
    carries throws [NotFound] and leaves the buffer, its current region
    included, as it was. *)
Theorem EncodedRegion_SetCurrent_unknown (pID : string) (b : Buffer.t) :
  Forall (fun x => Buffer.ID x <> pID) (Buffer.EncodedRegion_List b) ->
  Buffer.EncodedRegion_SetCurrent pID b = (b, Throw (NotFound pID)).
Proof.
  intros Hl. unfold Buffer.EncodedRegion_SetCurrent.
  rewrite (find_region_None _ _ _ Hl).
  destruct (Buffer.current_region b) as [cur|] eqn:Hcur; [| done].
  rewrite bool_decide_eq_false_2; [done |].
  unfold Buffer.current_region in Hcur.
  destruct (Buffer.EncodedRegion_Current b) as [i|]; [| done]. cbn in Hcur.
  by apply (Forall_lookup_1 _ _ _ _ Hl Hcur).
Qed.

(** ** Appending twice *)

(** What [AppendData] does to a well-formed buffer: the offset returned,
    the new length, the appended bytes, and the bytes that were there. *)
Lemma AppendData_ok (b : Buffer.t) (data : list byte) :
  Buffer.wf b ->
  Buffer.byteLength b + Z.of_nat (length data) <= SIZE_MAX ->
  exists b' : Buffer.t,
    Buffer.AppendData (Some (bytes data)) (Z.of_nat (length data)) b
    = (b', Ok (Buffer.byteLength b))
    /\ Buffer.byteLength b' = Buffer.byteLength b + Z.of_nat (length data)
    /\ Buffer.wf b'
    /\ (forall (i : nat) (x : byte), data !! i = Some x ->
          Buffer.raw_at b' (Buffer.byteLength b + Z.of_nat i) = Some (Some x))
    /\ (forall k : Z, 0 <= k < Buffer.byteLength b ->
          Buffer.raw_at b' k = Buffer.raw_at b k).
Proof.
  intros Hwf Hfit.
  pose proof (AppendData_wf b data Hwf Hfit) as Hwf'.
  set (n := Z.of_nat (length data)) in *.
  assert (length (bytes data) = length data) as Hlb
    by (unfold bytes; apply length_fmap).
  destruct (decide (n = 0)) as [Hz | Hnz].
  - assert (data = []) as -> by (destruct data; [done | cbn in n; lia]).
    subst n. change (Z.of_nat (length [])) with 0 in *.
    change (bytes []) with (@nil cell) in *.
    unfold Buffer.AppendData, bind, get, Buffer.Grow in *.
    rewrite bool_decide_eq_true_2 in * by lia.
    destruct Hwf as [Hlive Hcap]. unfold Buffer.allocated in *.
    destruct (Buffer.mData b) as [d|] eqn:Hd.
    + unfold memcpy_ptr in *.
      destruct (memcpy d (Buffer.byteLength b) [] 0 0) as [d'|] eqn:Hcpy.
      2: { rewrite memcpy_Some in Hcpy by (cbn; lia). done. }
      cbn in Hwf'. eexists. split; [reflexivity |].
      split_and!; [cbn; lia | done | done |].
      intros k Hk. unfold Buffer.raw_at. cbn. rewrite Hd.
      rewrite bool_decide_eq_true_2 by lia.
      rewrite_cells (memcpy_lookup _ _ _ _ _ _ k Hcpy ltac:(lia)).
      rewrite bool_decide_eq_false_2; [done | lia].
    + cbn. exists b. split_and!; try done. lia.
  - destruct (Grow_ok b n) as (b1 & d1 & HG & Hd1 & Hbl & Hlen & _ & _ & _ & Hkeep);
      [lia | done | done |].
    assert (exists d2, memcpy d1 (Buffer.byteLength b) (bytes data) 0 n = Some d2)
      as [d2 Hcpy].
    { destruct Hwf as [Hlive _].
      eexists. apply memcpy_Some; [lia.. | rewrite Hlb; lia | lia]. }
    assert (Buffer.AppendData (Some (bytes data)) n b
            = (Buffer.set_mData (Some d2) b1, Ok (Buffer.byteLength b))) as Hrun.
    { unfold Buffer.AppendData, bind, get. rewrite HG, Hd1. cbn. by rewrite Hcpy. }
    rewrite Hrun in Hwf'. exists (Buffer.set_mData (Some d2) b1).
    destruct Hwf as [Hlive _].
    split_and!; [done | done | done | |].
    + intros i x Hi. unfold Buffer.raw_at. cbn.
      rewrite bool_decide_eq_true_2 by lia.
      rewrite_cells (memcpy_lookup _ _ _ _ _ _ (Buffer.byteLength b + Z.of_nat i)
                       Hcpy ltac:(lia)).
      apply lookup_lt_Some in Hi as Hlt.
      rewrite bool_decide_eq_true_2 by lia.
      replace (Z.to_nat (0 + (Buffer.byteLength b + Z.of_nat i
                              - Buffer.byteLength b))) with i by lia.
      unfold bytes. by rewrite list_lookup_fmap, Hi.
    + intros k Hk. unfold Buffer.raw_at at 1. cbn.
      rewrite bool_decide_eq_true_2 by lia.
      rewrite_cells (memcpy_lookup _ _ _ _ _ _ k Hcpy ltac:(lia)).
      rewrite bool_decide_eq_false_2 by lia. by apply Hkeep.
Qed.

(** X11. Two [AppendData] calls in a row on a well-formed buffer: the
    second returns the first offset plus the first length, the bytes of
    both stand in the raw storage from their offsets on, the bytes the
    buffer held before stay, and the buffer stays well formed. *)
Theorem AppendData_twice (b : Buffer.t) (data1 data2 : list byte) :
  Buffer.wf b ->
  Buffer.byteLength b + Z.of_nat (length data1) + Z.of_nat (length data2)
  <= SIZE_MAX ->
  exists b1 b2 : Buffer.t,
    let off1 := Buffer.byteLength b in
    let off2 := Buffer.byteLength b + Z.of_nat (length data1) in
    Buffer.AppendData (Some (bytes data1)) (Z.of_nat (length data1)) b
    = (b1, Ok off1)
    /\ Buffer.AppendData (Some (bytes data2)) (Z.of_nat (length data2)) b1
       = (b2, Ok off2)
    /\ Buffer.byteLength b2 = off2 + Z.of_nat (length data2)
    /\ Buffer.wf b2
    /\ (forall (i : nat) (x : byte), data1 !! i = Some x ->
          Buffer.raw_at b2 (off1 + Z.of_nat i) = Some (Some x))
    /\ (forall (i : nat) (x : byte), data2 !! i = Some x ->
          Buffer.raw_at b2 (off2 + Z.of_nat i) = Some (Some x))
    /\ (forall k : Z, 0 <= k < off1 -> Buffer.raw_at b2 k = Buffer.raw_at b k).
Proof.
  intros Hwf Hfit.
  destruct (AppendData_ok b data1 Hwf ltac:(lia))
    as (b1 & Hrun1 & Hlen1 & Hwf1 & Hnew1 & Hold1).
  destruct (AppendData_ok b1 data2 Hwf1 ltac:(lia))
    as (b2 & Hrun2 & Hlen2 & Hwf2 & Hnew2 & Hold2).
  exists b1, b2. cbv zeta. rewrite Hlen1 in *.
  destruct Hwf as [Hlive _].
  split_and!; try done.
  - intros i x Hi. apply lookup_lt_Some in Hi as Hlt.
    rewrite Hold2 by lia. by apply Hnew1.
  - intros k Hk. rewrite Hold2 by lia. by apply Hold1.
Qed.

(** ** Reading through accessors *)

(** A position inside element [i] of an array of elements of [t] bytes
    lies in no other element. *)
Lemma slot_unique (t i i' j j' : Z) :
  0 <= j < t -> 0 <= j' < t -> i * t + j = i' * t + j' -> i = i' /\ j = j'.
Proof.
  intros Hj Hj' Heq.
  destruct (Z.lt_trichotomy i i') as [Hlt | [-> | Hgt]]; [| lia |].
  - assert ((i + 1) * t <= i' * t) by (apply Z.mul_le_mono_nonneg_r; lia). lia.
  - assert ((i' + 1) * t <= i * t) by (apply Z.mul_le_mono_nonneg_r; lia). lia.
Qed.

Lemma GetElementSize_range (a : Accessor.t) : 1 <= Accessor.GetElementSize a <= 64.
Proof.
  unfold Accessor.GetElementSize, Accessor.GetNumComponents,
    Accessor.GetBytesPerComponent.
  destruct (Accessor.type a), (Accessor.componentType a); by vm_compute.
Qed.

(** A pointer [GetPointer] returns lies at or after the start of the
    allocation it points into. *)
Lemma Accessor_GetPointer_offset (r : Asset.t) (a : Accessor.t) (p : pointer)
  (b : Buffer.t) (src : list cell) (off : Z) :
  Accessor_GetPointer r a = Some p -> pointee b p = Some (src, off) -> 0 <= off.
Proof.
  unfold Accessor_GetPointer.
  destruct (deref (Asset.bufferViews r) (Accessor.bufferView a)) as [bv|]; [| done].
  destruct (deref (Asset.buffers r) (BufferView.buffer bv)) as [b0|]; [| done].
  destruct (Buffer.GetPointer b0); [| done].
  assert (0 <= size_t (Accessor.byteOffset a + BufferView.byteOffset bv)) as Hpos.
  { unfold size_t. apply Z.mod_pos_bound. lia. }
  destruct (Buffer.current_region b0) as [cur|].
  - case_bool_decide as Hin; intros [= <-]; cbn.
    + destruct (Buffer.current_region b); [| done]. cbn. intros [= _ <-]. lia.
    + destruct (Buffer.mData b); [| done]. cbn. by intros [= _ <-].
  - intros [= <-]. cbn. destruct (Buffer.mData b); [| done]. cbn.
    by intros [= _ <-].
Qed.

Lemma extract_elements_cells (src : list cell) (off stride e t : Z) (n : nat) :
  0 <= off -> 0 <= stride -> 0 <= e <= t ->
  forall (i : Z) (out : list cell),
    0 <= i ->
    ((0 < n)%nat ->
     off + (i + Z.of_nat n - 1) * stride + e <= Z.of_nat (length src)) ->
    (i + Z.of_nat n) * t <= Z.of_nat (length out) ->
    exists out' : list cell,
      extract_elements n i out src off stride e t = Some out'
      /\ length out' = length out
      /\ (forall i' j : Z, i <= i' < i + Z.of_nat n -> 0 <= j < e ->
            out' !! Z.to_nat (i' * t + j) = src !! Z.to_nat (off + i' * stride + j))
      /\ (forall k : Z, 0 <= k ->
            (forall i' j : Z, i <= i' < i + Z.of_nat n -> 0 <= j < e ->
               k <> i' * t + j) ->
            out' !! Z.to_nat k = out !! Z.to_nat k).
Proof.
  intros Hoff Hstride He. induction n as [| n IH]; intros i out Hi Hsrc Hout.
  - exists out. cbn. split_and!; [done | done | lia | done].
  - cbn [extract_elements].
    destruct (memcpy out (i * t) src (off + i * stride) e) as [o1|] eqn:Hcpy.
    2: { rewrite memcpy_Some in Hcpy; [done | nia.. ]. }
    pose proof (memcpy_length _ _ _ _ _ _ Hcpy) as Hlen1.
    cbn [mbind option_bind].
    destruct (IH (i + 1) o1) as (out' & Hrun & Hlen & Hin & Hrest);
      [lia | intros Hpos; rewrite <- Hsrc by lia; nia | rewrite Hlen1; nia |].
    exists out'. split_and!; [done | congruence | |].
    + intros i' j Hi' Hj. destruct (decide (i' = i)) as [-> | Hne].
      * rewrite Hrest; [| nia | intros i2 j2 Hi2 Hj2; nia].
        rewrite_cells (memcpy_lookup _ _ _ _ _ _ (i * t + j) Hcpy ltac:(nia)).
        rewrite bool_decide_eq_true_2 by lia. f_equal. lia.
      * apply Hin; lia.
    + intros k Hk Hfar. rewrite Hrest; [| done | intros i2 j2 Hi2 Hj2; apply Hfar; lia].
      rewrite_cells (memcpy_lookup _ _ _ _ _ _ k Hcpy Hk).
      rewrite bool_decide_eq_false_2; [done |].
      intros Hin'. apply (Hfar i (k - i * t)); lia.
Qed.

(** X12. [ExtractData] through an accessor bound to data, into elements
    of [sizeof_T] bytes at least as large as the accessor's own: the result
    has room for [count] elements, element [i] holds in its first bytes the
    element the accessor addresses at [i] times the stride (the element
    size when [byteStride] is 0), and the bytes of the target element that
    the accessor's element does not reach are never written. *)
Theorem ExtractData_elements (sizeof_T : Z) (r : Asset.t) (a : Accessor.t)
  (p : pointer) (b : Buffer.t) (src : list cell) (off : Z) :
  Accessor_GetPointer r a = Some p ->
  Accessor_buffer r a = Some b ->
  pointee b p = Some (src, off) ->
  let e := Accessor.GetElementSize a in
  let stride := if bool_decide (Accessor.byteStride a = 0) then e
                else Accessor.byteStride a in
  let n := Accessor.count a in
  0 <= n -> 0 <= Accessor.byteStride a -> e <= sizeof_T ->
  e * n <= SIZE_MAX ->
  off <= Z.of_nat (length src) ->
  (0 < n -> off + (n - 1) * stride + e <= Z.of_nat (length src)) ->
  exists out : list cell,
    Accessor_ExtractData sizeof_T r a = Ok (Some out)
    /\ Z.of_nat (length out) = sizeof_T * n
    /\ (forall i j : Z, 0 <= i < n -> 0 <= j < e ->
          out !! Z.to_nat (i * sizeof_T + j)
          = src !! Z.to_nat (off + i * stride + j))
    /\ (forall i j : Z, 0 <= i < n -> e <= j < sizeof_T ->
          out !! Z.to_nat (i * sizeof_T + j) = Some None).
Proof.
  intros Hp Hb Hpointee e stride n Hn Hbs Het Hmax Hoffle Hsrc.
  pose proof (Accessor_GetPointer_offset _ _ _ _ _ _ Hp Hpointee) as Hoff.
  pose proof (GetElementSize_range a) as He. fold e in He.
  assert (0 <= stride) as Hstride by (subst stride; case_bool_decide; lia).
  unfold Accessor_ExtractData. rewrite Hp, Hb. cbn [mbind option_bind].
  rewrite Hpointee. fold e. fold n. fold stride.
  assert (forall k : Z, 0 <= k < sizeof_T * n ->
            new_array (sizeof_T * n) !! Z.to_nat k = Some None) as Hfresh.
  { intros k Hk. unfold new_array. apply lookup_replicate_2. lia. }
  case_bool_decide as Hbulk.
  - destruct Hbulk as [Hs Ht]. rewrite Hs, Ht in *. rewrite size_t_small by nia.
    destruct (memcpy (new_array (e * n)) 0 src off (e * n)) as [out|] eqn:Hcpy.
    2: { rewrite memcpy_Some in Hcpy; [done | nia.. | | rewrite length_new_array; nia].
         destruct (decide (n = 0)) as [Hz | Hnz]; [rewrite Hz; lia |].
         specialize (Hsrc ltac:(lia)). nia. }
    exists out. split_and!; [done | | |].
    + rewrite (memcpy_length _ _ _ _ _ _ Hcpy), length_new_array. nia.
    + intros i j Hi Hj.
      rewrite_cells (memcpy_lookup _ _ _ _ _ _ (i * e + j) Hcpy ltac:(nia)).
      rewrite bool_decide_eq_true_2 by nia. f_equal. lia.
    + intros i j Hi [Hj1 Hj2]. exfalso.
      exact (Z.lt_irrefl _ (Z.le_lt_trans _ _ _ Hj1 Hj2)).
  - destruct (extract_elements_cells src off stride e sizeof_T (Z.to_nat n)
                Hoff Hstride ltac:(lia) 0 (new_array (sizeof_T * n)))
      as (out & Hrun & Hlen & Hin & Hrest).
    { done. }
    { intros Hpos. rewrite Z2Nat.id by lia. rewrite <- Hsrc by lia. lia. }
    { rewrite length_new_array. rewrite Z2Nat.id by lia. nia. }
    rewrite Hrun. exists out. rewrite Z2Nat.id in * by lia.
    split_and!; [done | | |].
    + rewrite Hlen, length_new_array. nia.
    + intros i j Hi Hj. apply Hin; lia.
    + intros i j Hi Hj. rewrite Hrest; [apply Hfresh; nia | nia |].
      intros i' j' Hi' Hj' Heq.
      destruct (slot_unique sizeof_T i i' j j') as [_ Hjj]; [lia | lia | done |].
      lia.
Qed.

(** ** Strided copies *)

Lemma memset_zero_Some (dst : list cell) (doff n : Z) :
  0 <= doff -> 0 <= n -> doff + n <= Z.of_nat (length dst) ->
  exists out : list cell,
    memset_zero dst doff n = Some out
    /\ length out = length dst
    /\ forall k : Z, 0 <= k ->
         out !! Z.to_nat k
         = if bool_decide (doff <= k < doff + n) then Some (Some x00)
           else dst !! Z.to_nat k.
Proof.
  intros Hoff Hn Hfit. unfold memset_zero.
  rewrite bool_decide_eq_true_2 by lia. eexists. split; [reflexivity |].
  unfold cell in *. split.
  - rewrite !length_app, length_take, length_replicate, length_drop. lia.
  - intros k Hk. case_bool_decide as Hin.
    + rewrite lookup_app_r by (rewrite length_take; lia).
      rewrite length_take.
      rewrite lookup_app_l by (rewrite length_replicate; lia).
      apply lookup_replicate_2. lia.
    + destruct (decide (k < doff)) as [Hlt | Hge].
      * rewrite lookup_app_l by (rewrite length_take; lia).
        by rewrite lookup_take_lt by lia.
      * rewrite lookup_app_r by (rewrite length_take; lia).
        rewrite length_take.
        rewrite lookup_app_r by (rewrite length_replicate; lia).
        rewrite length_replicate, lookup_drop. f_equal. lia.
Qed.

Lemma CopyData_loop_cells (src : list cell) (ss ds : Z) (n : nat) :
  0 <= ss -> 0 <= ds ->
  forall (soff doff : Z) (dst : list cell),
    0 <= soff -> 0 <= doff ->
    ((0 < n)%nat ->
     soff + (Z.of_nat n - 1) * ss + Z.min ss ds <= Z.of_nat (length src)) ->
    doff + Z.of_nat n * ds <= Z.of_nat (length dst) ->
    exists out : list cell,
      CopyData_loop n src soff ss dst doff ds (Z.min ss ds) = Some out
      /\ length out = length dst
      /\ (forall i j : Z, 0 <= i < Z.of_nat n -> 0 <= j < ds ->
            out !! Z.to_nat (doff + i * ds + j)
            = if bool_decide (j < ss) then src !! Z.to_nat (soff + i * ss + j)
              else Some (Some x00))
      /\ (forall k : Z, 0 <= k -> k < doff \/ doff + Z.of_nat n * ds <= k ->
            out !! Z.to_nat k = dst !! Z.to_nat k).
Proof.
  intros Hss Hds. induction n as [| n IH]; intros soff doff dst Hsoff Hdoff Hsrc Hdst.
  - exists dst. cbn. split_and!; [done | done | lia | done].
  - cbn [CopyData_loop].
    assert (0 <= Z.min ss ds <= ds) as Hsz by lia.
    destruct (memcpy dst doff src soff (Z.min ss ds)) as [d1|] eqn:Hcpy.
    2: { rewrite memcpy_Some in Hcpy; [done | lia.. | nia | nia]. }
    pose proof (memcpy_length _ _ _ _ _ _ Hcpy) as Hlen1.
    cbn [mbind option_bind].
    destruct (memset_zero_Some d1 (doff + Z.min ss ds) (ds - Z.min ss ds))
      as (dz & Hset & Hlenz & Hz); [lia | lia | nia |].
    set (d2 := if bool_decide (Z.min ss ds < ds)
               then memset_zero d1 (doff + Z.min ss ds) (ds - Z.min ss ds)
               else Some d1).
    assert (exists d2' : list cell,
              d2 = Some d2' /\ length d2' = length dst
              /\ forall k : Z, 0 <= k ->
                   d2' !! Z.to_nat k
                   = if bool_decide (doff <= k < doff + Z.min ss ds)
                     then src !! Z.to_nat (soff + (k - doff))
                     else if bool_decide (doff + Z.min ss ds <= k < doff + ds)
                          then Some (Some x00)
                          else dst !! Z.to_nat k) as (d2' & -> & Hlen2 & Hd2).
    { subst d2. case_bool_decide as Hlt.
      - exists dz. split_and!; [done | congruence |].
        intros k Hk. rewrite (Hz k Hk).
        rewrite_cells (memcpy_lookup _ _ _ _ _ _ k Hcpy Hk).
        repeat case_bool_decide; try done; lia.
      - exists d1. split_and!; [done | done |].
        intros k Hk. rewrite_cells (memcpy_lookup _ _ _ _ _ _ k Hcpy Hk).
        repeat case_bool_decide; try done; lia. }
    cbn [mbind option_bind].
    destruct (IH (soff + ss) (doff + ds) d2') as (out & Hrun & Hlen & Hin & Hout);
      [lia | lia | intros Hpos; nia | nia |].
    exists out. split_and!; [done | congruence | |].
    + intros i j Hi Hj. destruct (decide (i = 0)) as [-> | Hnz].
      * rewrite Hout by nia. rewrite Hd2 by lia.
        repeat case_bool_decide; try lia; [f_equal; lia | done].
      * specialize (Hin (i - 1) j).
        replace (doff + ds + (i - 1) * ds + j) with (doff + i * ds + j) in Hin by lia.
        replace (soff + ss + (i - 1) * ss + j) with (soff + i * ss + j) in Hin by lia.
        apply Hin; lia.
    + intros k Hk Hfar. rewrite Hout by nia. rewrite Hd2 by lia.
      repeat case_bool_decide; try done; nia.
Qed.

(** X13. [CopyData] of [count] elements from a source of stride
    [src_stride] to a destination of stride [dst_stride], the two ranges
    lying in their allocations: element [i] of the destination holds the
    bytes of element [i] of the source as far as the smaller stride goes
    and zero bytes after them, and nothing outside the [count] elements of
    the destination changes. *)
Theorem CopyData_elements (count : Z) (src : list cell) (soff src_stride : Z)
  (dst : list cell) (doff dst_stride : Z) :
  0 <= count -> 0 <= src_stride -> 0 <= dst_stride ->
  0 <= soff <= Z.of_nat (length src) -> 0 <= doff ->
  count * src_stride <= SIZE_MAX ->
  (0 < count ->
   soff + (count - 1) * src_stride + Z.min src_stride dst_stride
   <= Z.of_nat (length src)) ->
  doff + count * dst_stride <= Z.of_nat (length dst) ->
  exists out : list cell,
    CopyData count src soff src_stride dst doff dst_stride = Some out
    /\ length out = length dst
    /\ (forall i j : Z, 0 <= i < count -> 0 <= j < dst_stride ->
          out !! Z.to_nat (doff + i * dst_stride + j)
          = if bool_decide (j < src_stride)
            then src !! Z.to_nat (soff + i * src_stride + j)
            else Some (Some x00))
    /\ (forall k : Z, 0 <= k -> k < doff \/ doff + count * dst_stride <= k ->
          out !! Z.to_nat k = dst !! Z.to_nat k).
Proof.
  intros Hcount Hss Hds Hsoff Hdoff Hmax Hsrc Hdst. unfold CopyData.
  case_bool_decide as Heq.
  - subst dst_stride. rewrite size_t_small by nia.
    destruct (memcpy dst doff src soff (count * src_stride)) as [out|] eqn:Hcpy.
    2: { rewrite memcpy_Some in Hcpy; [done | nia.. | | done].
         destruct (decide (count = 0)) as [-> | Hnz]; [lia |].
         specialize (Hsrc ltac:(lia)). lia. }
    exists out. split_and!; [done | by eapply memcpy_length | |].
    + intros i j Hi Hj. rewrite (memcpy_lookup _ _ _ _ _ _ _ Hcpy) by nia.
      rewrite bool_decide_eq_true_2 by nia.
      rewrite bool_decide_eq_true_2 by lia. f_equal. lia.
    + intros k Hk Hfar. rewrite (memcpy_lookup _ _ _ _ _ _ _ Hcpy) by lia.
      rewrite bool_decide_eq_false_2; [done | lia].
  - destruct (CopyData_loop_cells src src_stride dst_stride (Z.to_nat count)
                Hss Hds soff doff dst) as (out & Hrun & Hlen & Hin & Hout);
      [lia | lia | intros Hpos; rewrite Z2Nat.id by lia; apply Hsrc; lia
       | rewrite Z2Nat.id by lia; done |].
    rewrite Z2Nat.id in * by lia. by exists out.
Qed.

(** ** Writing through accessors and indexed reads *)

(** X14. Elements written with [WriteData] at the accessor's own element
    size are the elements [ExtractData] then reads through the same
    accessor, when the accessor is tightly packed, its range lies in the
    storage of the buffer and no encoded region of the buffer is current;
    the bytes of the buffer outside the range stay as they were. *)
Theorem WriteData_then_ExtractData (r : Asset.t) (a : Accessor.t)
  (bv : BufferView.t) (bi : nat) (b : Buffer.t) (d src : list cell) :
  deref (Asset.bufferViews r) (Accessor.bufferView a) = Some bv ->
  BufferView.buffer bv = MkRef bi ->
  LazyDict.mObjs (Asset.buffers r) !! bi = Some b ->
  Buffer.mData b = Some d ->
  Buffer.EncodedRegion_Current b = None ->
  let e := Accessor.GetElementSize a in
  let offset := Accessor.byteOffset a + BufferView.byteOffset bv in
  Accessor.byteStride a = 0 \/ Accessor.byteStride a = e ->
  0 <= Accessor.count a ->
  Z.of_nat (length src) = e * Accessor.count a ->
  0 <= offset ->
  offset + e * Accessor.count a <= Z.of_nat (length d) <= SIZE_MAX ->
  exists (r' : Asset.t) (b' : Buffer.t),
    Accessor_WriteData (Accessor.count a) src e a r = (r', Ok tt)
    /\ Accessor_buffer r' a = Some b'
    /\ Accessor_ExtractData e r' a = Ok (Some src)
    /\ Buffer.byteLength b' = Buffer.byteLength b
    /\ forall k : Z, 0 <= k ->
         k < offset \/ offset + e * Accessor.count a <= k ->
         Buffer.raw_at b' k = Buffer.raw_at b k.
Proof.
  intros Hbv Hbuf Hb Hd Hcur e offset Hstride Hcount Hsrc Hoff Hfit.
  pose proof (GetElementSize_range a) as He. fold e in He.
  unfold Accessor_WriteData. rewrite Hbv, Hbuf. cbn [deref]. rewrite Hb.
  unfold Buffer.GetPointer. rewrite Hd. fold offset.
  change (unsigned (Accessor.GetNumComponents a * Accessor.GetBytesPerComponent a))
    with e.
  rewrite (size_t_small offset) by lia.
  unfold CopyData. rewrite bool_decide_eq_true_2 by done.
  rewrite size_t_small by nia.
  destruct (memcpy d offset src 0 (Accessor.count a * e)) as [d'|] eqn:Hcpy.
  2: { rewrite memcpy_Some in Hcpy; [done | nia.. ]. }
  assert (read_cells d' offset (e * Accessor.count a) = Some src) as Hread.
  { rewrite <- Hsrc. apply (read_cells_memcpy d). rewrite Hsrc.
    by rewrite Z.mul_comm. }
  set (b' := Buffer.set_mData (Some d') b).
  eexists _, b'. split; [reflexivity |].
  assert (Accessor_buffer
            (Asset.set_buffers (LazyDict.store bi b' (Asset.buffers r)) r) a
          = Some b') as Hb'.
  { unfold Accessor_buffer. cbn. rewrite Hbv. cbn. rewrite Hbuf. cbn.
    apply list_lookup_insert_eq. by eapply lookup_lt_Some. }
  split_and!; [done | | done |].
  - unfold Accessor_ExtractData, Accessor_GetPointer. rewrite Hb'.
    unfold Accessor_buffer in Hb'. cbn in Hb' |- *. rewrite Hbv in Hb' |- *.
    cbn in Hb' |- *. rewrite Hb'. cbn.
    unfold Buffer.current_region. cbn. rewrite Hcur. cbn. fold offset e.
    rewrite (size_t_small offset) by lia.
    rewrite size_t_small by nia.
    rewrite bool_decide_eq_true_2.
    2: { split; [| done]. case_bool_decide; [done |]. by destruct Hstride. }
    by rewrite (memcpy_into_fresh _ _ _ _ Hread).
  - intros k Hk Hfar. unfold Buffer.raw_at. cbn. rewrite Hd.
    rewrite bool_decide_eq_true_2 by done.
    rewrite_cells (memcpy_lookup _ _ _ _ _ _ k Hcpy Hk).
    rewrite bool_decide_eq_false_2; [done | lia].
Qed.

(** X15. [GetValue(i)] of an indexer over an accessor bound to data, for
    a value type at least as large as the element: the value holds the
    bytes of the element the accessor addresses at [i] times the stride,
    and zero bytes after them. *)
Theorem Indexer_GetValue_element (sizeof_T : Z) (r : Asset.t) (a : Accessor.t)
  (p : pointer) (b : Buffer.t) (src : list cell) (off i : Z) :
  Accessor_GetPointer r a = Some p ->
  Accessor_buffer r a = Some b ->
  pointee b p = Some (src, off) ->
  let e := Accessor.GetElementSize a in
  let stride := if bool_decide (Accessor.byteStride a = 0) then e
                else Accessor.byteStride a in
  0 <= i <= INT_MAX -> 0 <= Accessor.byteStride a -> e <= sizeof_T ->
  i * stride <= SIZE_MAX ->
  off + i * stride + e <= Z.of_nat (length src) ->
  Indexer_IsValid (Accessor_GetIndexer r a) = true
  /\ Indexer_GetValue sizeof_T r (Accessor_GetIndexer r a) i
     = Some (take (Z.to_nat e) (drop (Z.to_nat (off + i * stride)) src)
             ++ replicate (Z.to_nat (sizeof_T - e)) (Some x00)).
Proof.
  intros Hp Hb Hpointee e stride Hi Hbs Het Hmax Hfit.
  pose proof (Accessor_GetPointer_offset _ _ _ _ _ _ Hp Hpointee) as Hoff.
  pose proof (GetElementSize_range a) as He. fold e in He.
  assert (0 <= stride) as Hstride by (subst stride; case_bool_decide; lia).
  split.
  { unfold Indexer_IsValid. cbn. rewrite Hp. by apply bool_decide_eq_true_2. }
  unfold Indexer_GetValue. cbn [Accessor_GetIndexer Indexer_data
    Indexer_accessor Indexer_stride Indexer_elemSize].
  rewrite Hp, Hb. cbn [mbind option_bind]. rewrite Hpointee.
  cbn [mbind option_bind]. fold e. fold stride.
  rewrite (size_t_small i) by (unfold INT_MAX, SIZE_MAX in *; lia).
  rewrite size_t_small by nia.
  rewrite memcpy_Some; [| nia.. | rewrite length_replicate; lia].
  f_equal. change (Z.to_nat 0) with 0%nat. rewrite take_0. cbn [app].
  f_equal. rewrite drop_replicate. f_equal. lia.
Qed.

(** ** Attributes of primitives *)

Section MeshSkips.
Context `{ext : Externals}.

(** X18. Members of "attributes" that are no strings, or whose key starts
    with none of the seven attribute names, are passed over: a primitive
    read from such members only is left as it was, and so is the asset. *)
Theorem read_attributes_skips (ms : list (string * Value))
  (prim : Mesh.Primitive) (r : Asset.t) :
  Forall (fun it => IsString it.2 = false \/ GetAttribVector it.1 = None) ms ->
  read_attributes ms prim r = (r, Ok prim).
Proof.
  induction 1 as [| [key v] ms Hit _ IH]; [done |].
  cbn [read_attributes]. unfold bind.
  assert (read_attribute prim (key, v) r = (r, Ok prim)) as ->; [| done].
  destruct Hit as [Hns | Hunk]; cbn in *.
  - by apply read_attribute_not_string.
  - by apply read_attribute_unknown.
Qed.

End MeshSkips.

(** ** Attribute keys *)

Lemma prefix_app_self (s rest : string) : String.prefix s (s +:+ rest) = true.
Proof.
  induction s as [| a s IH]; [by destruct rest |].
  change (String.prefix (String a s) (String a s +:+ rest))
    with (if ascii_dec a a then String.prefix s (s +:+ rest) else false).
  by destruct (ascii_dec a a).
Qed.

Lemma Compare_self (s rest : string) : Compare (s +:+ rest) s = String.length s.
Proof. unfold Compare. by rewrite prefix_app_self. Qed.

Lemma Compare_other (a b : ascii) (s t rest : string) :
  a <> b -> Compare (String b t +:+ rest) (String a s) = 0%nat.
Proof.
  intros Hne. unfold Compare.
  change (String.prefix (String a s) (String b t +:+ rest))
    with (if ascii_dec a b then String.prefix s (t +:+ rest) else false).
  by destruct (ascii_dec a b).
Qed.

Lemma string_get_app (s rest : string) :
  String.get (String.length s) (s +:+ rest) = String.get 0 rest.
Proof. induction s as [| a s IH]; [done |]. exact IH. Qed.

Lemma string_drop_app (s rest : string) :
  string_drop (String.length s) (s +:+ rest) = rest.
Proof. induction s as [| a s IH]; [done |]. exact IH. Qed.

(** The name of each attribute vector but "JOINTMATRIX" selects it, whatever
    follows the name in the key. *)
Lemma GetAttribVector_POSITION (rest : string) :
  GetAttribVector ("POSITION" +:+ rest) = Some (Mesh.POSITION, 8%nat).
Proof. unfold GetAttribVector. by rewrite Compare_self. Qed.

Lemma GetAttribVector_NORMAL (rest : string) :
  GetAttribVector ("NORMAL" +:+ rest) = Some (Mesh.NORMAL, 6%nat).
Proof.
  unfold GetAttribVector. rewrite !Compare_other by done.
  by rewrite Compare_self.
Qed.

Lemma GetAttribVector_TEXCOORD (rest : string) :
  GetAttribVector ("TEXCOORD" +:+ rest) = Some (Mesh.TEXCOORD, 8%nat).
Proof.
  unfold GetAttribVector. rewrite !Compare_other by done.
  by rewrite Compare_self.
Qed.

Lemma GetAttribVector_COLOR (rest : string) :
  GetAttribVector ("COLOR" +:+ rest) = Some (Mesh.COLOR, 5%nat).
Proof.
  unfold GetAttribVector. rewrite !Compare_other by done.
  by rewrite Compare_self.
Qed.

Lemma GetAttribVector_JOINT (rest : string) :
  GetAttribVector ("JOINT" +:+ rest) = Some (Mesh.JOINT, 5%nat).
Proof.
  unfold GetAttribVector. rewrite !Compare_other by done.
  by rewrite Compare_self.
Qed.

Lemma GetAttribVector_WEIGHT (rest : string) :
  GetAttribVector ("WEIGHT" +:+ rest) = Some (Mesh.WEIGHT, 6%nat).
Proof.
  unfold GetAttribVector. rewrite !Compare_other by done.
  by rewrite Compare_self.
Qed.
(** ** Decimal numbers *)

Lemma digit_of_pretty_N_char (d : N) :
  (d < 10)%N ->
  digit_of (pretty_N_char d) = Some (Z.of_N d)
  /\ isspace (pretty_N_char d) = false
  /\ pretty_N_char d <> "-"%char /\ pretty_N_char d <> "+"%char.
Proof.
  intros Hd.
  assert (d ∈ [0; 1; 2; 3; 4; 5; 6; 7; 8; 9]%N) as Hin.
  { rewrite !elem_of_cons. lia. }
  rewrite !elem_of_cons in Hin. rewrite elem_of_nil in Hin.
  destruct Hin as [-> | [-> | [-> | [-> | [-> | [-> | [-> | [-> | [-> | [-> | []]]]]]]]]]];
    by vm_compute.
Qed.

Lemma digits_value_pretty_N_go (k : nat) :
  forall (x : N) (s : string),
    (x < 10 ^ N.of_nat k)%N ->
    exists m : Z,
      0 <= m
      /\ forall acc : Z,
           digits_value (pretty_N_go x s) acc
           = digits_value s (acc * 10 ^ m + Z.of_N x).
Proof.
  induction k as [| k IH]; intros x s Hx.
  - assert (x = 0%N) as -> by (cbn in Hx; lia).
    exists 0. split; [done |]. intros acc. rewrite pretty_N_go_0. f_equal. lia.
  - destruct (decide (x = 0%N)) as [-> | Hnz].
    { exists 0. split; [done |]. intros acc. rewrite pretty_N_go_0. f_equal. lia. }
    rewrite pretty_N_go_step by lia.
    destruct (IH (x `div` 10)%N (String (pretty_N_char (x `mod` 10)) s))
      as (m & Hm & Hrun).
    { rewrite Nat2N.inj_succ, N.pow_succ_r' in Hx.
      apply N.Div0.div_lt_upper_bound. lia. }
    exists (m + 1). split; [lia |]. intros acc. rewrite Hrun.
    cbn [digits_value].
    destruct (digit_of_pretty_N_char (x `mod` 10)%N) as [-> _].
    { apply N.mod_lt. lia. }
    f_equal. rewrite Z.pow_add_r by lia.
    pose proof (N.div_mod x 10 ltac:(lia)) as Hdm.
    rewrite N2Z.inj_div, N2Z.inj_mod in *.
    assert (Z.of_N x = 10 * (Z.of_N x `div` 10) + Z.of_N x `mod` 10) as Hx10
      by (apply Z.div_mod; lia).
    change (Z.of_N 10) with 10. lia.
Qed.

Lemma pretty_N_go_head (k : nat) :
  forall (x : N) (s : string),
    (0 < x < 10 ^ N.of_nat k)%N ->
    exists (d : N) (rest : string),
      (d < 10)%N /\ pretty_N_go x s = String (pretty_N_char d) rest.
Proof.
  induction k as [| k IH]; intros x s Hx; [cbn in Hx; lia |].
  rewrite pretty_N_go_step by lia.
  destruct (decide (x `div` 10 = 0)%N) as [-> | Hnz].
  - rewrite pretty_N_go_0. exists (x `mod` 10)%N, s. split; [| done].
    apply N.mod_lt. lia.
  - apply IH. split; [by apply N.neq_0_lt_0 |].
    rewrite Nat2N.inj_succ, N.pow_succ_r' in Hx.
    apply N.Div0.div_lt_upper_bound. lia.
Qed.

(** [atoi] reads back what "%d" prints for a number that is not negative. *)
Lemma atoi_pretty (i : Z) : 0 <= i <= INT_MAX -> atoi (pretty i) = Some i.
Proof.
  intros Hi. destruct i as [| p | p]; [done | | lia].
  change (pretty (Z.pos p)) with (pretty (N.pos p)).
  unfold pretty, pretty_N. rewrite decide_False by done.
  destruct (pretty_N_go_head 10 (N.pos p) "") as (d & rest & Hd & Hhead).
  { unfold INT_MAX in Hi. lia. }
  destruct (digits_value_pretty_N_go 10 (N.pos p) "") as (m & Hm & Hval).
  { unfold INT_MAX in Hi. lia. }
  destruct (digit_of_pretty_N_char d Hd) as (_ & Hsp & Hminus & Hplus).
  unfold atoi. rewrite Hhead in *. cbn [skip_spaces]. rewrite Hsp.
  assert (digits_value (String (pretty_N_char d) rest) 0 = Z.pos p) as Hv.
  { rewrite Hval. cbn. lia. }
  destruct (pretty_N_char d) as [[] [] [] [] [] [] [] []] eqn:Hc;
    try (rewrite Hv; rewrite bool_decide_eq_true_2 by (unfold INT_MAX in *; lia);
         done);
    congruence.
Qed.

(** ** Writing attributes and reading them back *)

Lemma GetAttribVector_name (sem : Mesh.Semantic) (rest : string) :
  sem <> Mesh.JOINTMATRIX ->
  GetAttribVector (Semantic_name sem +:+ rest)
  = Some (sem, String.length (Semantic_name sem)).
Proof.
  intros Hsem. destruct sem; try done; cbn [Semantic_name].
  - apply GetAttribVector_POSITION.
  - apply GetAttribVector_NORMAL.
  - apply GetAttribVector_TEXCOORD.
  - apply GetAttribVector_COLOR.
  - apply GetAttribVector_JOINT.
  - apply GetAttribVector_WEIGHT.
Qed.

Lemma string_drop_app_S (s rest : string) (c : ascii) :
  string_drop (S (String.length s)) (s +:+ String c rest) = rest.
Proof. induction s as [| a s IH]; [done |]. exact IH. Qed.

Lemma string_app_nil_r (s : string) : s +:+ "" = s.
Proof.
  induction s as [| a s IH]; [done |].
  change (String a (s +:+ "") = String a s). by rewrite IH.
Qed.

Lemma int_of_small (i : Z) : 0 <= i <= INT_MAX -> int_of i = i.
Proof.
  unfold int_of, INT_MAX. intros Hi.
  rewrite Z.mod_small by lia. lia.
Qed.

Lemma set_attrib_set_attrib (sem : Mesh.Semantic) (v v' : Mesh.AccessorList)
  (a : Mesh.Attributes) :
  Mesh.set_attrib sem v' (Mesh.set_attrib sem v a) = Mesh.set_attrib sem v' a.
Proof. by destruct sem. Qed.

Section WriteReadAttributes.
Context `{ext : Externals}.

(** What one turn of the reading loop does with a key that [WriteAttrs]
    made for position [i] of a vector, the vector read so far having [i]
    slots. *)
Lemma read_attribute_written (sem : Mesh.Semantic) (key id : string) (i : Z)
  (prim : Mesh.Primitive) (r r' : Asset.t) (ref : Ref Accessor.t) :
  sem <> Mesh.JOINTMATRIX ->
  0 <= i <= INT_MAX ->
  key = Semantic_name sem +:+ "_" +:+ pretty i
  \/ (key = Semantic_name sem /\ i = 0) ->
  Z.of_nat (length (Mesh.attrib sem (Mesh.attributes prim))) = i ->
  LazyDict_Get (T := Accessor.t) (c_str id) r = (r', Ok ref) ->
  read_attribute prim (key, JString id) r
  = (r', Ok (Mesh.set_attributes
               (Mesh.set_attrib sem
                  (Mesh.attrib sem (Mesh.attributes prim) ++ [ref])
                  (Mesh.attributes prim)) prim)).
Proof.
  intros Hsem Hi Hkey Hlen HGet. unfold read_attribute. cbn [fst snd].
  assert (GetAttribVector key = Some (sem, String.length (Semantic_name sem))
          /\ (if bool_decide (String.get (String.length (Semantic_name sem)) key
                              = Some "_"%char)
              then atoi (string_drop (S (String.length (Semantic_name sem))) key)
              else Some 0) = Some i) as [-> ->].
  { destruct Hkey as [-> | [-> ->]].
    - split; [by apply GetAttribVector_name |].
      rewrite string_get_app.
      change ("_" +:+ pretty i) with (String "_" (pretty i)).
      cbn [String.get]. rewrite bool_decide_eq_true_2 by done.
      rewrite string_drop_app_S. by apply atoi_pretty.
    - pose proof (GetAttribVector_name sem "" Hsem) as Hvec.
      pose proof (string_get_app (Semantic_name sem) "") as Hget.
      rewrite string_app_nil_r in Hvec, Hget. split; [done |].
      rewrite Hget. cbn [String.get]. by rewrite bool_decide_eq_false_2. }
  unfold INT_MAX in Hi.
  rewrite (size_t_small i) by (unfold SIZE_MAX; lia).
  rewrite (size_t_small (i + 1)) by (unfold SIZE_MAX; lia).
  unfold bind. rewrite HGet.
  set (old := Mesh.attrib sem (Mesh.attributes prim)) in *.
  unfold Mesh.AccessorList in *.
  rewrite (bool_decide_eq_true_2 (Z.of_nat (length old) <= i)) by lia.
  rewrite bool_decide_eq_true_2 by (rewrite length_resize; lia).
  unfold ret. do 4 f_equal.
  replace (Z.to_nat (i + 1)) with (length old + 1)%nat by lia.
  rewrite resize_add, resize_all, drop_all. cbn [resize].
  replace (Z.to_nat i) with (length old + 0)%nat by lia.
  by rewrite insert_app_r.
Qed.

(** The members [WriteAttrs_loop] makes for the positions from [i] on are
    made whatever members came before, and reading them fills the slots
    from [i] on. *)
Lemma WriteAttrs_loop_read_back (sem : Mesh.Semantic) (r : Asset.t)
  (lst : Mesh.AccessorList) :
  sem <> Mesh.JOINTMATRIX ->
  Forall (fun ref => exists acc : Accessor.t,
            deref (Asset.accessors r) ref = Some acc
            /\ LazyDict_Get (T := Accessor.t) (c_str (Accessor.id acc)) r
               = (r, Ok ref))
         lst ->
  forall (i : Z) (prim : Mesh.Primitive),
    0 <= i -> i + Z.of_nat (length lst) <= INT_MAX + 1 ->
    Z.of_nat (length (Mesh.attrib sem (Mesh.attributes prim))) = i ->
    exists es : list (string * Value),
      (forall attrs : list (string * Value),
         WriteAttrs_loop r attrs lst (Semantic_name sem) i = Some (attrs ++ es))
      /\ read_attributes es prim r
         = (r, Ok (Mesh.set_attributes
                     (Mesh.set_attrib sem
                        (Mesh.attrib sem (Mesh.attributes prim) ++ lst)
                        (Mesh.attributes prim)) prim)).
Proof.
  intros Hsem Hreg.
  induction Hreg as [| ref lst (acc & Hacc & HGet) _ IH]; intros i prim Hi Hmax Hlen.
  - exists []. split; [intros attrs; cbn; by rewrite app_nil_r |].
    cbn. rewrite app_nil_r. unfold ret. do 2 f_equal.
    destruct prim as [m a ix mat]. cbn. f_equal. by destruct sem, a.
  - cbn [length] in Hmax.
    set (key := (ai_snprintf 32
                   (c_str (Semantic_name sem) +:+ "_" +:+ pretty (int_of i))).1).
    assert (key = Semantic_name sem +:+ "_" +:+ pretty i) as Hkey.
    { subst key. rewrite int_of_small by lia. unfold ai_snprintf. cbn [fst].
      assert (c_str (Semantic_name sem) = Semantic_name sem) as ->
        by (by destruct sem).
      apply string_take_all. rewrite !string_length_app.
      pose proof (pretty_Z_length i ltac:(unfold INT_MAX in *; lia)).
      destruct sem; cbn; lia. }
    pose proof (read_attribute_written sem key (Accessor.id acc) i prim r r ref
                  Hsem ltac:(lia) (or_introl Hkey) Hlen HGet) as Hread.
    set (prim1 := Mesh.set_attributes _ prim) in Hread.
    destruct (IH (i + 1) prim1) as (es & Hwrite & Hback); [lia | lia | |].
    { subst prim1. cbn [Mesh.attributes Mesh.set_attributes].
      rewrite attrib_set_attrib, decide_True by done.
      rewrite length_app. cbn. lia. }
    exists ((key, JString (Accessor.id acc)) :: es). split.
    + intros attrs. cbn [WriteAttrs_loop]. rewrite Hacc. cbn [mbind option_bind].
      fold key. unfold AddMember. rewrite Hwrite. by rewrite <- app_assoc.
    + cbn [read_attributes]. unfold bind. rewrite Hread, Hback.
      do 2 f_equal. subst prim1. cbn [Mesh.attributes Mesh.set_attributes].
      rewrite attrib_set_attrib, decide_True by done.
      rewrite set_attrib_set_attrib. by rewrite <- app_assoc.
Qed.

End WriteReadAttributes.

Section WriteReadMesh.
Context `{ext : Externals}.

Lemma read_attributes_app (ms1 ms2 : list (string * Value))
  (prim : Mesh.Primitive) (r : Asset.t) :
  read_attributes (ms1 ++ ms2) prim r
  = bind (read_attributes ms1 prim) (read_attributes ms2) r.
Proof.
  revert prim r. induction ms1 as [| it ms1 IH]; intros prim r; [done |].
  cbn [app read_attributes]. unfold bind.
  destruct (read_attribute prim it r) as [r1 [prim1 | e |]]; [| done | done].
  rewrite IH. done.
Qed.

Lemma set_attrib_same (sem : Mesh.Semantic) (a : Mesh.Attributes) :
  Mesh.set_attrib sem (Mesh.attrib sem a) a = a.
Proof. by destruct sem, a. Qed.

Lemma set_attributes_same (prim : Mesh.Primitive) :
  Mesh.set_attributes (Mesh.attributes prim) prim = prim.
Proof. by destruct prim. Qed.

(** One call of [WriteAttrs] adds members after those the object has, and
    reading the added members fills the vector, empty so far, with the
    references written. *)
Lemma WriteAttrs_read_back (sem : Mesh.Semantic) (r : Asset.t)
  (lst : Mesh.AccessorList) (forceNumber : bool) (prim : Mesh.Primitive)
  (attrs : list (string * Value)) :
  sem <> Mesh.JOINTMATRIX ->
  Forall (Accessor_resolves r) lst ->
  Z.of_nat (length lst) <= INT_MAX ->
  Mesh.attrib sem (Mesh.attributes prim) = [] ->
  exists es : list (string * Value),
    WriteAttrs r attrs lst (Semantic_name sem) forceNumber = Some (attrs ++ es)
    /\ read_attributes es prim r
       = (r, Ok (Mesh.set_attributes
                   (Mesh.set_attrib sem lst (Mesh.attributes prim)) prim)).
Proof.
  intros Hsem Hreg Hlen Hempty.
  destruct lst as [| ref lst].
  { exists []. split; [cbn; by rewrite app_nil_r |].
    rewrite <- Hempty, set_attrib_same, set_attributes_same. done. }
  unfold WriteAttrs.
  destruct (bool_decide (length (ref :: lst) = 1%nat) && negb forceNumber)
    eqn:Hone.
  - apply andb_prop in Hone as [Hone _]. apply bool_decide_eq_true_1 in Hone.
    destruct lst; [| done].
    apply Forall_inv in Hreg as (acc & Hacc & HGet).
    exists [(Semantic_name sem, JString (Accessor.id acc))]. split.
    + rewrite Hacc. cbn [mbind option_bind]. unfold AddMember.
      by assert (c_str (Semantic_name sem) = Semantic_name sem) as ->
        by (by destruct sem).
    + cbn [read_attributes]. unfold bind.
      rewrite (read_attribute_written sem (Semantic_name sem) (Accessor.id acc)
                 0 prim r r ref Hsem ltac:(unfold INT_MAX; lia)
                 (or_intror (conj eq_refl eq_refl))
                 ltac:(by rewrite Hempty) HGet).
      by rewrite Hempty.
  - destruct (WriteAttrs_loop_read_back sem r (ref :: lst) Hsem Hreg 0 prim)
      as (es & Hwrite & Hback); [done | lia | by rewrite Hempty |].
    exists es. split; [apply Hwrite |]. rewrite Hback. by rewrite Hempty.
Qed.

(** The seven calls together: the members written for the attributes of a
    primitive are read back as these attributes. *)
Lemma Write_attributes_read_back (r : Asset.t) (a : Mesh.Attributes)
  (prim : Mesh.Primitive) :
  Mesh.jointmatrix a = [] ->
  (forall sem : Mesh.Semantic,
     Forall (Accessor_resolves r) (Mesh.attrib sem a)
     /\ Z.of_nat (length (Mesh.attrib sem a)) <= INT_MAX) ->
  Mesh.attributes prim = Mesh.no_attributes ->
  exists ms : list (string * Value),
    Write_attributes r a = Some ms
    /\ read_attributes ms prim r = (r, Ok (Mesh.set_attributes a prim)).
Proof.
  intros Hjm Hall Hfresh. unfold Write_attributes. rewrite Hjm.
  destruct (WriteAttrs_read_back Mesh.POSITION r (Mesh.position a) false prim [])
    as (es1 & Hw1 & Hr1); [done | apply (Hall Mesh.POSITION)..
                         | by rewrite Hfresh |].
  cbn [Semantic_name app] in Hw1. rewrite Hw1. cbn [mbind option_bind].
  set (p1 := Mesh.set_attributes _ prim) in Hr1.
  destruct (WriteAttrs_read_back Mesh.NORMAL r (Mesh.normal a) false p1 es1)
    as (es2 & Hw2 & Hr2); [done | apply (Hall Mesh.NORMAL)..
                         | subst p1; cbn; by rewrite Hfresh |].
  cbn [Semantic_name] in Hw2. rewrite Hw2. cbn [mbind option_bind].
  set (p2 := Mesh.set_attributes _ p1) in Hr2.
  destruct (WriteAttrs_read_back Mesh.TEXCOORD r (Mesh.texcoord a) true p2
              (es1 ++ es2))
    as (es3 & Hw3 & Hr3); [done | apply (Hall Mesh.TEXCOORD)..
                         | subst p2 p1; cbn; by rewrite Hfresh |].
  cbn [Semantic_name] in Hw3. rewrite Hw3. cbn [mbind option_bind].
  set (p3 := Mesh.set_attributes _ p2) in Hr3.
  destruct (WriteAttrs_read_back Mesh.COLOR r (Mesh.color a) false p3
              ((es1 ++ es2) ++ es3))
    as (es4 & Hw4 & Hr4); [done | apply (Hall Mesh.COLOR)..
                         | subst p3 p2 p1; cbn; by rewrite Hfresh |].
  cbn [Semantic_name] in Hw4. rewrite Hw4. cbn [mbind option_bind].
  set (p4 := Mesh.set_attributes _ p3) in Hr4.
  destruct (WriteAttrs_read_back Mesh.JOINT r (Mesh.joint a) false p4
              (((es1 ++ es2) ++ es3) ++ es4))
    as (es5 & Hw5 & Hr5); [done | apply (Hall Mesh.JOINT)..
                         | subst p4 p3 p2 p1; cbn; by rewrite Hfresh |].
  cbn [Semantic_name] in Hw5. rewrite Hw5. cbn [mbind option_bind WriteAttrs].
  set (p5 := Mesh.set_attributes _ p4) in Hr5.
  destruct (WriteAttrs_read_back Mesh.WEIGHT r (Mesh.weight a) false p5
              ((((es1 ++ es2) ++ es3) ++ es4) ++ es5))
    as (es6 & Hw6 & Hr6); [done | apply (Hall Mesh.WEIGHT)..
                         | subst p5 p4 p3 p2 p1; cbn; by rewrite Hfresh |].
  cbn [Semantic_name] in Hw6. rewrite Hw6.
  eexists. split; [reflexivity |].
  repeat (rewrite read_attributes_app; unfold bind).
  rewrite Hr1, Hr2, Hr3, Hr4, Hr5, Hr6.
  do 2 f_equal. subst p5 p4 p3 p2 p1. destruct prim as [m a0 ix mat].
  cbn in *. subst a0. destruct a. cbn in *. by subst.
Qed.

Lemma find_member_app (id : string) (ms1 ms2 : list (string * Value)) :
  find_member id ms1 = None ->
  find_member id (ms1 ++ ms2) = find_member id ms2.
Proof.
  induction ms1 as [| [k v] ms1 IH]; [done |]. cbn.
  case_bool_decide; [done | apply IH].
Qed.

(** Settling the comparisons of member names. *)
Ltac decide_names :=
  repeat match goal with
    | |- context [bool_decide (?a = ?b)] =>
        first [rewrite (bool_decide_eq_true_2 (a = b)) by done
              | rewrite (bool_decide_eq_false_2 (a = b)) by done]
    end.

(** The object written for a primitive is read back as the primitive. *)
Lemma Write_primitive_read_back (r : Asset.t) (p : Mesh.Primitive) :
  Primitive_writable r p ->
  exists v : Value,
    Write_primitive r p = Some v
    /\ read_primitive v Mesh.Primitive_ r = (r, Ok p).
Proof.
  intros (Hmode & Hjm & Hattrs & Hind & Hmat).
  destruct (Write_attributes_read_back r (Mesh.attributes p)
              (Mesh.set_mode (Mesh.mode p) Mesh.Primitive_) Hjm Hattrs eq_refl)
    as (attrs & Hwrite & Hback).
  assert (bool_decide (0 <= Mesh.mode p <= UINT32_MAX) = true) as Hfits.
  { apply bool_decide_eq_true_2. unfold INT_MAX, UINT32_MAX in *. lia. }
  unfold Write_primitive, read_primitive, AddMember.
  rewrite Hwrite, (int_of_small _ Hmode).
  unfold MemberOrDefault_uint, FindObject, FindString, FindMember.
  destruct p as [mode a ix mat]. cbn [Mesh.mode Mesh.attributes Mesh.indices
    Mesh.material] in *.
  destruct Hmat as [-> | (m & Hm1 & Hm2)], Hind as [-> | (acc & Hi1 & Hi2)].
  - eexists. split; [reflexivity |].
    cbn [Members app find_member mbind option_bind]. decide_names.
    cbn [Members].
    rewrite Hfits. unfold bind. by rewrite Hback.
  - destruct ix as [| i]; [done |]. rewrite Hi1.
    eexists. split; [reflexivity |].
    cbn [Members app find_member mbind option_bind]. decide_names.
    cbn [Members].
    rewrite Hfits. unfold bind, ret. rewrite Hback. cbv beta iota.
    by rewrite Hi2.
  - destruct mat as [| i]; [done |]. rewrite Hm1.
    eexists. split; [reflexivity |].
    cbn [Members app find_member mbind option_bind]. decide_names.
    cbn [Members].
    rewrite Hfits. unfold bind, ret. rewrite Hback. cbv beta iota.
    by rewrite Hm2.
  - destruct mat as [| i]; [done |]. destruct ix as [| j]; [done |].
    rewrite Hm1, Hi1.
    eexists. split; [reflexivity |].
    cbn [Members app find_member mbind option_bind]. decide_names.
    cbn [Members].
    rewrite Hfits. unfold bind, ret. rewrite Hback. cbv beta iota.
    rewrite Hi2. cbv beta iota. by rewrite Hm2.
Qed.

Lemma Write_primitives_read_back (r : Asset.t) (ps : list Mesh.Primitive) :
  Forall (Primitive_writable r) ps ->
  exists vs : list Value,
    mapM (Write_primitive r) ps = Some vs
    /\ length vs = length ps
    /\ read_primitives vs (replicate (length ps) Mesh.Primitive_) r = (r, Ok ps).
Proof.
  induction 1 as [| p ps Hp _ (vs & Hvs & Hlen & Hback)].
  - by exists [].
  - destruct (Write_primitive_read_back r p Hp) as (v & Hv & Hread).
    exists (v :: vs). cbn. rewrite Hv. cbn. rewrite Hvs. cbn.
    split_and!; [done | by rewrite Hlen |].
    unfold bind. rewrite Hread, Hback. done.
Qed.

(** X19. [Mesh::Read] reads back what [Write] writes for a mesh: for a
    mesh whose primitives carry no joint matrices, a mode that [int] holds
    and only references that [Get] resolves from the identifier of their
    object as the reader passes it, a C string, the members written into an
    object without a "primitives" member are read, into a mesh without
    primitives, as the primitives of the mesh written, modes, materials,
    indices and attribute vectors alike, and the asset stays as it is. *)
Theorem Write_Mesh_read_back (r : Asset.t) (obj : list (string * Value))
  (m m0 : Mesh.t) :
  Forall (Primitive_writable r) (Mesh.primitives m) ->
  find_member "primitives" obj = None ->
  Mesh.primitives m0 = [] ->
  exists ms : list (string * Value),
    Write_Mesh r obj m = Some ms
    /\ Mesh_Read (JObject ms) m0 r
       = (r, Ok (Mesh.set_primitives (Mesh.primitives m) m0)).
Proof.
  intros Hps Hobj Hm0.
  destruct (Write_primitives_read_back r (Mesh.primitives m) Hps)
    as (vs & Hvs & Hlen & Hback).
  unfold Write_Mesh, AddMember. rewrite Hvs. cbn [mbind option_bind].
  eexists. split; [reflexivity |].
  unfold Mesh_Read, FindArray, FindMember. cbn [Members].
  rewrite <- app_assoc. rewrite find_member_app by done.
  cbn [app find_member].
  rewrite bool_decide_eq_false_2 by done.
  rewrite bool_decide_eq_true_2 by done.
  rewrite Hm0, Hlen, resize_nil. unfold bind. by rewrite Hback.
Qed.

End WriteReadMesh.

(** ** Unique identifiers *)

Lemma FindUniqueID_loop_unused (fuel : nat) (used : gmap string Z)
  (buffer : string) (offset i : Z) (id : string) :
  Asset.FindUniqueID_loop fuel used buffer offset i = Some (Ok id) ->
  used !! id = None.
Proof.
  revert i. induction fuel as [| fuel IH]; intros i; cbn [Asset.FindUniqueID_loop];
    [done |].
  cbv zeta. case_bool_decide; [done |].
  match goal with
  | |- context [used !! ?c] => destruct (used !! c) eqn:Hc
  end.
  - apply IH.
  - by intros [= <-].
Qed.

(** X21. Whatever the name, the suffix and the length of the two, an
    identifier [FindUniqueID] returns is not in use in the asset. *)
Theorem FindUniqueID_result_unused (str suffix : string) (fuel : nat)
  (r : Asset.t) (id : string) :
  Asset.FindUniqueID str suffix fuel r = Some (Ok id) ->
  Asset.mUsedIds r !! id = None.
Proof.
  unfold Asset.FindUniqueID.
  assert (forall cand : string,
            match Asset.mUsedIds r !! (cand +:+ c_str suffix) with
            | None => Some (Ok (cand +:+ c_str suffix))
            | Some _ =>
                let '(buffer, offset) :=
                  ai_snprintf 1024 (c_str (cand +:+ c_str suffix) +:+ "_") in
                if bool_decide (offset > 1024) then Some Undefined
                else Asset.FindUniqueID_loop fuel (Asset.mUsedIds r) buffer offset 0
            end = Some (Ok id) ->
            Asset.mUsedIds r !! id = None) as Htail.
  { intros cand.
    destruct (Asset.mUsedIds r !! (cand +:+ c_str suffix)) eqn:Hc.
    - unfold ai_snprintf. case_bool_decide; [done |].
      apply FindUniqueID_loop_unused.
    - by intros [= <-]. }
  destruct str as [| c str]; [apply Htail |].
  destruct (Asset.mUsedIds r !! String c str) eqn:Hs; [apply Htail |].
  by intros [= <-].
Qed.

(** ** Inverse bind matrices *)

Section SkinMatrices.
Context `{ext : Externals}.

Lemma resolve_joint_matrices (skinRef : Ref Skin.t) (aib : aiBone)
  (inv inv' : list aiMatrix4x4) (r r' : Asset.t) (ji : Z) :
  resolve_joint skinRef aib inv r = (r', Ok (ji, inv')) ->
  inv' = inv \/ inv' = inv ++ [mOffsetMatrix aib].
Proof.
  unfold resolve_joint, bind, get, put, ret, undefined.
  destruct (LazyDict_Get (mName aib) r) as [r1 [nodeRef | e |]]; try done.
  destruct nodeRef as [| ni]; [done |].
  destruct (deref (Asset.nodes r1) (MkRef ni)) as [node|]; [| done].
  destruct skinRef as [| si]; [done |].
  destruct (deref (Asset.skins r1) (MkRef si)) as [skin|]; [| done].
  match goal with
  | |- context [find_joint ?a ?b ?c ?d ?e] =>
      destruct (find_joint a b c d e) as [[[|] k]|] eqn:Hfind
  end; try done.
  - intros [= <- <- <-]. by right.
  - intros [= <- <- <-]. by left.
Qed.

Lemma export_bones_matrices (skinRef : Ref Skin.t) (bones : list aiBone) :
  forall (d d' : SkinData) (inv inv' : list aiMatrix4x4) (r r' : Asset.t),
    export_bones skinRef bones d inv r = (r', Ok (d', inv')) ->
    exists added : list aiBone,
      sublist added bones /\ inv' = inv ++ (mOffsetMatrix <$> added).
Proof.
  induction bones as [| aib bones IH]; intros d d' inv inv' r r'.
  - cbn. unfold ret. intros [= <- <- <-]. exists []. split; [done |].
    by rewrite app_nil_r.
  - cbn [export_bones]. unfold bind.
    destruct (resolve_joint skinRef aib inv r) as [r1 [[ji inv1] | e |]] eqn:Hres;
      [| done | done].
    cbn [fst snd].
    destruct (add_weights ji (mWeights aib) d) as [d1|]; [| done].
    intros (added & Hsub & ->)%IH.
    destruct (resolve_joint_matrices _ _ _ _ _ _ _ Hres) as [-> | ->].
    + exists added. split; [by apply sublist_cons | done].
    + exists (aib :: added). split; [by apply sublist_skip |].
      by rewrite <- app_assoc.
Qed.

(** X22. [ExportSkin] only adds to the inverse bind matrices it is given:
    the matrices it returns are the ones it got, in their places, followed
    by the offset matrices of some of the bones of the mesh, in the order
    of the bones; a mesh without bones leaves them, and the asset, as they
    were. *)
Theorem ExportSkin_appends_matrices (aimesh : aiMesh) (skinRef : Ref Skin.t)
  (inv inv' : list aiMatrix4x4) (r r' : Asset.t) (od : option SkinData) :
  ExportSkin aimesh skinRef inv r = (r', Ok (od, inv')) ->
  (exists added : list aiBone,
     sublist added (mBones aimesh) /\ inv' = inv ++ (mOffsetMatrix <$> added))
  /\ (mBones aimesh = [] -> od = None /\ inv' = inv /\ r' = r).
Proof.
  unfold ExportSkin. case_bool_decide as Hnone.
  - unfold ret. intros [= <- <- <-].
    assert (mBones aimesh = []) as Hb by (destruct (mBones aimesh); [done | cbn in *; lia]).
    split; [| done]. exists []. rewrite Hb. split; [done | by rewrite app_nil_r].
  - unfold bind, ret.
    destruct (export_bones skinRef (mBones aimesh)
                (SkinData_init (mNumVertices aimesh)) inv r)
      as [r1 [[d1 inv1] | e |]] eqn:Hrun; [| done | done].
    cbn [fst snd]. intros [= <- <- <-].
    split; [by eapply export_bones_matrices |].
    intros Hb. rewrite Hb in Hnone. cbn in Hnone. lia.
Qed.

End SkinMatrices.

(** ** The names of unique identifiers *)

Lemma FindUniqueID_loop_first_free (used : gmap string Z) (base : string)
  (fuel : nat) :
  (String.length base + 10 <= 1023)%nat ->
  forall (i0 : Z) (id : string),
    0 <= i0 <= INT_MAX ->
    Asset.FindUniqueID_loop fuel used base (Z.of_nat (String.length base)) i0
    = Some (Ok id) ->
    exists i : Z,
      i0 <= i < INT_MAX
      /\ id = base +:+ pretty i
      /\ used !! id = None
      /\ forall j : Z, i0 <= j < i -> is_Some (used !! (base +:+ pretty j)).
Proof.
  intros Hbase. induction fuel as [| fuel IH]; intros i0 id Hi0;
    cbn [Asset.FindUniqueID_loop]; [done |].
  cbv zeta.
  rewrite (bool_decide_eq_false_2 (Z.of_nat (String.length base) = 1024)) by lia.
  case_bool_decide as Hmax; [done |].
  rewrite Nat2Z.id, string_take_all by done.
  unfold ai_snprintf. cbn [fst].
  rewrite (string_take_all (pretty i0)).
  2: { pose proof (pretty_Z_length i0). unfold INT_MAX in *. lia. }
  destruct (used !! (base +:+ pretty i0)) as [v|] eqn:Hused.
  - intros (i & Hi & -> & Hfree & Hbefore)%IH; [| lia].
    exists i. split_and!; [lia | lia | done | done |].
    intros j Hj. destruct (decide (j = i0)) as [-> | Hne]; [by rewrite Hused |].
    apply Hbefore. lia.
  - intros [= <-]. exists i0. split_and!; [lia | lia | done | done |].
    intros j Hj. lia.
Qed.

(** X23. The identifiers [FindUniqueID] makes, for a name and a suffix of
    at most 1011 characters together: the name itself when it is not empty
    and not in use; else the name, a "_" if the name is not empty, and the
    suffix, when that is not in use; else that candidate followed by "_" and
    the first counter, from 0 on, that makes an identifier not in use. *)
Theorem FindUniqueID_first_free (str suffix : string) (fuel : nat)
  (r : Asset.t) (id : string) :
  (String.length str + String.length suffix + 12 <= 1023)%nat ->
  Asset.FindUniqueID str suffix fuel r = Some (Ok id) ->
  let used (s : string) := is_Some (Asset.mUsedIds r !! s) in
  let candidate :=
    (match str with EmptyString => "" | _ => str +:+ "_" end) +:+ c_str suffix in
  (str <> "" /\ ~ used str /\ id = str)
  \/ ((str = "" \/ used str) /\ ~ used candidate /\ id = candidate)
  \/ ((str = "" \/ used str) /\ used candidate
      /\ exists i : Z,
           0 <= i < INT_MAX
           /\ id = (c_str candidate +:+ "_") +:+ pretty i
           /\ ~ used id
           /\ forall j : Z, 0 <= j < i ->
                used ((c_str candidate +:+ "_") +:+ pretty j)).
Proof.
  intros Hfit Hrun used candidate. unfold Asset.FindUniqueID in Hrun.
  assert (forall cand : string,
            (String.length cand <= String.length str + 1)%nat ->
            match Asset.mUsedIds r !! (cand +:+ c_str suffix) with
            | None => Some (Ok (cand +:+ c_str suffix))
            | Some _ =>
                let '(buffer, offset) :=
                  ai_snprintf 1024 (c_str (cand +:+ c_str suffix) +:+ "_") in
                if bool_decide (offset > 1024) then Some Undefined
                else Asset.FindUniqueID_loop fuel (Asset.mUsedIds r) buffer offset 0
            end = Some (Ok id) ->
            (~ used (cand +:+ c_str suffix) /\ id = cand +:+ c_str suffix)
            \/ (used (cand +:+ c_str suffix)
                /\ exists i : Z,
                     0 <= i < INT_MAX
                     /\ id = (c_str (cand +:+ c_str suffix) +:+ "_") +:+ pretty i
                     /\ ~ used id
                     /\ forall j : Z, 0 <= j < i ->
                          used ((c_str (cand +:+ c_str suffix) +:+ "_")
                                +:+ pretty j))) as Htail.
  { intros cand Hcand. subst used. cbv beta.
    destruct (Asset.mUsedIds r !! (cand +:+ c_str suffix)) as [v|] eqn:Hused.
    2: { intros [= <-]. left. split; [by intros [? ?] | done]. }
    set (base := c_str (cand +:+ c_str suffix) +:+ "_").
    assert (String.length base + 10 <= 1023)%nat as Hbase.
    { subst base. rewrite string_length_app. cbn.
      pose proof (c_str_length (cand +:+ c_str suffix)) as H1.
      rewrite string_length_app in H1.
      pose proof (c_str_length suffix). lia. }
    unfold ai_snprintf. rewrite (string_take_all base) by lia.
    rewrite bool_decide_eq_false_2 by lia.
    intros (i & Hi & -> & Hfree & Hbefore)%FindUniqueID_loop_first_free;
      [| done | unfold INT_MAX; lia].
    right. split; [done |]. exists i. split_and!; [lia | lia | done | | done].
    rewrite Hfree. by intros [? ?]. }
  subst used candidate. cbv beta.
  destruct str as [| c str].
  - apply (Htail "") in Hrun; [| cbn; lia].
    destruct Hrun as [[Hfree ->] | [Hused Hloop]].
    + right. left. split_and!; [by left | done | done].
    + right. right. split_and!; [by left | done | done].
  - destruct (Asset.mUsedIds r !! String c str) as [v|] eqn:Husedstr.
    + apply (Htail (String c str +:+ "_")) in Hrun.
      2: { rewrite string_length_app. cbn. lia. }
      destruct Hrun as [[Hfree ->] | [Hused Hloop]].
      * right. left. split_and!; [by right | done | done].
      * right. right. split_and!; [by right | done | done].
    + injection Hrun as <-. left. split_and!; [done | | done].
      by intros [? ?].
Qed.

(** ** Failed reads of buffers *)

Section BufferGetFails.
Context `{ext : Externals}.

Lemma Buffer_Read_never_undefined (obj : Value) (r : Asset.t) (b : Buffer.t) :
  (Buffer_Read obj r b).2 <> Undefined.
Proof.
  unfold Buffer_Read, Buffer_LoadFromStream.
  repeat (case_match || case_bool_decide); simplify_eq; done.
Qed.

(** X24. A [Get] on the buffers that does not return a reference has no
    effect: whether the section, the member or the uri is missing, the
    member is no object, the stated length disagrees with the payload or
    the file cannot be read, the exception leaves the asset as it was (the
    object under construction is not added), and the call is never
    undefined. *)
Theorem LazyDict_Get_Buffer_fails_clean (id : string) (r r' : Asset.t)
  (o : outcome (Ref Buffer.t)) :
  LazyDict_Get (T := Buffer.t) id r = (r', o) ->
  (forall ref : Ref Buffer.t, o <> Ok ref) ->
  r' = r /\ exists e : DeadlyImportError, o = Throw e.
Proof.
  unfold LazyDict_Get. cbn [T_TranslateId T_dict Buffer_DictObject].
  unfold Buffer.TranslateId.
  destruct (LazyDict.mObjsById (Asset.buffers r) !! id) as [i|].
  { intros [= <- <-] Hno. by destruct (Hno (MkRef i)). }
  destruct (LazyDict.mDict (Asset.buffers r)) as [section|].
  2: { intros [= <- <-] _. eauto. }
  destruct (FindMember section id) as [obj|].
  2: { intros [= <- <-] _. eauto. }
  destruct (IsObject obj); cbn [negb].
  2: { intros [= <- <-] _. eauto. }
  unfold bind. cbn [T_Read T_new T_set_id T_set_name Buffer_DictObject].
  unfold on_instance.
  match goal with
  | |- context [Buffer_Read obj r ?inst] =>
      pose proof (Buffer_Read_never_undefined obj r inst) as Hdef;
      destruct (Buffer_Read obj r inst) as [b [[] | e |]]
  end.
  - unfold LazyDict_Add. intros [= <- <-] Hno. by edestruct Hno.
  - intros [= <- <-] _. eauto.
  - done.
Qed.

End BufferGetFails.

(** ** Joints and matrices *)

Section SkinJoints.
Context `{ext : Externals}.

(** One turn of the loop over the bones, for a bone whose node is
    materialised: the index of the nodes stays, and the joints of the skin
    and the matrices stay both or grow both, by the node of the bone and by
    its offset matrix. *)
Lemma resolve_joint_step (si k : nat) (skin : Skin.t) (aib : aiBone)
  (inv inv' : list aiMatrix4x4) (r r' : Asset.t) (ji : Z) :
  (forall (r0 : Asset.t) (id : string), Object_TranslateId r0 id = id) ->
  deref (Asset.skins r) (MkRef si) = Some skin ->
  LazyDict.mObjsById (Asset.nodes r) !! mName aib = Some k ->
  resolve_joint (MkRef si) aib inv r = (r', Ok (ji, inv')) ->
  LazyDict.mObjsById (Asset.nodes r') = LazyDict.mObjsById (Asset.nodes r)
  /\ exists skin' : Skin.t,
       deref (Asset.skins r') (MkRef si) = Some skin'
       /\ ((Skin.jointNames skin' = Skin.jointNames skin /\ inv' = inv)
           \/ (Skin.jointNames skin' = Skin.jointNames skin ++ [MkRef k]
               /\ inv' = inv ++ [mOffsetMatrix aib])).
Proof.
  intros Hid Hskin Hnode. unfold resolve_joint, bind, get, put, ret, undefined.
  unfold LazyDict_Get. cbn [T_TranslateId T_dict Node_DictObject].
  rewrite Hid, Hnode.
  destruct (deref (Asset.nodes r) (MkRef k)) as [node|]; [| done].
  rewrite Hskin.
  match goal with
  | |- context [find_joint ?a ?b ?c ?d ?e] =>
      destruct (find_joint a b c d e) as [[[|] j]|] eqn:Hfind
  end; try done.
  - intros [= <- <- <-]. split; [done |].
    exists (Skin.set_jointNames (Skin.jointNames skin ++ [MkRef k]) skin).
    split; [| by right]. cbn in Hskin |- *.
    apply list_lookup_insert_eq. by eapply lookup_lt_Some.
  - intros [= <- <- <-]. split; [done |].
    exists skin. split; [done | by left].
Qed.

Lemma export_bones_joints (si : nat) (bones : list aiBone) :
  (forall (r0 : Asset.t) (id : string), Object_TranslateId r0 id = id) ->
  forall (d d' : SkinData) (inv inv' : list aiMatrix4x4) (r r' : Asset.t)
         (skin : Skin.t),
    Forall (fun aib => is_Some (LazyDict.mObjsById (Asset.nodes r) !! mName aib))
           bones ->
    deref (Asset.skins r) (MkRef si) = Some skin ->
    export_bones (MkRef si) bones d inv r = (r', Ok (d', inv')) ->
    exists (skin' : Skin.t) (added : list (Ref Node.t)),
      deref (Asset.skins r') (MkRef si) = Some skin'
      /\ Skin.jointNames skin' = Skin.jointNames skin ++ added
      /\ length inv' = (length inv + length added)%nat.
Proof.
  intros Hid. induction bones as [| aib bones IH];
    intros d d' inv inv' r r' skin Hbones Hskin.
  - cbn. unfold ret. intros [= <- <- <-]. exists skin, [].
    rewrite app_nil_r. split_and!; [done | done | cbn; lia].
  - apply Forall_cons in Hbones as [[k Hk] Hbones].
    cbn [export_bones]. unfold bind.
    destruct (resolve_joint (MkRef si) aib inv r) as [r1 [[ji inv1] | e |]] eqn:Hres;
      [| done | done].
    cbn [fst snd].
    destruct (resolve_joint_step si k skin aib inv inv1 r r1 ji Hid Hskin Hk Hres)
      as (Hsame & skin1 & Hskin1 & Hstep).
    destruct (add_weights ji (mWeights aib) d) as [d1|]; [| done].
    intros Hrun.
    destruct (IH d1 d' inv1 inv' r1 r' skin1) as (skin' & added & Hskin' & Hj & Hlen);
      [by rewrite Hsame | done | done |].
    destruct Hstep as [[Hj1 ->] | [Hj1 ->]].
    + exists skin', added. split_and!; [done | by rewrite Hj, Hj1 | done].
    + exists skin', (MkRef k :: added). split_and!; [done | |].
      * rewrite Hj, Hj1. by rewrite <- app_assoc.
      * rewrite Hlen, length_app. cbn. lia.
Qed.

(** X25. [ExportSkin] keeps the joints of the skin and the inverse bind
    matrices in step: for a mesh whose bones name nodes that are
    materialised, the skin keeps the joints it had, in their places, and
    gets as many new joints as matrices are added. *)
Theorem ExportSkin_joints_in_step (aimesh : aiMesh) (si : nat) (skin : Skin.t)
  (inv inv' : list aiMatrix4x4) (r r' : Asset.t) (od : option SkinData) :
  (forall (r0 : Asset.t) (id : string), Object_TranslateId r0 id = id) ->
  Forall (fun aib => is_Some (LazyDict.mObjsById (Asset.nodes r) !! mName aib))
         (mBones aimesh) ->
  deref (Asset.skins r) (MkRef si) = Some skin ->
  ExportSkin aimesh (MkRef si) inv r = (r', Ok (od, inv')) ->
  exists (skin' : Skin.t) (added : list (Ref Node.t)),
    deref (Asset.skins r') (MkRef si) = Some skin'
    /\ Skin.jointNames skin' = Skin.jointNames skin ++ added
    /\ length inv' = (length inv + length added)%nat.
Proof.
  intros Hid Hbones Hskin. unfold ExportSkin. case_bool_decide as Hnone.
  - unfold ret. intros [= <- <- <-]. exists skin, [].
    rewrite app_nil_r. split_and!; [done | done | cbn; lia].
  - unfold bind, ret.
    destruct (export_bones (MkRef si) (mBones aimesh)
                (SkinData_init (mNumVertices aimesh)) inv r)
      as [r1 [[d1 inv1] | e |]] eqn:Hrun; [| done | done].
    cbn [fst snd]. intros [= <- <- <-].
    by eapply export_bones_joints.
Qed.

End SkinJoints.

(** * The properties at sample inputs *)

(** [Grow(3)] on a store of the two bytes 01 02. *)
Lemma Grow_extends_and_preserves_witness :
  exists b' : Buffer.t,
    Buffer.Grow 3 (buffer_of_bytes [x01; x02]) = (b', Ok tt)
    /\ Buffer.byteLength b' = 5
    /\ Buffer.raw_at b' 0 = Some (Some x01)
    /\ Buffer.raw_at b' 1 = Some (Some x02).
Proof.
  destruct (Grow_extends_and_preserves (buffer_of_bytes [x01; x02]) 3)
    as (b' & HG & HL & HP & _).
  - lia.
  - cbn. lia.
  - unfold SIZE_MAX. cbn. lia.
  - exists b'. split_and!.
    + exact HG.
    + exact HL.
    + rewrite HP; [reflexivity | cbn; lia].
    + rewrite HP; [reflexivity | cbn; lia].
Defined.

(** C3 as stated fails: on the store of ten appended bytes, whose capacity
    is 10, [Grow(2^64 - 5)] finds the wrapped sum 5 covered by the capacity
    and returns with [byteLength] 5, which is less than before; and on the
    store of 100 bytes whose marked region has raised [byteLength] to 103,
    [Grow(1)] reallocates and copies 103 bytes out of the array of 100. *)
Lemma Grow_wraps_or_reads_past_the_storage :
  Buffer.byteLength ten_appended = 10
  /\ Buffer.capacity ten_appended = 10
  /\ (exists b' : Buffer.t,
        Buffer.Grow (2 ^ 64 - 5) ten_appended = (b', Ok tt)
        /\ Buffer.byteLength b' = 5
        /\ Buffer.byteLength b' <> Buffer.byteLength ten_appended + (2 ^ 64 - 5))
  /\ Buffer.byteLength marked_sample = 103
  /\ Buffer.allocated marked_sample = 100
  /\ (Buffer.Grow 1 marked_sample).2 = Undefined.
Proof.
  split_and!; try reflexivity.
  eexists. split; [reflexivity |]. split; [reflexivity | discriminate].
Qed.


(** Marking [10, 15) of a store of 100 bytes as 8 decoded bytes: the length
    becomes 103, the address 12 resolves to the third decoded byte, the
    address 18 to the raw storage. *)
Lemma EncodedRegion_Mark_overlay_witness :
  Buffer.byteLength marked_sample = 103
  /\ Accessor_GetPointer (asset_over_buffer current_sample (byte_accessor 12 1))
       (byte_accessor 12 1)
     = Some (DecodedPtr 2)
  /\ pointee current_sample (DecodedPtr 2) = Some (eight_decoded, 2)
  /\ Accessor_GetPointer (asset_over_buffer current_sample (byte_accessor 18 1))
       (byte_accessor 18 1)
     = Some (RawPtr 18).
Proof.
  destruct (EncodedRegion_Mark_overlay hundred_bytes 10 5 8 eight_decoded "mesh0")
    as (b1 & HM & HL & _ & _ & Hptr).
  - lia.
  - lia.
  - lia.
  - unfold SIZE_MAX. cbn. lia.
  - unfold SIZE_MAX. cbn. lia.
  - unfold SIZE_MAX. lia.
  - assert (marked_sample = b1) as Hb by exact (f_equal fst HM).
    rewrite <- Hb in HL, Hptr. split; [exact HL |].
    destruct (Hptr current_sample
                (asset_over_buffer current_sample (byte_accessor 12 1))
                (byte_accessor 12 1)
                {| BufferView.id := "view"; BufferView.name := "";
                   BufferView.buffer := MkRef 0; BufferView.byteOffset := 0;
                   BufferView.byteLength := Buffer.byteLength current_sample |})
      as [Hin _]; try reflexivity; try discriminate.
    { unfold SIZE_MAX. cbn. lia. }
    destruct (Hptr current_sample
                (asset_over_buffer current_sample (byte_accessor 18 1))
                (byte_accessor 18 1)
                {| BufferView.id := "view"; BufferView.name := "";
                   BufferView.buffer := MkRef 0; BufferView.byteOffset := 0;
                   BufferView.byteLength := Buffer.byteLength current_sample |})
      as [_ Hout]; try reflexivity; try discriminate.
    { unfold SIZE_MAX. cbn. lia. }
    destruct Hin as [Hin1 Hin2]; [cbn; lia |].
    destruct Hout as [Hout1 _]; [cbn; lia |].
    split_and!; [exact Hin1 | exact Hin2 | exact Hout1].
Defined.


(** A base64 payload of three bytes under a stated length of 5, and a raw
    payload of four bytes under a stated length of 5. *)
Lemma Buffer_Read_data_uri_lengths_witness :
  (exists msg : string,
     LazyDict_Get (D := Buffer_DictObject (ext := sample_ext)) "b"
       (asset_with_buffers (JObject [("b", base64_buffer 5)]))
     = (asset_with_buffers (JObject [("b", base64_buffer 5)]),
        Throw (InvalidDocument msg)))
  /\ (exists msg : string,
        LazyDict_Get (D := Buffer_DictObject (ext := sample_ext)) "b"
          (asset_with_buffers (JObject [("b", raw_buffer 5)]))
        = (asset_with_buffers (JObject [("b", raw_buffer 5)]),
           Throw (InvalidDocument msg))).
Proof.
  split.
  - destruct (Buffer_Read_data_uri_lengths (ext := sample_ext)
                (base64_buffer 5)
                (asset_with_buffers (JObject [("b", base64_buffer 5)]))
                "data:application/octet-stream;base64,AQID"
                {| base64 := true; data := "AQID" |})
      as (msg & Hb64 & _ & _ & _).
    + reflexivity.
    + reflexivity.
    + exists msg.
      destruct Hb64 as [_ HGet]; [reflexivity | reflexivity | discriminate |].
      apply (HGet "b" (JObject [("b", base64_buffer 5)])); reflexivity.
  - destruct (Buffer_Read_data_uri_lengths (ext := sample_ext)
                (raw_buffer 5)
                (asset_with_buffers (JObject [("b", raw_buffer 5)]))
                "data:,abcd"
                {| base64 := false; data := "abcd" |})
      as (msg & _ & _ & _ & Hraw).
    + reflexivity.
    + reflexivity.
    + exists msg.
      destruct Hraw as [_ HGet]; [reflexivity | discriminate |].
      apply (HGet "b" (JObject [("b", raw_buffer 5)])); reflexivity.
Defined.

(** C6 as stated fails, twice: a manifest that states [byteLength] 0 for an
    inline base64 buffer whose payload decodes to three bytes is loaded, the
    buffer taking the length 3; and when [Get] of a mesh reaches a buffer
    whose payload of three bytes stands under a stated length of 5 only
    through its second attribute, the call fails with [InvalidDocument]
    while the accessor, the view and the buffer of the first attribute stay
    registered and their identifiers in use. *)
Lemma Buffer_Read_stated_zero_and_earlier_objects :
  MemberOrDefault_uint SIZE_MAX (base64_buffer 0) "byteLength" 0 = 0
  /\ Base64_Decode (Externals := sample_ext) "AQID" = [x01; x02; x03]
  /\ (exists (r' : Asset.t) (b' : Buffer.t),
        LazyDict_Get (D := Buffer_DictObject (ext := sample_ext)) "b"
          (asset_with_buffers (JObject [("b", base64_buffer 0)]))
        = (r', Ok (MkRef 0))
        /\ deref (Asset.buffers r') (MkRef 0) = Some b'
        /\ Buffer.byteLength b' = 3
        /\ Buffer.mData b' = Some (bytes [x01; x02; x03]))
  /\ half_loaded.2
     = Throw (InvalidDocument "BVH: buffer, expected other byte count than found")
  /\ Asset.mUsedIds two_chain_asset = ∅
  /\ (Asset.mUsedIds half_loaded.1 !! "a",
      Asset.mUsedIds half_loaded.1 !! "v",
      Asset.mUsedIds half_loaded.1 !! "b") = (Some 1, Some 1, Some 1)
  /\ (length (LazyDict.mObjs (Asset.accessors two_chain_asset)),
      length (LazyDict.mObjs (Asset.bufferViews two_chain_asset)),
      length (LazyDict.mObjs (Asset.buffers two_chain_asset)))
     = (0, 0, 0)%nat
  /\ (length (LazyDict.mObjs (Asset.accessors half_loaded.1)),
      length (LazyDict.mObjs (Asset.bufferViews half_loaded.1)),
      length (LazyDict.mObjs (Asset.buffers half_loaded.1)))
     = (1, 1, 1)%nat.
Proof.
  split; [reflexivity |]. split; [reflexivity |]. split.
  { eexists _, _. split; [reflexivity |]. by split_and!. }
  split_and!; reflexivity.
Qed.

(** [Create("x")] on the buffers, then on the meshes; [Get] on buffers
    without a section, with an empty section, and of the created "x". *)
Lemma LazyDict_Create_twice_and_Get_witness :
  LazyDict_Create (D := Mesh_DictObject (ext := sample_ext)) "x" asset_with_x
  = (asset_with_x, Throw DuplicateId)
  /\ LazyDict_Get (D := Buffer_DictObject (ext := sample_ext)) "y" empty_asset
     = (empty_asset, Throw (MissingSection "buffers"))
  /\ LazyDict_Get (D := Buffer_DictObject (ext := sample_ext)) "y"
       (asset_with_buffers (JObject []))
     = (asset_with_buffers (JObject []), Throw (MissingObject "y" "buffers"))
  /\ LazyDict_Get (D := Buffer_DictObject (ext := sample_ext)) "x" asset_with_x
     = (asset_with_x, Ok (MkRef 0)).
Proof.
  split_and!.
  - destruct (LazyDict_Create_twice_and_Get Buffer.t Mesh.t
                (Buffer_DictObject (ext := sample_ext))
                (Mesh_DictObject (ext := sample_ext)) "x" empty_asset)
      as [Htwice _].
    apply (Htwice asset_with_x asset_with_x (Ok (MkRef 0))); reflexivity.
  - destruct (LazyDict_Create_twice_and_Get Buffer.t Mesh.t
                (Buffer_DictObject (ext := sample_ext))
                (Mesh_DictObject (ext := sample_ext)) "y" empty_asset)
      as [_ (Hsection & _ & _)].
    apply Hsection; reflexivity.
  - destruct (LazyDict_Create_twice_and_Get Buffer.t Mesh.t
                (Buffer_DictObject (ext := sample_ext))
                (Mesh_DictObject (ext := sample_ext)) "y"
                (asset_with_buffers (JObject [])))
      as [_ (_ & Hobject & _)].
    apply (Hobject (JObject [])); reflexivity.
  - destruct (LazyDict_Create_twice_and_Get Buffer.t Mesh.t
                (Buffer_DictObject (ext := sample_ext))
                (Mesh_DictObject (ext := sample_ext)) "x" asset_with_x)
      as [_ (_ & _ & Hhave)].
    apply (Hhave 0%nat); reflexivity.
Defined.

(** A manifest of 2 bytes passes, one of 1 byte does not. *)
Lemma Load_check_length_bounds_witness :
  Asset.Load_check_length (Asset.set_mSceneLength 2 empty_asset)
  = (Asset.set_mSceneLength 2 empty_asset, Ok tt)
  /\ Asset.Load_check_length (Asset.set_mSceneLength 1 empty_asset)
     = (Asset.set_mSceneLength 1 empty_asset,
        Throw (InvalidDocument "BVH: No JSON file contents")).
Proof.
  split.
  - destruct (Load_check_length_bounds (Asset.set_mSceneLength 2 empty_asset))
      as (_ & _ & Hpass).
    apply Hpass. cbn. lia.
  - destruct (Load_check_length_bounds (Asset.set_mSceneLength 1 empty_asset))
      as (Hshort & _ & _).
    apply Hshort. cbn. lia.
Defined.

(** C8 as stated fails: a manifest of 4294967295 bytes, which is at least 2
    and less than 4 GiB, does not pass the guards. *)
Lemma Load_rejects_a_length_below_4GiB :
  2 <= 4294967295 < 4 * 1024 ^ 3
  /\ Asset.Load_check_length (Asset.set_mSceneLength 4294967295 empty_asset)
     = (Asset.set_mSceneLength 4294967295 empty_asset,
        Throw (InvalidDocument "BVH: JSON size greater than 4GB")).
Proof. split; [lia | reflexivity]. Qed.

(** Five bones contribute 0.1, 0.2, 0.3, 0.2, 0.2 to the one vertex of a
    mesh: the weights exported for it are 0.1, 0.2, 0.3, 0.2, next to the
    joints 0, 1, 2, 3. *)
Lemma ExportSkin_keeps_first_four_witness :
  exists (r' : Asset.t) (d : SkinData (ext := sample_ext)),
    ExportSkin (ext := sample_ext) five_bone_mesh (MkRef 0) [] skin_asset
    = (r', Ok (Some d, [tt; tt; tt; tt; tt]))
    /\ vertexWeightData d !! 0%nat
       = Some [(1 # 10)%Q; (2 # 10)%Q; (3 # 10)%Q; (2 # 10)%Q]
    /\ vertexJointData d !! 0%nat
       = Some [inject_Z 0; inject_Z 1; inject_Z 2; inject_Z 3]
    /\ jointsPerVertex d !! 0%nat = Some 4.
Proof.
  destruct (ExportSkin_keeps_first_four (ext := sample_ext) five_bone_mesh
              (MkRef 0) [] [tt; tt; tt; tt; tt] [0; 1; 2; 3; 4] skin_asset
              (resolve_joints (ext := sample_ext) (MkRef 0)
                 (mBones five_bone_mesh) [] skin_asset).1)
    as (d & HE & Hd).
  - discriminate.
  - repeat constructor; cbn; lia.
  - vm_compute. reflexivity.
  - destruct (Hd 0%nat) as (HJ & HW & HN & Hfive); [cbn; lia |].
    eexists _, d. split_and!.
    + exact HE.
    + apply Hfive with (w5 := (2 # 10)%Q). reflexivity.
    + exact HJ.
    + exact HN.
Defined.

(** ** The further properties at sample inputs *)

Lemma LazyDict_Create_then_Get_witness :
  exists (r' : Asset.t) (ref : Ref Buffer.t),
    LazyDict_Create (D := Buffer_DictObject (ext := sample_ext)) "x" empty_asset
    = (r', Ok ref)
    /\ deref (Asset.buffers r') ref = Some (Buffer.set_id "x" Buffer.Buffer)
    /\ LazyDict_Get (D := Buffer_DictObject (ext := sample_ext)) "x" r'
       = (r', Ok ref).
Proof.
  destruct (@LazyDict_Create_then_Get Buffer.t
              (Buffer_DictObject (ext := sample_ext))
              (fun _ _ => eq_refl) "x" empty_asset)
    as (r' & ref & HC & Hd & _ & _ & HG).
  - reflexivity.
  - cbn. lia.
  - exists r', ref. split_and!; [exact HC | exact Hd | apply HG; reflexivity].
Defined.

Lemma LazyDict_Add_keeps_index_witness :
  deref (Asset.buffers asset_with_x) (MkRef 0)
  = Some (Buffer.set_id "x" Buffer.Buffer)
  /\ LazyDict.mObjsById (Asset.buffers asset_with_x) !! "x" = Some 0%nat.
Proof.
  destruct (@LazyDict_Add_keeps_index Buffer.t
              (Buffer_DictObject (ext := sample_ext))
              (fun _ _ => eq_refl) (Buffer.set_id "x" Buffer.Buffer)
              empty_asset asset_with_x (MkRef 0))
    as (Hd & Hi & _).
  - cbn. lia.
  - intros id i Hid. cbn in Hid. rewrite lookup_empty in Hid. discriminate.
  - reflexivity.
  - split; [exact Hd | exact Hi].
Defined.

Lemma LazyDict_Get_Buffer_reads_once_witness :
  exists (r' : Asset.t) (b : Buffer.t),
    LazyDict_Get (D := Buffer_DictObject (ext := sample_ext)) "b"
      (asset_with_buffers (JObject [("b", raw_buffer 4)]))
    = (r', Ok (MkRef 0))
    /\ deref (Asset.buffers r') (MkRef 0) = Some b
    /\ Buffer.id b = "b"
    /\ LazyDict_Get (D := Buffer_DictObject (ext := sample_ext)) "b" r'
       = (r', Ok (MkRef 0)).
Proof.
  destruct (LazyDict_Get_Buffer_reads_once (ext := sample_ext) "b"
              (asset_with_buffers (JObject [("b", raw_buffer 4)]))
              (JObject [("b", raw_buffer 4)]) (raw_buffer 4))
    as (r' & b & HG & Hd & Hid & _ & _ & HG2).
  - reflexivity.
  - reflexivity.
  - reflexivity.
  - reflexivity.
  - cbn. lia.
  - reflexivity.
  - exists r', b. split_and!; [exact HG | exact Hd | exact Hid | exact HG2].
Defined.

Lemma LazyDict_Get_Accessor_loads_chain_witness :
  exists (r' : Asset.t) (ref : Ref Accessor.t) (acc : Accessor.t) (b : Buffer.t),
    LazyDict_Get (D := Accessor_DictObject (ext := sample_ext)) "a" attached_asset
    = (r', Ok ref)
    /\ deref (Asset.accessors r') ref = Some acc
    /\ Accessor_buffer r' acc = Some b
    /\ Buffer.id b = "b".
Proof.
  destruct (LazyDict_Get_Accessor_loads_chain (ext := sample_ext) attached_asset
              "a" "v" "b"
              (JObject [("a", JObject [("bufferView", JString "v");
                                       ("count", JNumber 4)])])
              (JObject [("bufferView", JString "v"); ("count", JNumber 4)])
              (JObject [("v", JObject [("buffer", JString "b");
                                       ("byteLength", JNumber 4)])])
              (JObject [("buffer", JString "b"); ("byteLength", JNumber 4)])
              (JObject [("b", raw_buffer 4)]) (raw_buffer 4))
    as (r' & ref & acc & bv & b & HG & Hacc & _ & _ & _ & _ & Hid & Hb);
    try reflexivity.
  exists r', ref, acc, b. split_and!; [exact HG | exact Hacc | exact Hb | exact Hid].
Defined.

Lemma LoadFromStream_reads_range_witness :
  exists b' : Buffer.t,
    Buffer_LoadFromStream [x01; x02; x03; x04; x05] 2 1 Buffer.Buffer
    = (b', Ok true)
    /\ Buffer.byteLength b' = 2
    /\ Buffer.mData b' = Some (bytes [x02; x03]).
Proof.
  destruct (LoadFromStream_reads_range [x01; x02; x03; x04; x05] 2 1 Buffer.Buffer)
    as (b' & HL & Hlen & Hdata).
  - lia.
  - lia.
  - exists b'. split_and!.
    + exact HL.
    + exact Hlen.
    + apply Hdata; by vm_compute.
Defined.

Lemma Buffer_Read_local_file_witness :
  exists b' : Buffer.t,
    Buffer_Read (ext := sample_ext) (file_buffer 2) asset_with_file Buffer.Buffer
    = (b', Ok tt)
    /\ Buffer.byteLength b' = 2
    /\ Buffer.mData b' = Some (bytes [x01; x02]).
Proof.
  exact (Buffer_Read_local_file (ext := sample_ext) (file_buffer 2)
           asset_with_file "data.bin" Buffer.Buffer eq_refl eq_refl eq_refl).
Defined.

Lemma EncodedRegion_SetCurrent_selects_witness :
  exists reg : Buffer.SEncodedRegion,
    Buffer.current_region current_sample = Some reg
    /\ Buffer.ID reg = "mesh0"
    /\ Buffer.DecodedData reg = eight_decoded.
Proof.
  destruct (EncodedRegion_SetCurrent_selects "mesh0" marked_sample current_sample)
    as (i & reg & _ & Hreg & Hcur & Hid & _).
  - reflexivity.
  - exists reg. split_and!; [exact Hcur | exact Hid |].
    assert (i = 0%nat) as ->.
    { destruct i as [| [| i]]; [reflexivity | discriminate Hreg | discriminate Hreg]. }
    injection Hreg as <-. reflexivity.
Defined.

Lemma EncodedRegion_SetCurrent_unknown_witness :
  Buffer.EncodedRegion_SetCurrent "mesh1" marked_sample
  = (marked_sample, Throw (NotFound "mesh1")).
Proof.
  apply EncodedRegion_SetCurrent_unknown.
  repeat constructor. discriminate.
Defined.

Lemma ReplaceData_cells_witness :
  exists (b' : Buffer.t) (d' : list cell),
    Buffer.ReplaceData 1 1 (Some (bytes [x09])) 1
      (buffer_of_bytes [x01; x02; x03; x04; x05])
    = (b', Ok true)
    /\ Buffer.mData b' = Some d'
    /\ d' !! 1%nat = Some (Some x09)
    /\ d' !! 2%nat = Some (Some x03)
    /\ d' !! 3%nat = Some None.
Proof.
  destruct (ReplaceData_cells (buffer_of_bytes [x01; x02; x03; x04; x05]) 1 1
              (bytes [x09]) (bytes [x01; x02; x03; x04; x05]))
    as (b' & d' & HR & Hd & _ & Hcells).
  - reflexivity.
  - reflexivity.
  - lia.
  - lia.
  - discriminate.
  - cbn. lia.
  - unfold SIZE_MAX. cbn. lia.
  - exists b', d'. split_and!.
    + exact HR.
    + exact Hd.
    + apply (Hcells 1). cbn. lia.
    + apply (Hcells 2). cbn. lia.
    + apply (Hcells 3). cbn. lia.
Defined.

Lemma Grow_wf_witness :
  Buffer.wf (Buffer.Grow 3 (buffer_of_bytes [x01; x02])).1.
Proof.
  apply Grow_wf.
  - lia.
  - apply buffer_of_bytes_wf.
  - unfold SIZE_MAX. cbn. lia.
Defined.

Lemma AppendData_twice_witness :
  exists b1 b2 : Buffer.t,
    Buffer.AppendData (Some (bytes [x0a])) 1 (buffer_of_bytes [x01]) = (b1, Ok 1)
    /\ Buffer.AppendData (Some (bytes [x0b; x0c])) 2 b1 = (b2, Ok 2)
    /\ Buffer.byteLength b2 = 4
    /\ Buffer.raw_at b2 0 = Some (Some x01)
    /\ Buffer.raw_at b2 1 = Some (Some x0a)
    /\ Buffer.raw_at b2 3 = Some (Some x0c).
Proof.
  destruct (AppendData_twice (buffer_of_bytes [x01]) [x0a] [x0b; x0c])
    as (b1 & b2 & H1 & H2 & Hlen & _ & Hd1 & Hd2 & Hold).
  - apply buffer_of_bytes_wf.
  - unfold SIZE_MAX. cbn. lia.
  - exists b1, b2. split_and!.
    + exact H1.
    + exact H2.
    + exact Hlen.
    + rewrite (Hold 0); [reflexivity | cbn; lia].
    + exact (Hd1 0%nat x0a eq_refl).
    + exact (Hd2 1%nat x0c eq_refl).
Defined.

Lemma ExtractData_elements_witness :
  exists out : list cell,
    Accessor_ExtractData 2 two_from_one (byte_accessor 1 2) = Ok (Some out)
    /\ Z.of_nat (length out) = 4
    /\ out !! 0%nat = Some (Some x02)
    /\ out !! 1%nat = Some None
    /\ out !! 2%nat = Some (Some x03).
Proof.
  destruct (ExtractData_elements 2 two_from_one (byte_accessor 1 2) (RawPtr 1)
              four_bytes (bytes [x01; x02; x03; x04]) 1)
    as (out & HE & Hlen & Hin & Hpad); try reflexivity; try (by vm_compute).
  exists out. split_and!.
  - exact HE.
  - exact Hlen.
  - apply (Hin 0 0); by vm_compute.
  - apply (Hpad 0 1); by vm_compute.
  - apply (Hin 1 0); by vm_compute.
Defined.

Lemma CopyData_elements_witness :
  exists out : list cell,
    CopyData 2 (bytes [x01; x02; x03; x04]) 0 2
      (bytes [xff; xff; xff; xff; xff; xff; xff; xff]) 1 3
    = Some out
    /\ out !! 0%nat = Some (Some xff)
    /\ out !! 1%nat = Some (Some x01)
    /\ out !! 3%nat = Some (Some x00)
    /\ out !! 4%nat = Some (Some x03)
    /\ out !! 7%nat = Some (Some xff).
Proof.
  destruct (CopyData_elements 2 (bytes [x01; x02; x03; x04]) 0 2
              (bytes [xff; xff; xff; xff; xff; xff; xff; xff]) 1 3)
    as (out & HC & _ & Hin & Hout); try (by vm_compute).
  exists out. split_and!.
  - exact HC.
  - apply (Hout 0); [lia | left; lia].
  - apply (Hin 0 0); lia.
  - apply (Hin 0 2); lia.
  - apply (Hin 1 0); lia.
  - apply (Hout 7); [lia | right; lia].
Defined.

Lemma WriteData_then_ExtractData_witness :
  exists r' : Asset.t,
    Accessor_WriteData 2 (bytes [x0a; x0b]) 1 (byte_accessor 1 2) two_from_one
    = (r', Ok tt)
    /\ Accessor_ExtractData 1 r' (byte_accessor 1 2)
       = Ok (Some (bytes [x0a; x0b])).
Proof.
  destruct (WriteData_then_ExtractData two_from_one (byte_accessor 1 2)
              {| BufferView.id := "view"; BufferView.name := "";
                 BufferView.buffer := MkRef 0; BufferView.byteOffset := 0;
                 BufferView.byteLength := 4 |}
              0 four_bytes (bytes [x01; x02; x03; x04]) (bytes [x0a; x0b]))
    as (r' & b' & HW & _ & HE & _); try reflexivity.
  - by left.
  - by vm_compute.
  - by vm_compute.
  - by vm_compute.
  - exists r'. split; [exact HW | exact HE].
Defined.

Lemma Indexer_GetValue_element_witness :
  Indexer_GetValue 4 two_from_one
    (Accessor_GetIndexer two_from_one (byte_accessor 1 2)) 1
  = Some (bytes [x03; x00; x00; x00]).
Proof.
  destruct (Indexer_GetValue_element 4 two_from_one (byte_accessor 1 2)
              (RawPtr 1) four_bytes (bytes [x01; x02; x03; x04]) 1 1)
    as [_ HV]; [reflexivity | reflexivity | reflexivity | by vm_compute.. |].
  exact HV.
Defined.

Lemma read_attribute_stores_in_slot_witness :
  exists prim' : Mesh.Primitive,
    read_attribute (ext := sample_ext) Mesh.Primitive_
      ("TEXCOORD_1", JString "a") (asset_with_accessor "a")
    = (asset_with_accessor "a", Ok prim')
    /\ Mesh.texcoord (Mesh.attributes prim') = [NullRef; MkRef 0].
Proof.
  destruct (read_attribute_stores_in_slot (ext := sample_ext) Mesh.Primitive_
              "TEXCOORD_1" "a" Mesh.TEXCOORD 8 1 (asset_with_accessor "a")
              (asset_with_accessor "a") (MkRef 0))
    as (prim' & HR & H1 & Hlen & _ & H0 & _);
    [reflexivity | reflexivity | by vm_compute | reflexivity |].
  exists prim'. split; [exact HR |].
  specialize (H0 0%nat ltac:(cbn; lia) ltac:(cbn; lia)).
  change (Z.to_nat 1) with 1%nat in *.
  cbn [Mesh.attrib Mesh.attributes Mesh.Primitive_ Mesh.no_attributes length
         Nat.max] in *.
  destruct (Mesh.texcoord (Mesh.attributes prim')) as [| x0 [| x1 [| x2 l]]];
    try discriminate Hlen.
  injection H0 as ->. injection H1 as ->. reflexivity.
Defined.

Lemma read_attributes_skips_witness :
  read_attributes (ext := sample_ext)
    [("TANGENT", JString "a"); ("POSITION", JNumber 3)]
    Mesh.Primitive_ (asset_with_accessor "a")
  = (asset_with_accessor "a", Ok Mesh.Primitive_).
Proof.
  apply (read_attributes_skips (ext := sample_ext)).
  apply Forall_cons_2; [right; reflexivity |].
  apply Forall_cons_2; [left; reflexivity |].
  apply Forall_nil_2.
Defined.

Lemma Write_Mesh_read_back_witness :
  exists ms : list (string * Value),
    Write_Mesh (asset_with_accessor "a") [] written_mesh = Some ms
    /\ Mesh_Read (ext := sample_ext) (JObject ms) Mesh.Mesh (asset_with_accessor "a")
       = (asset_with_accessor "a",
          Ok (Mesh.set_primitives [written_primitive] Mesh.Mesh)).
Proof.
  assert (Accessor_resolves (ext := sample_ext) (asset_with_accessor "a")
            (MkRef 0)) as Hres.
  { exists {| Accessor.id := "a"; Accessor.name := "";
              Accessor.bufferView := NullRef; Accessor.byteOffset := 0;
              Accessor.byteStride := 0;
              Accessor.componentType := ComponentType_BYTE;
              Accessor.count := 0; Accessor.type := AttribType.SCALAR |}.
    split; reflexivity. }
  apply (Write_Mesh_read_back (ext := sample_ext) (asset_with_accessor "a") []
           written_mesh Mesh.Mesh).
  - apply Forall_cons_2; [| apply Forall_nil_2].
    unfold Primitive_writable. split_and!.
    + by vm_compute.
    + by vm_compute.
    + reflexivity.
    + intros sem. split.
      * destruct sem;
          repeat first [apply Forall_nil_2 | apply Forall_cons_2; [exact Hres |]].
      * destruct sem; by vm_compute.
    + right. exact Hres.
    + left. reflexivity.
  - reflexivity.
  - reflexivity.
Defined.


Lemma FindUniqueID_result_unused_witness :
  Asset.FindUniqueID "x" "mesh" 0 asset_with_x = Some (Ok "x_mesh")
  /\ Asset.mUsedIds asset_with_x !! "x_mesh" = None.
Proof.
  split; [reflexivity |].
  apply (FindUniqueID_result_unused "x" "mesh" 0 asset_with_x "x_mesh").
  reflexivity.
Defined.

Lemma ExportSkin_appends_matrices_witness :
  exists added : list (aiBone (ext := sample_ext)),
    sublist added (mBones five_bone_mesh)
    /\ exported_skin.2 = mOffsetMatrix <$> added.
Proof.
  destruct (ExportSkin_appends_matrices (ext := sample_ext) five_bone_mesh
              (MkRef 0) [] exported_skin.2
              skin_asset
              (ExportSkin (ext := sample_ext) five_bone_mesh (MkRef 0) []
                 skin_asset).1
              exported_skin.1)
    as [(added & Hsub & Hinv) _].
  - vm_compute. reflexivity.
  - exists added. split; [exact Hsub | exact Hinv].
Defined.

Lemma FindUniqueID_first_free_witness :
  Asset.FindUniqueID "x" "mesh" 0 asset_with_x = Some (Ok "x_mesh")
  /\ is_Some (Asset.mUsedIds asset_with_x !! "x")
  /\ ~ is_Some (Asset.mUsedIds asset_with_x !! "x_mesh").
Proof.
  split; [reflexivity |].
  destruct (FindUniqueID_first_free "x" "mesh" 0 asset_with_x "x_mesh")
    as [(_ & _ & Hid) | [(Hused & Hfree & _) | (_ & Hused & _)]].
  - cbn. lia.
  - reflexivity.
  - discriminate Hid.
  - destruct Hused as [Hempty | Hused]; [discriminate Hempty |].
    split; [exact Hused | exact Hfree].
  - destruct Hused as [v Hv]. discriminate Hv.
Defined.

Lemma LazyDict_Get_Buffer_fails_clean_witness :
  (LazyDict_Get (D := Buffer_DictObject (ext := sample_ext)) "b"
     (asset_with_buffers (JObject [("b", base64_buffer 5)]))).1
  = asset_with_buffers (JObject [("b", base64_buffer 5)])
  /\ exists e : DeadlyImportError,
       (LazyDict_Get (D := Buffer_DictObject (ext := sample_ext)) "b"
          (asset_with_buffers (JObject [("b", base64_buffer 5)]))).2
       = Throw e.
Proof.
  apply (LazyDict_Get_Buffer_fails_clean (ext := sample_ext) "b"
           (asset_with_buffers (JObject [("b", base64_buffer 5)]))).
  - apply surjective_pairing.
  - intros ref. discriminate.
Defined.

Lemma ExportSkin_joints_in_step_witness :
  exists (skin' : Skin.t) (added : list (Ref Node.t)),
    deref (Asset.skins
             (ExportSkin (ext := sample_ext) five_bone_mesh (MkRef 0) []
                skin_asset).1) (MkRef 0)
    = Some skin'
    /\ Skin.jointNames skin' = added
    /\ length added = 5%nat.
Proof.
  destruct (ExportSkin_joints_in_step (ext := sample_ext) five_bone_mesh 0
              Skin.Skin [] exported_skin.2 skin_asset
              (ExportSkin (ext := sample_ext) five_bone_mesh (MkRef 0) []
                 skin_asset).1
              exported_skin.1)
    as (skin' & added & Hskin & Hjoints & Hlen).
  - reflexivity.
  - unfold five_bone_mesh. cbn [mBones].
    repeat (apply Forall_cons_2; [eexists; reflexivity |]). apply Forall_nil_2.
  - reflexivity.
  - vm_compute. reflexivity.
  - exists skin', added. split_and!.
    + exact Hskin.
    + exact Hjoints.
    + symmetry. exact Hlen.
Defined.
